(** * bench: running Go benchmarks in isolation, one process per benchmark

    A shallow embedding of the two programs of the repository:

    - [Main] is [main.go]: it works on the current directory only and
      prints the first output line of every [go test] run as it is;
    - [Doc] is the program listed after the package documentation
      ([README.md], from [package main] on): it accepts an import path,
      passes it to [go test], and reformats each result line through
      [parse.ParseLine].

    Both share the scanner of benchmark declarations and the validation of
    the output of [go test].  Go's [[]byte] and [string] are byte sequences
    ([list byte]); [int], [int64], [uint64] and [time.Duration] are [Z] with
    the wrap-around written out where the program computes with them.  The
    process is a state ([proc]: the outside world, the runs of [go] so far,
    standard output) threaded through a small state-and-exit monad; [log.Fatal]
    and run-time panics are the two abnormal exits. *)

From Stdlib Require Import Strings.Byte Strings.String.
From Stdlib Require Import ZArith List Lia Bool DecimalString.
Import ListNotations.

Local Open Scope Z_scope.

(** ** Byte sequences *)

Definition bytes := list byte.

(** A Go string literal. *)
Definition B (s : string) : bytes := list_byte_of_string s.

(** [len(s)] *)
Definition len (s : bytes) : Z := Z.of_nat (length s).

Definition tab : byte := x09.
Definition newline : byte := x0a.
Definition space : byte := x20.

Module GoBytes.

(** [bytes.Equal] *)
Fixpoint Equal (a b : bytes) : bool :=
  match a, b with
  | [], [] => true
  | x :: a', y :: b' => Byte.eqb x y && Equal a' b'
  | _, _ => false
  end.

(** [bytes.HasPrefix], [strings.HasPrefix] *)
Fixpoint HasPrefix (s prefix : bytes) {struct prefix} : bool :=
  match prefix, s with
  | [], _ => true
  | p :: prefix', x :: s' => Byte.eqb x p && HasPrefix s' prefix'
  | _ :: _, [] => false
  end.

(** [bytes.IndexByte]; [bytes.Index] and [strings.Index] with a separator
    of one byte: the index of its first occurrence, or -1. *)
Fixpoint IndexByte (s : bytes) (c : byte) : Z :=
  match s with
  | [] => -1
  | x :: s' =>
    if Byte.eqb x c then 0
    else let i := IndexByte s' c in
         if i <? 0 then -1 else i + 1
  end.

(** [bytes.Split] with a separator of one byte: the pieces between the
    separators, one more than there are separators. *)
Fixpoint Split (s : bytes) (sep : byte) : list bytes :=
  match s with
  | [] => [[]]
  | x :: s' =>
    if Byte.eqb x sep then [] :: Split s' sep
    else match Split s' sep with
         | piece :: pieces => (x :: piece) :: pieces
         | [] => [[x]]
         end
  end.

(** [s[lo:]]; [None] is the run-time panic of a slice out of range. *)
Definition slice_from (s : bytes) (lo : Z) : option bytes :=
  if (0 <=? lo) && (lo <=? len s) then Some (skipn (Z.to_nat lo) s) else None.

(** [s[:hi]]; [None] is the run-time panic of a slice out of range. *)
Definition slice_to (s : bytes) (hi : Z) : option bytes :=
  if (0 <=? hi) && (hi <=? len s) then Some (firstn (Z.to_nat hi) s) else None.

End GoBytes.

(** ** Results of a computation that may stop the process *)

(** [Fatal] is [log.Fatal] and [log.Fatalf], a message on standard error
    and exit status 1; [Panic] is a run-time panic, exit status 2. *)
Inductive stop : Type :=
  | Fatal (msg : bytes)
  | Panic.

(** The value of a computation, or the way the process stopped. *)
Inductive res (A : Type) : Type :=
  | Ok (a : A)
  | Stop (e : stop).

Arguments Ok {A} a.
Arguments Stop {A} e.

Definition res_bind {A C : Type} (r : res A) (k : A -> res C) : res C :=
  match r with
  | Ok a => k a
  | Stop e => Stop e
  end.

(** A slice expression that panics out of range. *)
Definition checked {A : Type} (o : option A) : res A :=
  match o with
  | Some a => Ok a
  | None => Stop Panic
  end.

(** ** The scanner of benchmark declarations (main.go 115-132, README.md 179-196) *)

Module Scanner.
Import GoBytes.

Definition lparen : byte := "("%byte.

(** The body of the inner loop, for one line [v]: [bench] with the
    identifier of [v] appended when [v] declares a benchmark. *)
Definition scan_line (bench : list bytes) (v : bytes) : res (list bytes) :=
  if negb (HasPrefix v (B "func Benchmark")) then Ok bench
  else
    res_bind (checked (slice_from v (len (B "func ")))) (fun v1 =>
    res_bind (checked (slice_to v1 (IndexByte v1 lparen))) (fun v2 =>
    Ok (bench ++ [v2]))).

(** [for _, v := range a { ... }] *)
Fixpoint scan_lines (bench : list bytes) (a : list bytes) : res (list bytes) :=
  match a with
  | [] => Ok bench
  | v :: a' => res_bind (scan_line bench v) (fun bench' => scan_lines bench' a')
  end.

(** One test file: [r] is what [ioutil.ReadFile] returned for it, its
    content or the text of its error. *)
Definition scan_file (bench : list bytes) (r : bytes + bytes) : res (list bytes) :=
  match r with
  | inr err => Stop (Fatal err)
  | inl b => scan_lines bench (Split b newline)
  end.

(** [for _, v := range testFiles { ... }] *)
Fixpoint scan_files (bench : list bytes) (testFiles : list (bytes + bytes))
  : res (list bytes) :=
  match testFiles with
  | [] => Ok bench
  | r :: rest => res_bind (scan_file bench r) (fun bench' => scan_files bench' rest)
  end.

(** The scanner on files that were all read: [var bench [][]byte] and the
    loop over the files. *)
Definition scan (sources : list bytes) : res (list bytes) :=
  scan_files [] (map inl sources).

(** *** The declaration convention, in the words of the specification *)

(** A line declares a benchmark when it begins with [func Benchmark]. *)
Definition declares_benchmark (line : bytes) : bool :=
  HasPrefix line (B "func Benchmark").

(** The text of [s] before its first [c]; all of [s] when it has none. *)
Fixpoint text_before (c : byte) (s : bytes) : bytes :=
  match s with
  | [] => []
  | x :: s' => if Byte.eqb x c then [] else x :: text_before c s'
  end.

(** The declared name: from the start of the name (after [func ]) up to,
    not including, the first opening parenthesis. *)
Definition declared_name (line : bytes) : bytes :=
  text_before lparen (skipn 5 line).

(** The lines of a source text. *)
Definition lines (src : bytes) : list bytes := Split src newline.

(** One name per declaring line, files in order, lines top to bottom. *)
Definition declared_names (sources : list bytes) : list bytes :=
  flat_map (fun src => map declared_name (filter declares_benchmark (lines src)))
         sources.

(** Every declaring line of every source has an opening parenthesis. *)
Definition well_delimited (sources : list bytes) : Prop :=
  forall src line,
  In src sources -> In line (lines src) ->
  declares_benchmark line = true -> In lparen line.

(** *** Whether the scanner gets past a line *)

(** A line the scanner gets past: it declares no benchmark, or it has a
    parenthesis. *)
Definition delimited (line : bytes) : bool :=
  negb (declares_benchmark line) || existsb (Byte.eqb lparen) line.

(** Every line of every source is one the scanner gets past. *)
Definition all_delimited (sources : list bytes) : bool :=
  forallb (fun src => forallb delimited (lines src)) sources.

End Scanner.

(** ** Binary64 arithmetic on non-negative values

    [time.ParseDuration] computes the fraction of a unit in [float64].  Its
    operands are never negative and never NaN, so a value is a mantissa and an
    exponent, [m * 2^e] with [0 <= m <= 2^53] and [-1074 <= e], or infinity.
    Every operation rounds the exact result to the nearest value with a
    mantissa of 53 bits, ties to the even mantissa. *)

Module F64.

Inductive t : Type :=
  | Fin (m e : Z)
  | Inf.

(** The numerator and the denominator of [(n / d) / 2^e]. *)
Definition scaled (n d e : Z) : Z * Z :=
  if 0 <=? e then (n, d * 2 ^ e) else (n * 2 ^ (- e), d).

(** [n / d] rounded to an integer, ties to even. *)
Definition nearest_even (n d : Z) : Z :=
  let q := n / d in
  let r := n mod d in
  if (d <? 2 * r) || ((d =? 2 * r) && Z.odd q) then q + 1 else q.

(** The binary64 value nearest to [n / d], for [0 <= n] and [0 < d]. *)
Definition round (n d : Z) : t :=
  if n =? 0 then Fin 0 0
  else
    let e0 := Z.log2 n - Z.log2 d - 52 in
    let '(n0, d0) := scaled n d e0 in
    let e1 := if n0 / d0 <? 2 ^ 52 then e0 - 1 else e0 in
    let e := Z.max e1 (-1074) in
    let '(n1, d1) := scaled n d e in
    let m := nearest_even n1 d1 in
    if 2 ^ 1024 <=? m * 2 ^ e then Inf else Fin m e.

(** [float64(x)] for an unsigned integer [x]. *)
Definition of_Z (x : Z) : t := round x 1.

(** [a * b] *)
Definition mul (a b : t) : t :=
  match a, b with
  | Fin ma ea, Fin mb eb =>
    let '(n, d) := scaled (ma * mb) 1 (- (ea + eb)) in round n d
  | _, _ => Inf
  end.

(** [a / b], for [b] other than zero. *)
Definition div (a b : t) : t :=
  match a, b with
  | Fin ma ea, Fin mb eb =>
    let '(n, d) := scaled ma mb (eb - ea) in round n d
  | Fin _ _, Inf => Fin 0 0
  | Inf, _ => Inf
  end.

(** [uint64(a)]: the integer part.  The conversion of a value of 2^64 or
    more depends on the machine; [time.ParseDuration] converts values no
    larger than an hour in nanoseconds. *)
Definition to_uint64 (a : t) : Z :=
  match a with
  | Fin m e => (if 0 <=? e then m * 2 ^ e else m / 2 ^ (- e)) mod 2 ^ 64
  | Inf => 2 ^ 63
  end.

(** *** Values that are integers *)

(** The value [a] is the integer [V], held with an exponent that is not
    positive. *)
Definition exact (a : t) (V : Z) : Prop :=
  exists m e, a = Fin m e /\ e <= 0 /\ m = V * 2 ^ (- e).

End F64.

(** ** Package time: durations (Go's standard library) *)

Module GoTime.

(** A [Duration] is an [int64] count of nanoseconds. *)
Definition Nanosecond : Z := 1.
Definition Microsecond : Z := 1000 * Nanosecond.
Definition Millisecond : Z := 1000 * Microsecond.
Definition Second : Z := 1000 * Millisecond.
Definition Minute : Z := 60 * Second.
Definition Hour : Z := 60 * Minute.

Definition int64_min : Z := - 2 ^ 63.
Definition int64_max : Z := 2 ^ 63 - 1.

(** The [int64] that a 64-bit pattern stands for. *)
Definition wrap64 (z : Z) : Z := (z + 2 ^ 63) mod 2 ^ 64 - 2 ^ 63.

(** [t + d] on [Duration]s. *)
Definition add (t d : Z) : Z := wrap64 (t + d).

(** [byte(d) + '0'] *)
Definition digit (d : Z) : byte :=
  match Byte.of_N (Z.to_N ((d + 48) mod 256)) with
  | Some b => b
  | None => x00
  end.

(** ['0' <= c && c <= '9'] *)
Definition is_digit (c : byte) : bool :=
  let n := Z.of_N (Byte.to_N c) in (48 <=? n) && (n <=? 57).

(** The loop of [fmtInt]: [for v > 0 { w--; buf[w] = byte(v%10) + '0'; v /= 10 }].
    A [uint64] has at most twenty digits. *)
Fixpoint fmtInt_loop (fuel : nat) (buf : bytes) (v : Z) : bytes :=
  match fuel with
  | O => buf
  | S fuel' =>
    if 0 <? v then fmtInt_loop fuel' (digit (v mod 10) :: buf) (v / 10)
    else buf
  end.

(** [fmtInt] writes [v] in front of the text already in the tail of the
    buffer. *)
Definition fmtInt (buf : bytes) (v : Z) : bytes :=
  if v =? 0 then "0"%byte :: buf else fmtInt_loop 20 buf v.

(** The loop of [fmtFrac]: the last [prec] digits of [v], the trailing
    zeros left out. *)
Fixpoint fmtFrac_loop (prec : nat) (buf : bytes) (print : bool) (v : Z)
  : bytes * bool * Z :=
  match prec with
  | O => (buf, print, v)
  | S prec' =>
    let d := v mod 10 in
    let print' := print || negb (d =? 0) in
    fmtFrac_loop prec' (if print' then digit d :: buf else buf) print' (v / 10)
  end.

(** [fmtFrac]: the fraction of [v / 10^prec] and the decimal point, both
    left out when the fraction is zero; and [v / 10^prec]. *)
Definition fmtFrac (buf : bytes) (v : Z) (prec : nat) : bytes * Z :=
  let '(buf', print, v') := fmtFrac_loop prec buf false v in
  (if print then "."%byte :: buf' else buf', v').

(** The micro sign, U+00B5, in UTF-8. *)
Definition micro_sign : bytes := [xc2; xb5].

(** The Greek letter mu, U+03BC, in UTF-8. *)
Definition greek_mu : bytes := [xce; xbc].

(** [Duration.String]: what [%v] prints for a [Duration]. *)
Definition String (d : Z) : bytes :=
  let neg := d <? 0 in
  let u := if neg then (- d) mod 2 ^ 64 else d mod 2 ^ 64 in
  let sign (buf : bytes) := if neg then "-"%byte :: buf else buf in
  if u <? Second then
    if u =? 0 then B "0s"
    else
      let '(prec, unit) :=
        if u <? Microsecond then (0%nat, B "ns")
        else if u <? Millisecond then (3%nat, micro_sign ++ B "s")
        else (6%nat, B "ms") in
      let '(buf, u1) := fmtFrac unit u prec in
      sign (fmtInt buf u1)
  else
    let '(buf, u1) := fmtFrac (B "s") u 9 in
    let buf := fmtInt buf (u1 mod 60) in
    let u2 := u1 / 60 in
    if 0 <? u2 then
      let buf := fmtInt ("m"%byte :: buf) (u2 mod 60) in
      let u3 := u2 / 60 in
      if 0 <? u3 then sign (fmtInt ("h"%byte :: buf) u3)
      else sign buf
    else sign buf.

(** [leadingInt]: the leading digits of [s] as a number, and the rest;
    [None] when the number passes 2^63. *)
Fixpoint leadingInt (x : Z) (s : bytes) : option (Z * bytes) :=
  match s with
  | [] => Some (x, [])
  | c :: s' =>
    if negb (is_digit c) then Some (x, s)
    else if 2 ^ 63 / 10 <? x then None
    else
      let x' := x * 10 + Z.of_N (Byte.to_N c) - 48 in
      if 2 ^ 63 <? x' then None else leadingInt x' s'
  end.

(** [leadingFraction]: the leading digits of [s] as a numerator [x]
    and a power of ten [scale], and the rest; digits past the capacity
    of [x] are dropped. *)
Fixpoint leadingFraction (x : Z) (scale : F64.t) (overflow : bool) (s : bytes)
  : Z * F64.t * bytes :=
  match s with
  | [] => (x, scale, [])
  | c :: s' =>
    if negb (is_digit c) then (x, scale, s)
    else if overflow then leadingFraction x scale true s'
    else if (2 ^ 63 - 1) / 10 <? x then leadingFraction x scale true s'
    else
      let y := x * 10 + Z.of_N (Byte.to_N c) - 48 in
      if 2 ^ 63 <? y then leadingFraction x scale true s'
      else leadingFraction y (F64.mul scale (F64.of_Z 10)) false s'
  end.

(** The unit of a duration: the bytes of [s] up to the next digit or
    point, and the rest. *)
Fixpoint span_unit (s : bytes) : bytes * bytes :=
  match s with
  | [] => ([], [])
  | c :: s' =>
    if Byte.eqb c "."%byte || is_digit c then ([], s)
    else let '(u, r) := span_unit s' in (c :: u, r)
  end.

(** [unitMap] *)
Definition unitMap (u : bytes) : option Z :=
  if GoBytes.Equal u (B "ns") then Some Nanosecond
  else if GoBytes.Equal u (B "us") then Some Microsecond
  else if GoBytes.Equal u (micro_sign ++ B "s") then Some Microsecond
  else if GoBytes.Equal u (greek_mu ++ B "s") then Some Microsecond
  else if GoBytes.Equal u (B "ms") then Some Millisecond
  else if GoBytes.Equal u (B "s") then Some Second
  else if GoBytes.Equal u (B "m") then Some Minute
  else if GoBytes.Equal u (B "h") then Some Hour
  else None.

(** The fraction of a term: after a point the digits as [f] and [scale],
    with [post] telling whether there was a digit; the rest of [s]. *)
Definition fraction (s : bytes) : Z * F64.t * bytes * bool :=
  match s with
  | c :: s' =>
      if Byte.eqb c "."%byte then
        let '(f, scale, rest) := leadingFraction 0 (F64.of_Z 1) false s' in
        (f, scale, rest, negb (len s' =? len rest))
      else (0, F64.of_Z 1, s, false)
  | [] => (0, F64.of_Z 1, s, false)
  end.

(** The sum [d] with the term [v + f / scale] of [unit] nanoseconds added;
    [None] is an overflow. *)
Definition add_term (v f : Z) (scale : F64.t) (unit d : Z) : option Z :=
  if 2 ^ 63 / unit <? v then None
  else
    let v1 := v * unit in
    let v2 :=
      if 0 <? f then
        (v1 + F64.to_uint64 (F64.mul (F64.of_Z f) (F64.div (F64.of_Z unit) scale)))
        mod 2 ^ 64
      else v1 in
    if (0 <? f) && (2 ^ 63 <? v2) then None
    else
      let d' := (d + v2) mod 2 ^ 64 in
      if 2 ^ 63 <? d' then None else Some d'.

(** One turn of the loop of [ParseDuration]: a number, a unit, and the
    sum [d] so far; [None] is an error. *)
Definition parse_term (s : bytes) (d : Z) : option (bytes * Z) :=
  match s with
  | [] => None
  | c :: _ =>
      if negb (Byte.eqb c "."%byte || is_digit c) then None
      else
        match leadingInt 0 s with
        | None => None
        | Some (v, s1) =>
            let pre := negb (len s =? len s1) in
            let '(f, scale, s2, post) := fraction s1 in
            if negb pre && negb post then None
            else
              let '(u, s3) := span_unit s2 in
              match u with
              | [] => None
              | _ :: _ =>
                  match unitMap u with
                  | None => None
                  | Some unit =>
                      match add_term v f scale unit d with
                      | None => None
                      | Some d' => Some (s3, d')
                      end
                  end
              end
        end
  end.

(** [for s != "" { ... }]; every turn takes at least the byte of a unit,
    so [length s] turns are enough. *)
Fixpoint parse_terms (fuel : nat) (s : bytes) (d : Z) : option Z :=
  match s with
  | [] => Some d
  | _ :: _ =>
    match fuel with
    | O => None
    | S fuel' =>
        match parse_term s d with
        | None => None
        | Some (s', d') => parse_terms fuel' s' d'
        end
    end
  end.

(** [time.ParseDuration]: an optional sign, then one or more terms, each
    a decimal number with an optional fraction and a unit; the duration,
    or [None] for an error. *)
Definition ParseDuration (s : bytes) : option Z :=
  let '(neg, s1) :=
    match s with
    | c :: s' =>
        if Byte.eqb c "-"%byte || Byte.eqb c "+"%byte
        then (Byte.eqb c "-"%byte, s')
        else (false, s)
    | [] => (false, s)
    end in
  if GoBytes.Equal s1 (B "0") then Some 0
  else
    match s1 with
    | [] => None
    | _ :: _ =>
        match parse_terms (length s1) s1 0 with
        | None => None
        | Some d =>
            if neg then Some (wrap64 (- d))
            else if 2 ^ 63 - 1 <? d then None
            else Some d
        end
    end.

(** *** The text of a duration, piece by piece *)

(** [s] begins with a digit. *)
Definition starts_with_digit (s : bytes) : Prop :=
  match s with
  | c :: _ => is_digit c = true
  | [] => False
  end.

(** [s] is empty or begins with a byte that is neither a digit nor a point:
    where a number ends. *)
Definition ends_number (s : bytes) : Prop :=
  match s with
  | c :: _ => is_digit c = false
  | [] => True
  end.

(** [scale] after [k] digits of a fraction. *)
Definition ten_times (k : nat) (scale : F64.t) : F64.t :=
  Nat.iter k (fun s => F64.mul s (F64.of_Z 10)) scale.

(** What follows a term: nothing, or the digit of the next term. *)
Definition follows_term (rest : bytes) : Prop :=
  rest = [] \/ starts_with_digit rest.

(** [ub] is a unit of [U] nanoseconds as [String] writes it: the parser
    reads its bytes up to the next term and finds it in [unitMap]. *)
Definition written_unit (ub : bytes) (U : Z) : Prop :=
  unitMap ub = Some U
  /\ exists c tl,
      ub = c :: tl
      /\ Byte.eqb c "."%byte = false
      /\ is_digit c = false
      /\ forall rest, follows_term rest -> span_unit (ub ++ rest) = (ub, rest).

(** The text of a duration without its sign, for [u] nanoseconds. *)
Definition magnitude (u : Z) : bytes :=
  if u <? Second then
    let '(prec, unit) :=
      if u <? Microsecond then (0%nat, B "ns")
      else if u <? Millisecond then (3%nat, micro_sign ++ B "s")
      else (6%nat, B "ms") in
    let '(buf, u1) := fmtFrac unit u prec in
    fmtInt buf u1
  else
    let '(buf, u1) := fmtFrac (B "s") u 9 in
    let buf := fmtInt buf (u1 mod 60) in
    let u2 := u1 / 60 in
    if 0 <? u2 then
      let buf := fmtInt ("m"%byte :: buf) (u2 mod 60) in
      let u3 := u2 / 60 in
      if 0 <? u3 then fmtInt ("h"%byte :: buf) u3 else buf
    else buf.

End GoTime.

(** ** What the programs take from outside

    [golang.org/x/tools/benchmark/parse], the [go] tool and the rendering of
    [float64] values are not part of the repository: the programs are
    embedded over any implementation of them. *)

(** [parse.Benchmark] *)
Record Benchmark (float64 : Type) : Type := {
  Name : bytes;                 (* benchmark name *)
  N : Z;                        (* number of iterations *)
  NsPerOp : float64;            (* nanoseconds per iteration *)
  AllocedBytesPerOp : Z;        (* bytes allocated per iteration *)
  AllocsPerOp : Z;              (* allocs per iteration *)
  MBPerS : float64;             (* MB processed per second *)
  Measured : Z;                 (* which measurements were recorded *)
  Ord : Z                       (* ordinal position within a benchmark run *)
}.

Arguments Name {float64} _.
Arguments N {float64} _.
Arguments NsPerOp {float64} _.
Arguments AllocedBytesPerOp {float64} _.
Arguments AllocsPerOp {float64} _.
Arguments MBPerS {float64} _.
Arguments Measured {float64} _.
Arguments Ord {float64} _.

(** The flags of [Benchmark.Measured]: [1 << iota]. *)
Module parse.
Definition NsPerOp : Z := 1.
Definition MBPerS : Z := 2.
Definition AllocedBytesPerOp : Z := 4.
Definition AllocsPerOp : Z := 8.
End parse.

Class Externals : Type := {
  (** the state of everything outside the process *)
  World : Type;
  (** [exec.Command("go", args...).CombinedOutput()]: the output and the
      error, if any (a start that failed, an exit status other than zero) *)
  CombinedOutput : World -> list bytes -> World * (bytes * option bytes);
  (** Go's [float64] *)
  float64 : Type;
  (** [parse.ParseLine]; [None] is an error *)
  ParseLine : bytes -> option (Benchmark float64);
  (** [fmt.Sprintf("%.2f", x)] *)
  FormatFloat2 : float64 -> bytes;
  (** [utf8.RuneCountInString], by which [fmt] pads *)
  RuneCount : bytes -> Z
}.

(** ** Package fmt: the verbs the programs use *)

Module GoFmt.
Section WithExternals.
Context {X : Externals}.

Definition padding (n : Z) : bytes := repeat space (Z.to_nat n).

(** [%15d], [%15v] on an integer: digits are padded by their number. *)
Definition pad_number (w : Z) (s : bytes) : bytes := padding (w - len s) ++ s.

(** [%15s], [%15.2f]: padded on the left by the number of runes. *)
Definition pad_left (w : Z) (s : bytes) : bytes := padding (w - RuneCount s) ++ s.

(** A negative width: padded on the right. *)
Definition pad_right (w : Z) (s : bytes) : bytes := s ++ padding (w - RuneCount s).

(** [fmt.Sprintf("%*s", w, s)]: a width of more than a million in
    magnitude is refused, a negative width pads on the right. *)
Definition Sprintf_star_s (w : Z) (s : bytes) : bytes :=
  if (10 ^ 6 <? w) || (w <? - 10 ^ 6) then B "%!(BADWIDTH)" ++ s
  else if w <? 0 then pad_right (- w) s
  else pad_left w s.

(** [%d], [%v] on an integer. *)
Definition itoa (z : Z) : bytes :=
  list_byte_of_string (DecimalString.NilZero.string_of_int (Z.to_int z)).

End WithExternals.
End GoFmt.

(** ** The process *)

Section Process.
Context {X : Externals}.

(** A run of [go]: its arguments, and the output and the error it
    returned. *)
Definition call : Type := list bytes * (bytes * option bytes).

Record proc : Type := {
  world : World;                 (* everything outside *)
  calls : list call;             (* the runs of [go] so far, in order *)
  stdout : bytes                 (* what was printed *)
}.

(** A computation in the process: the state after it, and its value or
    the reason the process stopped. *)
Definition M (A : Type) : Type := proc -> proc * res A.

Definition ret {A : Type} (a : A) : M A := fun p => (p, Ok a).

Definition bind {A C : Type} (c : M A) (k : A -> M C) : M C :=
  fun p =>
    match c p with
    | (p', Ok a) => k a p'
    | (p', Stop e) => (p', Stop e)
    end.

Definition lift {A : Type} (r : res A) : M A := fun p => (p, r).

(** [log.Fatal], [log.Fatalf] *)
Definition log_Fatal {A : Type} (msg : bytes) : M A := lift (Stop (Fatal msg)).

(** The process after it printed [s]. *)
Definition printed (p : proc) (s : bytes) : proc :=
  {| world := world p; calls := calls p; stdout := stdout p ++ s |}.

(** The process after [go] ran with [args], left the world [w] and
    returned [r]. *)
Definition called (p : proc) (args : list bytes) (w : World)
           (r : bytes * option bytes) : proc :=
  {| world := w; calls := calls p ++ [(args, r)]; stdout := stdout p |}.

(** [fmt.Printf], [fmt.Println] with the text already formatted *)
Definition Printf (s : bytes) : M unit := fun p => (printed p s, Ok tt).

(** [exec.Command("go", args...).CombinedOutput()] *)
Definition go (args : list bytes) : M (bytes * option bytes) :=
  fun p =>
    let '(w, r) := CombinedOutput (world p) args in
    (called p args w r, Ok r).

(** The process at its start. *)
Definition start (w : World) : proc := {| world := w; calls := []; stdout := [] |}.

End Process.

Declare Scope proc_scope.
Delimit Scope proc_scope with proc.
Notation "x <- c ;; k" := (bind c (fun x => k))
  (at level 61, c at next level, right associativity) : proc_scope.
Notation "' pat <- c ;; k" := (bind c (fun x => match x with pat => k end))
  (at level 61, pat pattern, c at next level, right associativity) : proc_scope.
Notation "c ;; k" := (bind c (fun _ => k))
  (at level 61, right associativity) : proc_scope.

(** ** One run of [go test] and the check of its output
       (main.go 140-181, README.md 208-249) *)

Section GoTest.
Context {X : Externals}.
Import GoBytes.
Local Open Scope proc_scope.

(** [len(a)] for the lines [a]. *)
Definition len_lines (a : list bytes) : Z := Z.of_nat (length a).

(** [nth_line a i] is [a[i]] for [i] in range. *)
Definition nth_line (a : list bytes) (i : nat) : bytes := nth i a [].

(** [p := fmt.Sprintf("ok  \t%s\t", importPath)] *)
Definition trailer_prefix (importPath : bytes) : bytes :=
  B "ok  " ++ [tab] ++ importPath ++ [tab].

(** The messages of the three calls of [log.Fatalf]. *)
Definition unrecognized (out : bytes) : bytes :=
  B "Unrecognized format of go test output:" ++ [newline] ++ out.

Definition unexpected (out : bytes) : bytes :=
  B "Unexpected format of go test output:" ++ [newline] ++ out.

Definition cannot_parse (out : bytes) : bytes :=
  B "Cannot parse benchmark duration" ++ [newline] ++ out.

(** The check of the output [out] of the run for the identifier [v]: the
    first line and the duration of the trailer, or the fatal error. *)
Definition check_output (importPath v out : bytes) : res (bytes * Z) :=
  let a := Split out newline in
  if len_lines a <? 3 then Stop (Fatal (unrecognized out))
  else
    let p := trailer_prefix importPath in
    if negb (HasPrefix (nth_line a 0) v)
       || negb (Equal (nth_line a 1) (B "PASS"))
       || negb (HasPrefix (nth_line a 2) p)
    then Stop (Fatal (unexpected out))
    else
      res_bind (checked (slice_from (nth_line a 2) (len p))) (fun s =>
      match GoTime.ParseDuration s with
      | None => Stop (Fatal (cannot_parse out))
      | Some d => Ok (nth_line a 0, d)
      end).

(** The run of [go] with [args] for the identifier [v], and the check of
    what it printed. *)
Definition go_test (args : list bytes) (importPath v : bytes) : M (bytes * Z) :=
  '(out, err) <- go args ;;
  match err with
  | Some e => log_Fatal e
  | None => lift (check_output importPath v out)
  end.

End GoTest.

(** ** main.go

    What [main] does before line 115 (the look-up of the [go] tool, the
    flags, the import path of the working directory, the list of test
    files) yields the three inputs of [main] here: the flag [-benchmem],
    [importPath], and for every test file what reading it returned. *)

Module Main.
Section WithExternals.
Context {X : Externals}.
Local Open Scope proc_scope.

(** [args] (main.go 136-139) *)
Definition args (oBenchmem : bool) (v : bytes) : list bytes :=
  [B "test"; B "-run"; B "NONE"; B "-bench"; B "^" ++ v ++ B "$"]
  ++ (if oBenchmem then [B "-benchmem"] else []).

(** The body of the loop over [bench] (main.go 136-184), from the total
    [t] before it to the total after it. *)
Definition body (oBenchmem : bool) (importPath : bytes) (t : Z) (v : bytes) : M Z :=
  '(a0, d) <- go_test (args oBenchmem v) importPath v ;;
  let t := GoTime.add t d in
  Printf (a0 ++ [newline]) ;;
  ret t.

(** [for _, v := range bench { ... }] *)
Fixpoint loop (oBenchmem : bool) (importPath : bytes) (t : Z) (bench : list bytes)
  : M Z :=
  match bench with
  | [] => ret t
  | v :: rest =>
      t' <- body oBenchmem importPath t v ;;
      loop oBenchmem importPath t' rest
  end.

(** [PASS] and the trailer with the total (main.go 186-187). *)
Definition summary (importPath : bytes) (t : Z) : bytes :=
  B "PASS" ++ [newline]
  ++ B "ok  " ++ [tab] ++ importPath ++ [tab] ++ GoTime.String t ++ [newline].

(** From a list of identifiers on (main.go 134-187). *)
Definition run (oBenchmem : bool) (importPath : bytes) (bench : list bytes) : M unit :=
  t <- loop oBenchmem importPath 0 bench ;;
  Printf (summary importPath t).

(** main.go 115-187 *)
Definition main (oBenchmem : bool) (importPath : bytes)
           (testFiles : list (bytes + bytes)) : M unit :=
  bench <- lift (Scanner.scan_files [] testFiles) ;;
  run oBenchmem importPath bench.

End WithExternals.
End Main.

(** ** The program of README.md (from [package main] on)

    It differs from main.go in three places: the import path may be given as
    an argument and is passed to [go test]; the longest identifier sets the
    width of the first column; the first output line is parsed by
    [parse.ParseLine] and printed field by field. *)

Module Doc.
Section WithExternals.
Context {X : Externals}.
Import GoBytes GoFmt.
Local Open Scope proc_scope.

(** [args] (README.md 204-207) *)
Definition args (oBenchmem : bool) (importPath v : bytes) : list bytes :=
  [B "test"; B "-run"; B "NONE"; B "-bench"; B "^" ++ v ++ B "$"; importPath]
  ++ (if oBenchmem then [B "-benchmem"] else []).

(** [width] (README.md 197-200): the length of the longest identifier. *)
Definition max_width (bench : list bytes) : Z :=
  fold_left (fun width v => Z.max width (len v)) bench 0.

(** The text of the ns/op value (README.md 260-263): [s] as
    [fmt.Sprintf("%.2f", b.NsPerOp)] rendered it, cut by three bytes when
    its point is past index 2. *)
Definition ns_per_op_text (s : bytes) : res bytes :=
  if 2 <? IndexByte s "."%byte then checked (slice_to s (len s - 3))
  else Ok s.

(** [b.Measured & flag != 0] *)
Definition measured (b : Benchmark float64) (flag : Z) : bool :=
  negb (Z.land (Measured b) flag =? 0).

(** The fields of a parsed line (README.md 258-275). *)
Definition print_benchmark (width : Z) (b : Benchmark float64) : M unit :=
  Printf (Sprintf_star_s (- (width + 4)) (Name b) ++ pad_number 15 (itoa (N b))) ;;
  (if measured b parse.NsPerOp then
     s <- lift (ns_per_op_text (FormatFloat2 (NsPerOp b))) ;;
     Printf (pad_left 15 s ++ B " ns/op")
   else ret tt) ;;
  (if measured b parse.MBPerS then
     Printf (pad_left 15 (FormatFloat2 (MBPerS b)) ++ B " MB/s")
   else ret tt) ;;
  (if measured b parse.AllocedBytesPerOp then
     Printf (pad_number 15 (itoa (AllocedBytesPerOp b)) ++ B " B/op")
   else ret tt) ;;
  (if measured b parse.AllocsPerOp then
     Printf (pad_number 15 (itoa (AllocsPerOp b)) ++ B " allocs/op")
   else ret tt) ;;
  Printf [newline].

(** The body of the loop over [bench] (README.md 204-275). *)
Definition body (oBenchmem : bool) (importPath : bytes) (width : Z)
           (t : Z) (v : bytes) : M Z :=
  '(a0, d) <- go_test (args oBenchmem importPath v) importPath v ;;
  let t := GoTime.add t d in
  match ParseLine a0 with
  | None => Printf (a0 ++ [newline]) ;; ret t
  | Some b => print_benchmark width b ;; ret t
  end.

(** [for _, v := range bench { ... }] *)
Fixpoint loop (oBenchmem : bool) (importPath : bytes) (width : Z)
         (t : Z) (bench : list bytes) : M Z :=
  match bench with
  | [] => ret t
  | v :: rest =>
      t' <- body oBenchmem importPath width t v ;;
      loop oBenchmem importPath width t' rest
  end.

(** From a list of identifiers on (README.md 197-278). *)
Definition run (oBenchmem : bool) (importPath : bytes) (bench : list bytes) : M unit :=
  let width := max_width bench in
  t <- loop oBenchmem importPath width 0 bench ;;
  Printf (Main.summary importPath t).

(** README.md 179-278 *)
Definition main (oBenchmem : bool) (importPath : bytes)
           (testFiles : list (bytes + bytes)) : M unit :=
  bench <- lift (Scanner.scan_files [] testFiles) ;;
  run oBenchmem importPath bench.

End WithExternals.
End Doc.

(** ** The two programs side by side *)

(** [main_go] is main.go, [readme_go] the program of README.md. *)
Inductive program : Type :=
  | main_go
  | readme_go.

Section Programs.
Context {X : Externals}.
Import GoBytes.

Definition args (P : program) (oBenchmem : bool) (importPath v : bytes) : list bytes :=
  match P with
  | main_go => Main.args oBenchmem v
  | readme_go => Doc.args oBenchmem importPath v
  end.

(** The loop over [bench]; [width] is the variable of README.md. *)
Definition loop (P : program) (oBenchmem : bool) (importPath : bytes) (width : Z)
           (t : Z) (bench : list bytes) : M Z :=
  match P with
  | main_go => Main.loop oBenchmem importPath t bench
  | readme_go => Doc.loop oBenchmem importPath width t bench
  end.

Definition run (P : program) (oBenchmem : bool) (importPath : bytes)
           (bench : list bytes) : M unit :=
  match P with
  | main_go => Main.run oBenchmem importPath bench
  | readme_go => Doc.run oBenchmem importPath bench
  end.

Definition main (P : program) (oBenchmem : bool) (importPath : bytes)
           (testFiles : list (bytes + bytes)) : M unit :=
  match P with
  | main_go => Main.main oBenchmem importPath testFiles
  | readme_go => Doc.main oBenchmem importPath testFiles
  end.

(** *** What a run of the loop body prints *)

(** The ns/op value as printed: [s] without its last three bytes when its
    point is past index 2. *)
Definition ns_per_op_shown (s : bytes) : bytes :=
  if 2 <? IndexByte s "."%byte then firstn (length s - 3) s else s.

(** The line of a parsed benchmark. *)
Definition benchmark_text (width : Z) (b : Benchmark float64) : bytes :=
  GoFmt.Sprintf_star_s (- (width + 4)) (Name b)
  ++ GoFmt.pad_number 15 (GoFmt.itoa (N b))
  ++ (if Doc.measured b parse.NsPerOp
      then GoFmt.pad_left 15 (ns_per_op_shown (FormatFloat2 (NsPerOp b))) ++ B " ns/op"
      else [])
  ++ (if Doc.measured b parse.MBPerS
      then GoFmt.pad_left 15 (FormatFloat2 (MBPerS b)) ++ B " MB/s"
      else [])
  ++ (if Doc.measured b parse.AllocedBytesPerOp
      then GoFmt.pad_number 15 (GoFmt.itoa (AllocedBytesPerOp b)) ++ B " B/op"
      else [])
  ++ (if Doc.measured b parse.AllocsPerOp
      then GoFmt.pad_number 15 (GoFmt.itoa (AllocsPerOp b)) ++ B " allocs/op"
      else [])
  ++ [newline].

(** The line printed for the result line [a0]. *)
Definition line_text (P : program) (width : Z) (a0 : bytes) : bytes :=
  match P with
  | main_go => a0 ++ [newline]
  | readme_go =>
    match ParseLine a0 with
    | None => a0 ++ [newline]
    | Some b => benchmark_text width b
    end
  end.

(** *** The output of one run of [go test], in the words of the
    specification *)

(** The text of the trailer after [ok], the path and the two tabs. *)
Definition trailer_text (importPath out : bytes) : bytes :=
  skipn (length (trailer_prefix importPath)) (nth_line (Split out newline) 2).

(** The duration the trailer of [out] reports, if it has one. *)
Definition trailer_duration (importPath out : bytes) : option Z :=
  GoTime.ParseDuration (trailer_text importPath out).

(** The conditions under which a run counts as failed: an error from the
    command, fewer than three lines, a first line that does not start with
    the identifier, a second line other than [PASS], a third line that does
    not start with the prefix of the trailer, a duration that does not
    parse. *)
Definition rejected (importPath v out : bytes) (err : option bytes) : Prop :=
  let a := Split out newline in
  err <> None
  \/ len_lines a < 3
  \/ HasPrefix (nth_line a 0) v = false
  \/ nth_line a 1 <> B "PASS"
  \/ HasPrefix (nth_line a 2) (trailer_prefix importPath) = false
  \/ trailer_duration importPath out = None.

(** The opposite: a run whose output has the expected shape, with the
    duration [d] in its trailer. *)
Definition accepted (importPath v out : bytes) (err : option bytes) (d : Z) : Prop :=
  let a := Split out newline in
  err = None
  /\ 3 <= len_lines a
  /\ HasPrefix (nth_line a 0) v = true
  /\ nth_line a 1 = B "PASS"
  /\ HasPrefix (nth_line a 2) (trailer_prefix importPath) = true
  /\ trailer_duration importPath out = Some d.

(** The first line of the output: the result line. *)
Definition result_line (out : bytes) : bytes := nth_line (Split out newline) 0.

(** The durations of the runs of a history, those without one left out. *)
Fixpoint durations (importPath : bytes) (history : list call) : list Z :=
  match history with
  | [] => []
  | (_, (out, _)) :: rest =>
    match trailer_duration importPath out with
    | Some d => d :: durations importPath rest
    | None => durations importPath rest
    end
  end.

(** The exact sum of a list of durations. *)
Definition sum (ds : list Z) : Z := fold_right Z.add 0 ds.

End Programs.

(** ** A sample of the outside, to run the programs on

    The [go] tool is a script of the outputs still to come.  A [float64] is
    a count of hundredths; [parse.ParseLine] is the parser of the x/tools
    package on lines of ASCII whose measurements are decimal numbers with at
    most two decimals. *)

Module Sample.
Import GoBytes GoTime.

Definition world : Type := list (bytes * option bytes).

Definition combined_output (w : world) (args : list bytes)
  : world * (bytes * option bytes) :=
  match w with
  | [] => ([], ([], Some (B "exit status 1")))
  | r :: w' => (w', r)
  end.

(** [strings.Fields] on ASCII: the pieces between runs of blanks. *)
Fixpoint fields (cur : bytes) (s : bytes) : list bytes :=
  let flush (rest : list bytes) :=
    match cur with [] => rest | _ :: _ => rev cur :: rest end in
  match s with
  | [] => flush []
  | c :: s' =>
    if Byte.eqb c space || Byte.eqb c tab || Byte.eqb c newline || Byte.eqb c x0d
    then flush (fields [] s')
    else fields (c :: cur) s'
  end.

(** A run of digits as a number; [None] on anything else. *)
Fixpoint digits (x : Z) (s : bytes) : option Z :=
  match s with
  | [] => Some x
  | c :: s' =>
    if is_digit c then digits (x * 10 + Z.of_N (Byte.to_N c) - 48) s' else None
  end.

Definition unsigned (s : bytes) : option Z :=
  match s with
  | [] => None
  | _ :: _ => digits 0 s
  end.

(** [strconv.Atoi] *)
Definition atoi (s : bytes) : option Z :=
  match s with
  | c :: s' =>
    if Byte.eqb c "-"%byte then option_map Z.opp (unsigned s')
    else if Byte.eqb c "+"%byte then unsigned s'
    else unsigned s
  | [] => None
  end.

(** A decimal number with at most two decimals, in hundredths. *)
Definition hundredths (s : bytes) : option Z :=
  let '(neg, s1) :=
    match s with
    | c :: s' => if Byte.eqb c "-"%byte then (true, s') else (false, s)
    | [] => (false, s)
    end in
  let whole := Scanner.text_before "."%byte s1 in
  let frac := skipn (S (length whole)) s1 in
  match unsigned whole, frac with
  | Some w, [] => Some ((if neg then -1 else 1) * (w * 100))
  | Some w, [d1] =>
    if is_digit d1
    then Some ((if neg then -1 else 1) * (w * 100 + (Z.of_N (Byte.to_N d1) - 48) * 10))
    else None
  | Some w, [d1; d2] =>
    match digits 0 [d1; d2] with
    | Some f => Some ((if neg then -1 else 1) * (w * 100 + f))
    | None => None
    end
  | _, _ => None
  end.

(** [fmt.Sprintf("%.2f", x)] for [x] hundredths. *)
Definition format_hundredths (x : Z) : bytes :=
  (if x <? 0 then B "-" else [])
  ++ GoFmt.itoa (Z.abs x / 100)
  ++ ["."%byte; digit (Z.abs x mod 100 / 10); digit (Z.abs x mod 10)].

(** [Benchmark.parseMeasurement] *)
Definition parseMeasurement (b : Benchmark Z) (quant unit : bytes) : Benchmark Z :=
  if Equal unit (B "ns/op") then
    match hundredths quant with
    | Some f =>
        {| Name := Name b; N := N b; NsPerOp := f;
           AllocedBytesPerOp := AllocedBytesPerOp b; AllocsPerOp := AllocsPerOp b;
           MBPerS := MBPerS b; Measured := Z.lor (Measured b) parse.NsPerOp;
           Ord := Ord b |}
    | None => b
    end
  else if Equal unit (B "MB/s") then
    match hundredths quant with
    | Some f =>
        {| Name := Name b; N := N b; NsPerOp := NsPerOp b;
           AllocedBytesPerOp := AllocedBytesPerOp b; AllocsPerOp := AllocsPerOp b;
           MBPerS := f; Measured := Z.lor (Measured b) parse.MBPerS;
           Ord := Ord b |}
    | None => b
    end
  else if Equal unit (B "B/op") then
    match unsigned quant with
    | Some i =>
        {| Name := Name b; N := N b; NsPerOp := NsPerOp b;
           AllocedBytesPerOp := i; AllocsPerOp := AllocsPerOp b;
           MBPerS := MBPerS b; Measured := Z.lor (Measured b) parse.AllocedBytesPerOp;
           Ord := Ord b |}
    | None => b
    end
  else if Equal unit (B "allocs/op") then
    match unsigned quant with
    | Some i =>
        {| Name := Name b; N := N b; NsPerOp := NsPerOp b;
           AllocedBytesPerOp := AllocedBytesPerOp b; AllocsPerOp := i;
           MBPerS := MBPerS b; Measured := Z.lor (Measured b) parse.AllocsPerOp;
           Ord := Ord b |}
    | None => b
    end
  else b.

(** The pairs of fields after the first pair, a quantity and its unit. *)
Fixpoint parseMeasurements (b : Benchmark Z) (fs : list bytes) : Benchmark Z :=
  match fs with
  | quant :: unit :: fs' => parseMeasurements (parseMeasurement b quant unit) fs'
  | _ => b
  end.

(** [parse.ParseLine] *)
Definition parse_line (line : bytes) : option (Benchmark Z) :=
  match fields [] line with
  | name :: iterations :: fs =>
    if negb (HasPrefix name (B "Benchmark")) then None
    else
      match atoi iterations with
      | None => None
      | Some n =>
          Some (parseMeasurements
                  {| Name := name; N := n; NsPerOp := 0;
                     AllocedBytesPerOp := 0; AllocsPerOp := 0;
                     MBPerS := 0; Measured := 0; Ord := 0 |} fs)
      end
  | _ => None
  end.

#[export] Instance externals : Externals := {|
  World := world;
  CombinedOutput := combined_output;
  float64 := Z;
  ParseLine := parse_line;
  FormatFloat2 := format_hundredths;
  RuneCount := len
|}.

(** The process at its start in the world [w]. *)
Definition process (w : world) : proc := start (X := externals) w.

(** What [go test] prints for one benchmark: the result line, [PASS] and
    the trailer. *)
Definition go_test_output (line importPath duration : bytes) : bytes :=
  line ++ [newline] ++ B "PASS" ++ [newline]
  ++ B "ok  " ++ [tab] ++ importPath ++ [tab] ++ duration ++ [newline].

Definition bench_path : bytes := B "github.com/cznic/bench".

(** The two runs of the comment of main.go 146-155. *)
Definition two_runs : world :=
  [ (go_test_output (B "Benchmark1-4   " ++ [tab] ++ B "    2000" ++ [tab] ++ B "   1068291 ns/op")
                    bench_path (B "2.250s"), None);
    (go_test_output (B "Benchmark2-4   " ++ [tab] ++ B "     100" ++ [tab] ++ B "  10067251 ns/op")
                    bench_path (B "1.021s"), None) ].

(** Two runs, the result line of the second not one [parse.ParseLine]
    accepts. *)
Definition garbled_runs : world :=
  [ (go_test_output (B "Benchmark1-4   " ++ [tab] ++ B "    2000" ++ [tab] ++ B "   1068291 ns/op")
                    bench_path (B "2.250s"), None);
    (go_test_output (B "Benchmark2-4 no result") bench_path (B "1.021s"), None) ].

(** Two runs that report two million hours each. *)
Definition long_runs : world :=
  [ (go_test_output (B "Benchmark1-4 1 7200000000000000000 ns/op")
                    bench_path (B "2000000h"), None);
    (go_test_output (B "Benchmark2-4 1 7200000000000000000 ns/op")
                    bench_path (B "2000000h"), None) ].

(** One run; a second run of [go] fails. *)
Definition one_run : world :=
  [ (go_test_output (B "Benchmark1-4   " ++ [tab] ++ B "    2000" ++ [tab] ++ B "   1068291 ns/op")
                    bench_path (B "2.250s"), None) ].


(** A test file with two benchmarks. *)
Definition two_benchmarks : bytes :=
  B "package bench" ++ [newline] ++ [newline]
  ++ B "func Benchmark1(b *testing.B) {" ++ [newline] ++ B "}" ++ [newline] ++ [newline]
  ++ B "func Benchmark2(b *testing.B) {" ++ [newline] ++ B "}" ++ [newline].

End Sample.

(** * More of the programs *)

(** ** More of binary64: sums and the integer part *)

Module Float.
Import F64.

(** [a + b] *)
Definition add (a b : t) : t :=
  match a, b with
  | Fin ma ea, Fin mb eb =>
    let e := Z.min ea eb in
    let '(n, d) := scaled (ma * 2 ^ (ea - e) + mb * 2 ^ (eb - e)) 1 (- e) in
    round n d
  | _, _ => Inf
  end.

(** [a * b + c] rounded once, as a compiler may fuse it. *)
Definition fma (a b c : t) : t :=
  match a, b, c with
  | Fin ma ea, Fin mb eb, Fin mc ec =>
    let e := Z.min (ea + eb) ec in
    let '(n, d) :=
      scaled (ma * mb * 2 ^ (ea + eb - e) + mc * 2 ^ (ec - e)) 1 (- e) in
    round n d
  | _, _, _ => Inf
  end.

(** The integer part of a finite value. *)
Definition trunc (a : t) : option Z :=
  match a with
  | Fin m e => Some (if 0 <=? e then m * 2 ^ e else m / 2 ^ (- e))
  | Inf => None
  end.

(** The constants [10] and [.5]. *)
Definition ten : t := of_Z 10.
Definition half : t := Fin 1 (-1).

End Float.

(** ** Package strconv: [ParseFloat] on digits and points *)

Module GoStrconv.
Import GoTime.

(** The digits at the front of [s]: their value after [x], how many they
    are, and the rest of [s]. *)
Fixpoint digits (x : Z) (s : bytes) : Z * Z * bytes :=
  match s with
  | c :: s' =>
    if is_digit c
    then let '(v, n, rest) := digits (x * 10 + (Z.of_N (Byte.to_N c) - 48)) s' in
         (v, n + 1, rest)
    else (x, 0, s)
  | [] => (x, 0, [])
  end.

(** The value nearest to [n / d]; a value out of range is an error. *)
Definition nearest (n d : Z) : option F64.t :=
  match F64.round n d with
  | F64.Inf => None
  | x => Some x
  end.

(** [strconv.ParseFloat(s, 64)] for a text [s] of digits and points, as
    [defaultTags] calls it: digits, at most one point among them, at least
    one digit; [None] is the error (of syntax, or of range). *)
Definition ParseFloat (s : bytes) : option F64.t :=
  let '(m1, n1, r1) := digits 0 s in
  match r1 with
  | [] => if n1 =? 0 then None else nearest m1 1
  | c :: r2 =>
    if Byte.eqb c "."%byte then
      let '(m2, n2, r3) := digits m1 r2 in
      match r3 with
      | [] => if n1 + n2 =? 0 then None else nearest m2 (10 ^ n2)
      | _ :: _ => None
      end
    else None
  end.

End GoStrconv.

(** ** [defaultTags] (main.go 35-67, README.md 97-129)

    Two things are left to the platform by the language: whether
    [10*n+.5] is rounded twice or fused and rounded once, and what the
    conversion to [int] makes of a value that an [int] of 32 bits cannot
    hold (on a platform of 64 bits the integer part, as long as that is
    below 2^63). *)

Section DefaultTags.
Variable fused : bool.
Variable int_of_large : F64.t -> Z.
Import GoBytes.

(** [c >= '0' && c <= '9' || c == '.'] *)
Definition numeric (c : byte) : bool := GoTime.is_digit c || Byte.eqb c "."%byte.

(** The loop [outer]: the index [i] of the first byte of [v] that is
    neither a digit nor a point. *)
Fixpoint outer (v : bytes) : Z :=
  match v with
  | c :: v' => if numeric c then 1 + outer v' else 0
  | [] => 0
  end.

(** [10*n+.5] *)
Definition ten_n_and_half (n : F64.t) : F64.t :=
  if fused then Float.fma Float.ten n Float.half
  else Float.add (F64.mul Float.ten n) Float.half.

(** [int(x)] *)
Definition int (x : F64.t) : Z :=
  match Float.trunc x with
  | Some z => if z <? 2 ^ 31 then z else int_of_large x
  | None => int_of_large x
  end.

(** [for i := 1; i <= last; i++ { tags = append(tags, "go1.<i>") }] *)
Definition tags_to (last : Z) : list bytes :=
  map (fun i => B "go1." ++ GoFmt.itoa (Z.of_nat i)) (seq 1 (Z.to_nat last)).

(** [defaultTags] for the text [v] of [runtime.Version()]. *)
Definition defaultTags (v : bytes) : res (list bytes) :=
  if negb (HasPrefix v (B "go")) then Stop Panic
  else
    res_bind (checked (slice_from v (len (B "go")))) (fun v =>
    let i := outer v in
    res_bind (checked (slice_to v i)) (fun v =>
    if Equal v [] then Stop Panic
    else
      match GoStrconv.ParseFloat v with
      | None => Stop Panic
      | Some n => Ok (tags_to (Z.rem (int (ten_n_and_half n)) 10))
      end)).

End DefaultTags.


(** *** Versions, in words *)

(** The number of a version: its bytes before the first that is neither a
    digit nor a point. *)
Fixpoint number (v : bytes) : bytes :=
  match v with
  | c :: v' => if numeric c then c :: number v' else []
  | [] => []
  end.

(** What may follow the number of a version: nothing, or a byte that is
    neither a digit nor a point. *)
Definition after_number (rest : bytes) : bool :=
  match rest with
  | [] => true
  | c :: _ => negb (numeric c)
  end.

(** The values of the decimal digits. *)
Definition digit_values : list Z := [0; 1; 2; 3; 4; 5; 6; 7; 8; 9].

(** The tags of the releases of Go 1, in order. *)
Definition go1_tags : list bytes :=
  [B "go1.1"; B "go1.2"; B "go1.3"; B "go1.4"; B "go1.5"; B "go1.6"; B "go1.7";
   B "go1.8"; B "go1.9"].

Module Amd64.
(** A platform of 64 bits, as amd64: the conversion of a value that does
    not fit gives the least [int]. *)
Definition int_of_large (x : F64.t) : Z :=
  match Float.trunc x with
  | Some z => if z <? 2 ^ 63 then z else - 2 ^ 63
  | None => - 2 ^ 63
  end.
End Amd64.

(** ** The identifiers of the scanner, in words *)

(** A name that begins with [Benchmark] and holds neither an opening
    parenthesis nor a newline. *)
Definition benchmark_name (v : bytes) : Prop :=
  GoBytes.HasPrefix v (B "Benchmark") = true
  /\ ~ In Scanner.lparen v
  /\ ~ In newline v.

(** ** The start of [main] (main.go 69-113, README.md 131-177)

    What [main] asks of the machine it runs on.  [flag.Parse] has returned:
    the command line is one it accepts. *)

Record Host : Type := {
  (** the error of [exec.LookPath("go")], if any *)
  LookPath : option bytes;
  (** [*oBenchmem] and [flag.Args()] after [flag.Parse()] *)
  Benchmem : bool;
  Args : list bytes;
  (** [os.Getwd()]: the directory, or the text of the error *)
  Getwd : bytes + bytes;
  (** [os.Getenv("GOPATH")] *)
  GOPATH : bytes;
  (** [filepath.Join(v, "src")] *)
  Join_src : bytes -> bytes;
  (** [filepath.Rel]; [None] is an error *)
  Rel : bytes -> bytes -> option bytes;
  (** [runtime.Version()] *)
  Version : bytes;
  (** whether [10*n+.5] is fused, and [int] of a large value *)
  fuses : bool;
  int_of_large_value : F64.t -> Z;
  (** [gc.NewContext(runtime.GOOS, runtime.GOARCH, runtime.GOROOT(), gopaths, tags)]:
      the context, or the text of the error *)
  Context : Type;
  NewContext : list bytes -> list bytes -> Context + bytes;
  (** the test files of [ctx.FilesFromImportPath(importPath)], or the text
      of the error *)
  FilesFromImportPath : Context -> bytes -> list bytes + bytes;
  (** [ioutil.ReadFile] *)
  ReadFile : bytes -> bytes + bytes
}.

Module GoFilepath.

Definition ListSeparator : byte := ":"%byte.

(** [filepath.SplitList] on Unix *)
Definition SplitList (path : bytes) : list bytes :=
  match path with
  | [] => []
  | _ :: _ => GoBytes.Split path ListSeparator
  end.

End GoFilepath.

Section Command.
Context {X : Externals}.
Variable host : Host.
Local Open Scope proc_scope.

(** The loop over [gopaths] (main.go 88-94, README.md 148-153), from
    [importPath] before it: the path of [wd] relative to the first entry for
    which [filepath.Rel] has no error; an entry with an error leaves
    [importPath] empty. *)
Fixpoint import_path_loop (importPath : bytes) (gopaths : list bytes) (wd : bytes)
  : bytes :=
  match gopaths with
  | [] => importPath
  | v :: rest =>
    match Rel host (Join_src host v) wd with
    | Some r => r
    | None => import_path_loop [] rest wd
    end
  end.

Definition cannot_determine : bytes :=
  B "Cannot determine import path of the current directory.".

(** The import path of the working directory (main.go 81-97,
    README.md 143-156). *)
Definition import_path_of_wd (gopaths : list bytes) : M bytes :=
  match Getwd host with
  | inr err => log_Fatal err
  | inl wd =>
    let importPath := import_path_loop [] gopaths wd in
    if GoBytes.Equal importPath [] then log_Fatal cannot_determine
    else ret importPath
  end.

(** [flag.NArg()], [flag.Arg(i)] *)
Definition NArg : Z := Z.of_nat (length (Args host)).
Definition Arg (i : nat) : bytes := nth i (Args host) [].

(** [importPath] in main.go (76-97). *)
Definition Main_import_path (gopaths : list bytes) : M bytes :=
  if negb (NArg =? 0) then log_Fatal (B "No non-flag arguments are supported")
  else import_path_of_wd gopaths.

(** [importPath] in README.md (139-161). *)
Definition Doc_import_path (gopaths : list bytes) : M bytes :=
  if (NArg =? 0) || ((NArg =? 1) && GoBytes.Equal (Arg 0) (B "."))
  then import_path_of_wd gopaths
  else if NArg =? 1 then ret (Arg 0)
  else log_Fatal (B "At most one import path is supported.").

Definition import_path (P : program) (gopaths : list bytes) : M bytes :=
  match P with
  | main_go => Main_import_path gopaths
  | readme_go => Doc_import_path gopaths
  end.

(** The test files of the package (main.go 99-113, README.md 163-177):
    the arguments of [gc.NewContext] are computed first, [defaultTags()]
    among them. *)
Definition test_files (gopaths : list bytes) (importPath : bytes) : M (list bytes) :=
  tags <- lift (defaultTags (fuses host) (int_of_large_value host) (Version host)) ;;
  match NewContext host gopaths tags with
  | inr err => log_Fatal err
  | inl ctx =>
    match FilesFromImportPath host ctx importPath with
    | inr err => log_Fatal err
    | inl testFiles => ret testFiles
    end
  end.

(** [main], whole. *)
Definition command (P : program) : M unit :=
  match LookPath host with
  | Some err => log_Fatal (B "Cannot find the go tool: " ++ err)
  | None =>
    let gopaths := GoFilepath.SplitList (GOPATH host) in
    importPath <- import_path P gopaths ;;
    testFiles <- test_files gopaths importPath ;;
    main P (Benchmem host) importPath (map (ReadFile host) testFiles)
  end.

End Command.

(** *** A sample host *)

Module SampleHost.

(** [filepath.Rel] for a directory below the base, the one case the sample
    meets (it answers any other pair with an error). *)
Definition rel (base targ : bytes) : option bytes :=
  if GoBytes.HasPrefix targ (base ++ B "/")
  then Some (skipn (length (base ++ B "/")) targ)
  else None.

(** A machine with the [go] tool, a program built by Go [version], the
    working directory of the repository and one test file. *)
Definition host (version gopath : bytes) (args : list bytes) : Host := {|
  LookPath := None;
  Benchmem := false;
  Args := args;
  Getwd := inl (B "/home/u/src/github.com/cznic/bench");
  GOPATH := gopath;
  Join_src := fun v => v ++ B "/src";
  Rel := rel;
  Version := version;
  fuses := false;
  int_of_large_value := Amd64.int_of_large;
  Context := unit;
  NewContext := fun _ _ => inl tt;
  FilesFromImportPath := fun _ _ => inl [B "all_test.go"];
  ReadFile := fun _ => inl Sample.two_benchmarks
|}.

End SampleHost.

(** * Properties *)

(** ** Bytes *)

Lemma byte_eqb_eq (x y : byte) : Byte.eqb x y = true <-> x = y.
Proof.
  split; [apply Byte.byte_dec_bl | apply Byte.byte_dec_lb].
Qed.

Lemma byte_eqb_refl (x : byte) : Byte.eqb x x = true.
Proof. now apply byte_eqb_eq. Qed.

Lemma byte_eqb_neq (x y : byte) : Byte.eqb x y = false <-> x <> y.
Proof.
  rewrite <- byte_eqb_eq. destruct (Byte.eqb x y); intuition congruence.
Qed.

Lemma len_nonneg (s : bytes) : 0 <= len s.
Proof. unfold len. lia. Qed.

Lemma len_app (s r : bytes) : len (s ++ r) = len s + len r.
Proof. unfold len. rewrite length_app. lia. Qed.

Lemma len_cons (c : byte) (s : bytes) : len (c :: s) = len s + 1.
Proof. unfold len. cbn [length]. lia. Qed.

Module GoBytesFacts.
Import GoBytes.

Lemma Equal_eq (a b : bytes) : Equal a b = true <-> a = b.
Proof.
  revert b. induction a as [|x a IH]; intros [|y b]; cbn; try easy.
  rewrite andb_true_iff, byte_eqb_eq, IH. split.
  - now intros [-> ->].
  - intros [= -> ->]. now split.
Qed.

Lemma Equal_refl (a : bytes) : Equal a a = true.
Proof. now apply Equal_eq. Qed.

Lemma HasPrefix_app (p r : bytes) : HasPrefix (p ++ r) p = true.
Proof.
  induction p as [|c p IH]; cbn; [easy|]. now rewrite byte_eqb_refl.
Qed.

Lemma HasPrefix_inv (s p : bytes) :
  HasPrefix s p = true -> s = p ++ skipn (length p) s.
Proof.
  revert s. induction p as [|c p IH]; intros s H; [easy|].
  destruct s as [|x s]; cbn in H; [easy|].
  apply andb_true_iff in H as [Hx Hs]. apply byte_eqb_eq in Hx. subst x.
  cbn. f_equal. now apply IH.
Qed.

Lemma IndexByte_range (s : bytes) (c : byte) : -1 <= IndexByte s c < len s.
Proof.
  induction s as [|x s IH]; cbn [IndexByte].
  - unfold len. cbn. lia.
  - rewrite len_cons. destruct (Byte.eqb x c); [pose proof (len_nonneg s); lia|].
    destruct (Z.ltb_spec (IndexByte s c) 0); lia.
Qed.

(** Without an occurrence the index is -1. *)
Lemma IndexByte_absent (s : bytes) (c : byte) :
  ~ In c s -> IndexByte s c = -1.
Proof.
  induction s as [|x s IH]; cbn [IndexByte]; intros H; [easy|].
  destruct (Byte.eqb x c) eqn:E.
  - apply byte_eqb_eq in E. subst. exfalso. apply H. now left.
  - rewrite IH by (intros ?; apply H; now right). reflexivity.
Qed.

(** The index of the first occurrence splits the bytes around it. *)
Lemma IndexByte_first (pre post : bytes) (c : byte) :
  ~ In c pre -> IndexByte (pre ++ c :: post) c = len pre.
Proof.
  induction pre as [|x pre IH]; intros H; cbn [app IndexByte].
  - now rewrite byte_eqb_refl.
  - destruct (Byte.eqb x c) eqn:E.
    + apply byte_eqb_eq in E. subst. exfalso. apply H. now left.
    + rewrite IH by (intros ?; apply H; now right).
      rewrite len_cons. pose proof (len_nonneg pre).
      destruct (Z.ltb_spec (len pre) 0); lia.
Qed.

Lemma slice_from_prefix (p r : bytes) : slice_from (p ++ r) (len p) = Some r.
Proof.
  unfold slice_from. rewrite len_app.
  pose proof (len_nonneg p). pose proof (len_nonneg r).
  destruct (Z.leb_spec 0 (len p)); [|lia].
  destruct (Z.leb_spec (len p) (len p + len r)); [|lia].
  cbn. unfold len. rewrite Nat2Z.id, skipn_app, skipn_all, Nat.sub_diag. reflexivity.
Qed.

Lemma slice_to_prefix (p r : bytes) : slice_to (p ++ r) (len p) = Some p.
Proof.
  unfold slice_to. rewrite len_app.
  pose proof (len_nonneg p). pose proof (len_nonneg r).
  destruct (Z.leb_spec 0 (len p)); [|lia].
  destruct (Z.leb_spec (len p) (len p + len r)); [|lia].
  cbn. unfold len. rewrite Nat2Z.id, firstn_app, firstn_all, Nat.sub_diag.
  cbn. now rewrite app_nil_r.
Qed.

Lemma slice_to_negative (s : bytes) (hi : Z) : hi < 0 -> slice_to s hi = None.
Proof.
  intros H. unfold slice_to. destruct (Z.leb_spec 0 hi); [lia|reflexivity].
Qed.

End GoBytesFacts.

(** ** The scanner *)

Module ScannerFacts.
Import GoBytes GoBytesFacts Scanner.

Lemma text_before_notin (c : byte) (s : bytes) : ~ In c (text_before c s).
Proof.
  induction s as [|x s IH]; cbn; [easy|].
  destruct (Byte.eqb x c) eqn:E; [easy|].
  apply byte_eqb_neq in E. cbn. intuition.
Qed.

Lemma text_before_split (c : byte) (s : bytes) :
  In c s -> exists post, s = text_before c s ++ c :: post.
Proof.
  induction s as [|x s IH]; cbn; [easy|]. intros H.
  destruct (Byte.eqb x c) eqn:E.
  - apply byte_eqb_eq in E. subst. now exists s.
  - destruct H as [->|H]; [now rewrite byte_eqb_refl in E|].
    destruct (IH H) as [post Hp]. exists post. cbn. now f_equal.
Qed.

(** A declaring line is [func ] and then the rest, where the parenthesis
    must be. *)
Lemma declaring_line (v : bytes) :
  declares_benchmark v = true ->
  v = B "func " ++ skipn 5 v /\ (In lparen v <-> In lparen (skipn 5 v)).
Proof.
  intros H. apply HasPrefix_inv in H.
  set (r := skipn (length (B "func Benchmark")) v) in H.
  rewrite H. cbn [skipn B list_byte_of_string app]. split; [reflexivity|].
  cbn. unfold lparen. intuition congruence.
Qed.

(** On a declaring line with a parenthesis the loop appends the declared
    name. *)
Lemma scan_line_declaring (bench : list bytes) (v : bytes) :
  declares_benchmark v = true -> In lparen v ->
  scan_line bench v = Ok (bench ++ [declared_name v]).
Proof.
  intros D P. destruct (declaring_line v D) as [Hv Hp].
  apply Hp in P. unfold scan_line, declared_name.
  unfold declares_benchmark in D. rewrite D. cbn [negb].
  rewrite Hv at 1. rewrite slice_from_prefix. cbn [checked res_bind].
  destruct (text_before_split lparen _ P) as [post Hs].
  rewrite Hs at 1 2.
  rewrite IndexByte_first by apply text_before_notin.
  rewrite slice_to_prefix. reflexivity.
Qed.

(** On a declaring line without a parenthesis the index is -1 and the
    slice expression panics. *)
Lemma scan_line_undelimited (bench : list bytes) (v : bytes) :
  declares_benchmark v = true -> ~ In lparen v ->
  IndexByte (skipn 5 v) lparen = -1 /\ scan_line bench v = Stop Panic.
Proof.
  intros D P. destruct (declaring_line v D) as [Hv Hp].
  assert (I : IndexByte (skipn 5 v) lparen = -1)
    by (apply IndexByte_absent; tauto).
  split; [exact I|]. unfold scan_line.
  unfold declares_benchmark in D. rewrite D. cbn [negb].
  rewrite Hv at 1. rewrite slice_from_prefix. cbn [checked res_bind].
  rewrite I, slice_to_negative by lia. reflexivity.
Qed.

Lemma scan_line_other (bench : list bytes) (v : bytes) :
  declares_benchmark v = false -> scan_line bench v = Ok bench.
Proof.
  intros D. unfold scan_line. unfold declares_benchmark in D. now rewrite D.
Qed.

Lemma existsb_In (c : byte) (s : bytes) : existsb (Byte.eqb c) s = true <-> In c s.
Proof.
  rewrite existsb_exists. split.
  - intros [x [Hx E]]. apply byte_eqb_eq in E. now subst.
  - intros H. exists c. split; [easy | apply byte_eqb_refl].
Qed.

Lemma delimited_iff (line : bytes) :
  delimited line = true <-> (declares_benchmark line = true -> In lparen line).
Proof.
  unfold delimited. rewrite orb_true_iff, negb_true_iff, existsb_In.
  destruct (declares_benchmark line); intuition congruence.
Qed.

Lemma undelimited_iff (line : bytes) :
  delimited line = false <-> declares_benchmark line = true /\ ~ In lparen line.
Proof.
  unfold delimited. rewrite orb_false_iff, negb_false_iff, <- existsb_In.
  destruct (existsb (Byte.eqb lparen) line); intuition congruence.
Qed.

Lemma scan_lines_delimited (a : list bytes) (bench : list bytes) :
  forallb delimited a = true ->
  scan_lines bench a = Ok (bench ++ map declared_name (filter declares_benchmark a)).
Proof.
  revert bench. induction a as [|v a IH]; intros bench H; cbn [scan_lines].
  - cbn. now rewrite app_nil_r.
  - cbn [forallb] in H. apply andb_true_iff in H as [Hv Ha].
    cbn [filter]. destruct (declares_benchmark v) eqn:D.
    + rewrite scan_line_declaring by (try apply delimited_iff; assumption).
      cbn [res_bind]. rewrite IH by assumption.
      cbn [map]. now rewrite <- app_assoc.
    + rewrite scan_line_other by assumption. cbn [res_bind]. now apply IH.
Qed.

Lemma scan_lines_undelimited (a : list bytes) (bench : list bytes) :
  forallb delimited a = false -> scan_lines bench a = Stop Panic.
Proof.
  revert bench. induction a as [|v a IH]; intros bench H; cbn [scan_lines];
    [discriminate|].
  cbn [forallb] in H. destruct (delimited v) eqn:Dv.
  - cbn [andb] in H. destruct (declares_benchmark v) eqn:D.
    + rewrite scan_line_declaring by (try apply delimited_iff; assumption).
      cbn [res_bind]. now apply IH.
    + rewrite scan_line_other by assumption. cbn [res_bind]. now apply IH.
  - apply undelimited_iff in Dv as [D P].
    destruct (scan_line_undelimited bench v D P) as [_ ->]. reflexivity.
Qed.

Lemma all_delimited_iff (sources : list bytes) :
  all_delimited sources = true <-> well_delimited sources.
Proof.
  unfold all_delimited, well_delimited. rewrite forallb_forall. split.
  - intros H src line Hs Hl. specialize (H src Hs).
    rewrite forallb_forall in H. now apply delimited_iff, H.
  - intros H src Hs. apply forallb_forall. intros line Hl.
    apply delimited_iff. intros D. now apply (H src line).
Qed.

Lemma not_all_delimited_iff (sources : list bytes) :
  all_delimited sources = false <->
  exists src line,
    In src sources /\ In line (lines src) /\
    declares_benchmark line = true /\ ~ In lparen line.
Proof.
  unfold all_delimited. split.
  - intros H.
    assert (E : existsb (fun src => negb (forallb delimited (lines src))) sources = true).
    { clear -H. induction sources as [|s ss IH]; cbn in *; [discriminate|].
      destruct (forallb delimited (lines s)); cbn in *; auto. }
    apply existsb_exists in E as [src [Hs Hn]]. apply negb_true_iff in Hn.
    assert (E : existsb (fun l => negb (delimited l)) (lines src) = true).
    { clear -Hn. induction (lines src) as [|l ls IH]; cbn in *; [discriminate|].
      destruct (delimited l); cbn in *; auto. }
    apply existsb_exists in E as [line [Hl Hd]]. apply negb_true_iff in Hd.
    apply undelimited_iff in Hd. now exists src, line.
  - intros (src & line & Hs & Hl & D & P).
    destruct (forallb _ sources) eqn:E; [|reflexivity].
    rewrite forallb_forall in E. specialize (E src Hs).
    rewrite forallb_forall in E. specialize (E line Hl).
    exfalso. apply P. exact (proj1 (delimited_iff line) E D).
Qed.

Lemma scan_files_delimited (sources : list bytes) (bench : list bytes) :
  all_delimited sources = true ->
  scan_files bench (map inl sources) = Ok (bench ++ declared_names sources).
Proof.
  revert bench. induction sources as [|src sources IH]; intros bench H;
    cbn [map scan_files].
  - cbn. now rewrite app_nil_r.
  - cbn in H. apply andb_true_iff in H as [Hs Hr].
    cbn [scan_file]. rewrite scan_lines_delimited by exact Hs.
    cbn [res_bind]. rewrite IH by exact Hr.
    unfold declared_names. cbn [flat_map]. now rewrite <- app_assoc.
Qed.

Lemma scan_files_undelimited (sources : list bytes) (bench : list bytes) :
  all_delimited sources = false ->
  scan_files bench (map inl sources) = Stop Panic.
Proof.
  revert bench. induction sources as [|src sources IH]; intros bench H;
    cbn [map scan_files]; [discriminate|].
  cbn in H. cbn [scan_file].
  destruct (forallb delimited (lines src)) eqn:Hs.
  - rewrite scan_lines_delimited by exact Hs. cbn [res_bind]. now apply IH.
  - now rewrite scan_lines_undelimited by exact Hs.
Qed.

End ScannerFacts.

(** ** The process *)

Section ProcessFacts.
Context {X : Externals}.
Import GoBytes GoBytesFacts.
Local Open Scope proc_scope.

Lemma bind_run {A C : Type} (c : M A) (k : A -> M C) (p : proc) :
  bind c k p
  = match c p with
    | (p', Ok a) => k a p'
    | (p', Stop e) => (p', Stop e)
    end.
Proof. reflexivity. Qed.

Lemma printed_printed (p : proc) (s r : bytes) :
  printed (printed p s) r = printed p (s ++ r).
Proof. unfold printed. cbn. now rewrite app_assoc. Qed.

(** *** The check of the output *)

Lemma slice_from_HasPrefix (s pre : bytes) :
  HasPrefix s pre = true -> slice_from s (len pre) = Some (skipn (length pre) s).
Proof.
  intros H. apply HasPrefix_inv in H. rewrite H at 1. apply slice_from_prefix.
Qed.

Lemma rejected_or_accepted (importPath v out : bytes) (err : option bytes) :
  rejected importPath v out err \/ exists d, accepted importPath v out err d.
Proof.
  unfold rejected, accepted. cbv zeta.
  destruct err as [e|]; [left; left; easy|].
  destruct (Z.ltb_spec (len_lines (Split out newline)) 3); [tauto|].
  destruct (HasPrefix (nth_line (Split out newline) 0) v); [|tauto].
  destruct (Equal (nth_line (Split out newline) 1) (B "PASS")) eqn:E1.
  2:{ left. do 3 right. left. intros E. apply Equal_eq in E. congruence. }
  apply Equal_eq in E1.
  destruct (HasPrefix (nth_line (Split out newline) 2) (trailer_prefix importPath));
    [|tauto].
  destruct (trailer_duration importPath out) as [d|]; [|tauto].
  right. exists d. tauto.
Qed.

Lemma rejected_not_accepted (importPath v out : bytes) (err : option bytes) (d : Z) :
  rejected importPath v out err -> accepted importPath v out err d -> False.
Proof.
  unfold rejected, accepted. cbv zeta.
  intros R (A1 & A2 & A3 & A4 & A5 & A6).
  destruct R as [R|[R|[R|[R|[R|R]]]]]; try congruence; lia.
Qed.

Lemma check_output_accepted (importPath v out : bytes) (d : Z) :
  accepted importPath v out None d ->
  check_output importPath v out = Ok (result_line out, d).
Proof.
  unfold accepted. cbv zeta. intros (_ & A2 & A3 & A4 & A5 & A6).
  unfold check_output. cbv zeta.
  destruct (Z.ltb_spec (len_lines (Split out newline)) 3); [lia|].
  rewrite A3, A4, A5, Equal_refl. cbn [negb orb].
  rewrite (slice_from_HasPrefix _ _ A5). cbn [checked res_bind].
  unfold trailer_duration, trailer_text in A6. rewrite A6. reflexivity.
Qed.

Lemma check_output_rejected (importPath v out : bytes) :
  rejected importPath v out None ->
  exists msg, check_output importPath v out = Stop (Fatal msg).
Proof.
  intros R. unfold check_output. cbv zeta.
  destruct (Z.ltb_spec (len_lines (Split out newline)) 3); [eauto|].
  destruct (negb (HasPrefix (nth_line (Split out newline) 0) v)
            || negb (Equal (nth_line (Split out newline) 1) (B "PASS"))
            || negb (HasPrefix (nth_line (Split out newline) 2)
                               (trailer_prefix importPath))) eqn:E; [eauto|].
  apply orb_false_iff in E as [E E5]. apply orb_false_iff in E as [E3 E4].
  apply negb_false_iff in E3, E4, E5. apply Equal_eq in E4.
  rewrite (slice_from_HasPrefix _ _ E5). cbn [checked res_bind].
  unfold rejected in R. cbv zeta in R.
  destruct R as [R|[R|[R|[R|[R|R]]]]]; try congruence; try lia.
  unfold trailer_duration, trailer_text in R. rewrite R. eauto.
Qed.

(** *** One run of [go test] *)

Lemma go_test_accepted (args : list bytes) (importPath v : bytes) (p : proc)
      (w : World) (out : bytes) (err : option bytes) (d : Z) :
  CombinedOutput (world p) args = (w, (out, err)) ->
  accepted importPath v out err d ->
  go_test args importPath v p = (called p args w (out, err), Ok (result_line out, d)).
Proof.
  intros C A. assert (err = None) as -> by apply A.
  unfold go_test, bind, go. rewrite C.
  unfold lift. now rewrite (check_output_accepted _ _ _ _ A).
Qed.

Lemma go_test_rejected (args : list bytes) (importPath v : bytes) (p : proc)
      (w : World) (out : bytes) (err : option bytes) :
  CombinedOutput (world p) args = (w, (out, err)) ->
  rejected importPath v out err ->
  exists msg,
    go_test args importPath v p = (called p args w (out, err), Stop (Fatal msg)).
Proof.
  intros C R. unfold go_test, bind, go. rewrite C.
  destruct err as [e|].
  - exists e. reflexivity.
  - destruct (check_output_rejected _ _ _ R) as [msg E].
    exists msg. unfold lift. now rewrite E.
Qed.

(** *** The line of a parsed benchmark *)

Lemma ns_per_op_text_shown (s : bytes) :
  Doc.ns_per_op_text s = Ok (ns_per_op_shown s).
Proof.
  unfold Doc.ns_per_op_text, ns_per_op_shown.
  destruct (Z.ltb_spec 2 (IndexByte s "."%byte)); [|reflexivity].
  pose proof (IndexByte_range s "."%byte). unfold slice_to.
  destruct (Z.leb_spec 0 (len s - 3)); [|lia].
  destruct (Z.leb_spec (len s - 3) (len s)); [|lia].
  cbn [andb checked]. do 2 f_equal. unfold len. lia.
Qed.

Lemma print_benchmark_text (width : Z) (b : Benchmark float64) (p : proc) :
  Doc.print_benchmark width b p = (printed p (benchmark_text width b), Ok tt).
Proof.
  unfold Doc.print_benchmark, benchmark_text, bind, Printf, lift, ret.
  rewrite ns_per_op_text_shown.
  destruct (Doc.measured b parse.NsPerOp), (Doc.measured b parse.MBPerS),
    (Doc.measured b parse.AllocedBytesPerOp), (Doc.measured b parse.AllocsPerOp);
    rewrite ?printed_printed, ?app_nil_r, <- ?app_assoc; reflexivity.
Qed.

(** *** One turn of the loop *)

Lemma loop_accepted (P : program) (oBenchmem : bool) (importPath : bytes)
      (width t : Z) (v : bytes) (rest : list bytes) (p : proc)
      (w : World) (out : bytes) (err : option bytes) (d : Z) :
  CombinedOutput (world p) (args P oBenchmem importPath v) = (w, (out, err)) ->
  accepted importPath v out err d ->
  loop P oBenchmem importPath width t (v :: rest) p
  = loop P oBenchmem importPath width (GoTime.add t d) rest
         (printed (called p (args P oBenchmem importPath v) w (out, err))
                  (line_text P width (result_line out))).
Proof.
  intros C A. destruct P; cbn [loop args line_text] in *.
  - cbn [Main.loop]. unfold bind at 1. unfold Main.body, bind at 1.
    rewrite (go_test_accepted _ _ _ _ _ _ _ _ C A). reflexivity.
  - cbn [Doc.loop]. unfold bind at 1. unfold Doc.body, bind at 1.
    rewrite (go_test_accepted _ _ _ _ _ _ _ _ C A).
    destruct (ParseLine (result_line out)) as [b|].
    + unfold bind. now rewrite print_benchmark_text.
    + reflexivity.
Qed.

Lemma loop_rejected (P : program) (oBenchmem : bool) (importPath : bytes)
      (width t : Z) (v : bytes) (rest : list bytes) (p : proc)
      (w : World) (out : bytes) (err : option bytes) :
  CombinedOutput (world p) (args P oBenchmem importPath v) = (w, (out, err)) ->
  rejected importPath v out err ->
  exists msg,
    loop P oBenchmem importPath width t (v :: rest) p
    = (called p (args P oBenchmem importPath v) w (out, err), Stop (Fatal msg)).
Proof.
  intros C R. destruct P; cbn [loop args] in *.
  - destruct (go_test_rejected _ _ _ _ _ _ _ C R) as [msg E]. exists msg.
    cbn [Main.loop]. unfold bind at 1. unfold Main.body, bind at 1. now rewrite E.
  - destruct (go_test_rejected _ _ _ _ _ _ _ C R) as [msg E]. exists msg.
    cbn [Doc.loop]. unfold bind at 1. unfold Doc.body, bind at 1. now rewrite E.
Qed.

Lemma loop_nil (P : program) (oBenchmem : bool) (importPath : bytes)
      (width t : Z) (p : proc) :
  loop P oBenchmem importPath width t [] p = (p, Ok t).
Proof. now destruct P. Qed.

Lemma loop_app (P : program) (oBenchmem : bool) (importPath : bytes)
      (width : Z) (pre post : list bytes) (t : Z) (p : proc) :
  loop P oBenchmem importPath width t (pre ++ post) p
  = match loop P oBenchmem importPath width t pre p with
    | (p', Ok t') => loop P oBenchmem importPath width t' post p'
    | (p', Stop e) => (p', Stop e)
    end.
Proof.
  revert t p. induction pre as [|v pre IH]; intros t p.
  - now rewrite loop_nil.
  - destruct P; cbn [app loop Main.loop Doc.loop] in *; rewrite !bind_run.
    + destruct (Main.body oBenchmem importPath t v p) as [p' [t'|e]];
        [apply IH | reflexivity].
    + destruct (Doc.body oBenchmem importPath width t v p) as [p' [t'|e]];
        [apply IH | reflexivity].
Qed.

End ProcessFacts.

(** ** Sums of durations *)

Module DurationFacts.
Import GoTime.

Lemma wrap64_range (z : Z) : int64_min <= wrap64 z <= int64_max.
Proof.
  unfold wrap64, int64_min, int64_max.
  pose proof (Z.mod_pos_bound (z + 2 ^ 63) (2 ^ 64) ltac:(lia)). lia.
Qed.

Lemma wrap64_small (z : Z) : int64_min <= z <= int64_max -> wrap64 z = z.
Proof.
  unfold wrap64, int64_min, int64_max. intros H.
  rewrite Z.mod_small by lia. lia.
Qed.

Lemma wrap64_add_l (a b : Z) : wrap64 (wrap64 a + b) = wrap64 (a + b).
Proof.
  unfold wrap64.
  replace ((a + 2 ^ 63) mod 2 ^ 64 - 2 ^ 63 + b + 2 ^ 63)
    with ((a + 2 ^ 63) mod 2 ^ 64 + b) by lia.
  rewrite Z.add_mod_idemp_l by lia. do 2 f_equal. lia.
Qed.

(** Adding durations one after the other gives their exact sum, wrapped
    once. *)
Lemma fold_add (ds : list Z) (t : Z) :
  fold_left add ds (wrap64 t) = wrap64 (t + sum ds).
Proof.
  revert t. induction ds as [|d ds IH]; intros t; cbn [fold_left sum fold_right].
  - now rewrite Z.add_0_r.
  - unfold add at 2. rewrite wrap64_add_l, IH. f_equal.
    fold (sum ds). lia.
Qed.

Lemma fold_add_0 (ds : list Z) : fold_left add ds 0 = wrap64 (sum ds).
Proof.
  change 0 with (wrap64 0) at 1. now rewrite fold_add.
Qed.

End DurationFacts.

(** ** The history of a run of the loop *)

Section HistoryFacts.
Context {X : Externals}.

Variables (P : program) (oBenchmem : bool) (importPath : bytes) (width : Z).

Lemma durations_length (h : list call) :
  (length (durations importPath h) <= length h)%nat.
Proof.
  induction h as [|[a [out err]] h IH]; cbn [durations length]; [lia|].
  destruct (trailer_duration importPath out); cbn [length]; lia.
Qed.

(** When there are as many durations as runs, every run has one. *)
Lemma durations_all (h : list call) :
  length (durations importPath h) = length h ->
  map (fun c : call => trailer_duration importPath (fst (snd c))) h
  = map Some (durations importPath h).
Proof.
  induction h as [|[a [out err]] h IH]; cbn [durations length map fst snd];
    [reflexivity|].
  pose proof (durations_length h) as L.
  destruct (trailer_duration importPath out) as [d|]; cbn [length map].
  - intros E. f_equal. apply IH. lia.
  - lia.
Qed.

(** What the loop adds to the history: one run of [go] for each identifier
    it reached, in order, with the arguments of that identifier; when it
    ends, a duration from every run, all added to the total. *)
Lemma loop_history (bench : list bytes) (t : Z) (p p' : proc) (r : res Z) :
  loop P oBenchmem importPath width t bench p = (p', r) ->
  exists new,
    calls p' = calls p ++ new
    /\ map fst new
       = map (args P oBenchmem importPath) (firstn (length new) bench)
    /\ (length new <= length bench)%nat
    /\ match r with
       | Ok t' =>
           length new = length bench
           /\ length (durations importPath new) = length bench
           /\ t' = fold_left GoTime.add (durations importPath new) t
       | Stop e => exists msg, e = Fatal msg
       end.
Proof.
  revert t p. induction bench as [|v bench IH]; intros t p E.
  - rewrite loop_nil in E. injection E as <- <-. exists [].
    rewrite app_nil_r. cbn. split; [reflexivity | split; [reflexivity | split; [lia|]]].
    now split.
  - destruct (CombinedOutput (world p) (args P oBenchmem importPath v))
      as [w [out err]] eqn:C.
    destruct (rejected_or_accepted importPath v out err) as [R|[d A]].
    + destruct (loop_rejected P oBenchmem importPath width t v bench p _ _ _ C R)
        as [msg E'].
      rewrite E' in E. injection E as <- <-.
      exists [(args P oBenchmem importPath v, (out, err))].
      cbn. split; [reflexivity | split; [reflexivity | split; [lia|]]].
      now exists msg.
    + rewrite (loop_accepted P oBenchmem importPath width t v bench p _ _ _ _ C A) in E.
      apply IH in E as (new & Hc & Ha & Hl & Hr).
      exists ((args P oBenchmem importPath v, (out, err)) :: new).
      cbn [printed called calls] in Hc. rewrite Hc, <- app_assoc.
      cbn [app length firstn map fst]. rewrite Ha.
      assert (Hd : trailer_duration importPath out = Some d) by apply A.
      split; [reflexivity | split; [reflexivity | split; [lia|]]].
      destruct r as [t'|e]; [|exact Hr].
      cbn [durations]. rewrite Hd. cbn [length fold_left].
      destruct Hr as (H1 & H2 & H3). split; [lia | split; [lia | exact H3]].
Qed.

End HistoryFacts.

(** ** A run of a program *)

Section RunFacts.
Context {X : Externals}.

(** A run is the loop and then the two lines of the summary. *)
Lemma run_loop (P : program) (oBenchmem : bool) (importPath : bytes)
      (bench : list bytes) (p : proc) :
  run P oBenchmem importPath bench p
  = match loop P oBenchmem importPath (Doc.max_width bench) 0 bench p with
    | (p', Ok t) => (printed p' (Main.summary importPath t), Ok tt)
    | (p', Stop e) => (p', Stop e)
    end.
Proof. destruct P; reflexivity. Qed.

Lemma main_run (P : program) (oBenchmem : bool) (importPath : bytes)
      (testFiles : list (bytes + bytes)) (bench : list bytes) (p : proc) :
  Scanner.scan_files [] testFiles = Ok bench ->
  main P oBenchmem importPath testFiles p = run P oBenchmem importPath bench p.
Proof.
  intros E. destruct P; cbn [main run]; unfold Main.main, Doc.main;
    rewrite bind_run; unfold lift; now rewrite E.
Qed.

End RunFacts.

(** ** The ns/op value *)

Lemma digits_without_point (s : bytes) :
  forallb GoTime.is_digit s = true -> ~ In "."%byte s.
Proof.
  intros D H. rewrite forallb_forall in D. now specialize (D _ H).
Qed.

(** ** Binary64 arithmetic on integers below 2^53 is exact *)

Module F64Facts.
Import F64.

Lemma scaled_nonpositive (n d e : Z) :
  e <= 0 -> exists d', scaled n d e = (n * 2 ^ (- e), d') /\ d' = d.
Proof.
  intros H. unfold scaled. destruct (Z.leb_spec 0 e).
  - assert (e = 0) as -> by lia. cbn. exists (d * 1). split; [f_equal|]; lia.
  - now exists d.
Qed.

Lemma nearest_even_multiple (q d : Z) : 0 < d -> nearest_even (q * d) d = q.
Proof.
  intros H. unfold nearest_even.
  rewrite Z.div_mul, Z.mod_mul by lia.
  destruct (Z.ltb_spec d (2 * 0)); [lia|].
  destruct (Z.eqb_spec d (2 * 0)); [lia|]. reflexivity.
Qed.

Lemma round_exact (n d V : Z) :
  0 < d -> 0 < V < 2 ^ 53 -> n = V * d -> exact (round n d) V.
Proof.
  intros Hd HV Hn. unfold round.
  assert (Hpos : 0 < n) by nia.
  destruct (Z.eqb_spec n 0) as [Hz|_]; [lia|].
  set (e0 := Z.log2 n - Z.log2 d - 52).
  assert (He0 : e0 <= 1).
  { pose proof (Z.log2_mul_above V d ltac:(lia) ltac:(lia)) as M.
    rewrite <- Hn in M.
    assert (Z.log2 V < 53) by (apply Z.log2_lt_pow2; lia).
    subst e0. lia. }
  destruct (scaled n d e0) as [n0 d0] eqn:S0.
  set (e1 := if n0 / d0 <? 2 ^ 52 then e0 - 1 else e0).
  assert (He1 : e1 <= 0).
  { subst e1. destruct (Z.ltb_spec (n0 / d0) (2 ^ 52)) as [|Hq]; [lia|].
    destruct (Z.le_gt_cases e0 0) as [|G]; [lia|].
    assert (e0 = 1) as E by lia. rewrite E in S0. unfold scaled in S0.
    cbn in S0. injection S0 as <- <-.
    exfalso. subst n.
    assert (Hh : V * d / (d * 2) = V / 2).
    { rewrite <- Z.div_div by lia. now rewrite Z.div_mul by lia. }
    rewrite Hh in Hq.
    assert (V / 2 < 2 ^ 52) by (apply Z.div_lt_upper_bound; lia). lia. }
  set (e := Z.max e1 (-1074)).
  assert (He : e <= 0) by lia.
  destruct (scaled_nonpositive n d e He) as (d' & -> & ->).
  assert (Hm : nearest_even (n * 2 ^ (- e)) d = V * 2 ^ (- e)).
  { subst n. replace (V * d * 2 ^ (- e)) with (V * 2 ^ (- e) * d) by lia.
    now apply nearest_even_multiple. }
  rewrite Hm.
  assert (Hf : (2 ^ 1024 <=? V * 2 ^ (- e) * 2 ^ e) = false).
  { apply Z.leb_gt. destruct (Z.eq_dec e 0) as [->|Ne].
    - cbn [Z.opp]. rewrite !Z.pow_0_r, !Z.mul_1_r.
      assert (2 ^ 53 < 2 ^ 1024) by (apply Z.pow_lt_mono_r; lia). lia.
    - rewrite (Z.pow_neg_r 2 e) by lia. rewrite Z.mul_0_r.
      apply Z.pow_pos_nonneg; lia. }
  rewrite Hf. exists (V * 2 ^ (- e)), e. auto.
Qed.

Lemma of_Z_exact (V : Z) : 0 < V < 2 ^ 53 -> exact (of_Z V) V.
Proof. intros H. unfold of_Z. apply round_exact; lia. Qed.

Lemma mul_exact (a b : t) (Va Vb : Z) :
  exact a Va -> exact b Vb -> 0 < Va * Vb < 2 ^ 53 -> exact (mul a b) (Va * Vb).
Proof.
  intros (ma & ea & -> & Hea & ->) (mb & eb & -> & Heb & ->) H.
  unfold mul, scaled.
  destruct (Z.leb_spec 0 (- (ea + eb))); [|lia].
  apply round_exact.
  - assert (0 < 2 ^ (- (ea + eb))) by (apply Z.pow_pos_nonneg; lia). lia.
  - exact H.
  - replace (- (ea + eb)) with (- ea + - eb) by lia.
    rewrite Z.pow_add_r by lia. lia.
Qed.

Lemma div_exact (a b : t) (Va Vb Q : Z) :
  exact a Va -> exact b Vb -> 0 < Vb -> Va = Q * Vb -> 0 < Q < 2 ^ 53 ->
  exact (div a b) Q.
Proof.
  intros (ma & ea & -> & Hea & ->) (mb & eb & -> & Heb & ->) Hb Hq HQ.
  unfold div, scaled.
  assert (0 < 2 ^ (- ea)) by (apply Z.pow_pos_nonneg; lia).
  assert (0 < 2 ^ (- eb)) by (apply Z.pow_pos_nonneg; lia).
  destruct (Z.leb_spec 0 (eb - ea)).
  - apply round_exact; [|exact HQ|].
    + assert (0 < 2 ^ (eb - ea)) by (apply Z.pow_pos_nonneg; lia). nia.
    + subst Va. replace (- ea) with (- eb + (eb - ea)) by lia.
      rewrite Z.pow_add_r by lia. lia.
  - apply round_exact; [nia|exact HQ|].
    subst Va. replace (- eb) with (- ea + - (eb - ea)) by lia.
    rewrite Z.pow_add_r by lia. lia.
Qed.

Lemma to_uint64_exact (a : t) (V : Z) :
  exact a V -> 0 <= V < 2 ^ 64 -> to_uint64 a = V.
Proof.
  intros (m & e & -> & He & ->) H. unfold to_uint64.
  assert (0 < 2 ^ (- e)) by (apply Z.pow_pos_nonneg; lia).
  destruct (Z.leb_spec 0 e).
  - assert (e = 0) as -> by lia. cbn. rewrite Z.mul_1_r, Z.mul_1_r.
    apply Z.mod_small. lia.
  - rewrite Z.div_mul by lia. apply Z.mod_small. lia.
Qed.

End F64Facts.

(** ** Formatting a duration and parsing it again *)

Module GoTimeFacts.
Import GoTime.

Lemma digit_value (d : Z) :
  0 <= d < 10 -> Z.of_N (Byte.to_N (digit d)) = d + 48.
Proof.
  intros H.
  assert (C : d = 0 \/ d = 1 \/ d = 2 \/ d = 3 \/ d = 4 \/ d = 5 \/ d = 6
              \/ d = 7 \/ d = 8 \/ d = 9) by lia.
  repeat (destruct C as [->|C]; [reflexivity|]). now subst.
Qed.

Lemma is_digit_digit (d : Z) : 0 <= d < 10 -> is_digit (digit d) = true.
Proof.
  intros H. unfold is_digit. rewrite digit_value by exact H.
  destruct (Z.leb_spec 48 (d + 48)); [|lia].
  destruct (Z.leb_spec (d + 48) 57); [reflexivity|lia].
Qed.

Lemma mod10_digit (v : Z) : 0 <= v mod 10 < 10.
Proof. apply Z.mod_pos_bound. lia. Qed.

(** *** The integer before the unit *)

Lemma leadingInt_digit (x d : Z) (s : bytes) :
  0 <= d < 10 -> 0 <= x -> x * 10 + d <= 2 ^ 63 ->
  leadingInt x (digit d :: s) = leadingInt (x * 10 + d) s.
Proof.
  intros Hd Hx Hy. cbn [leadingInt].
  rewrite is_digit_digit, digit_value by exact Hd. cbn [negb].
  assert (Hq : x <= 2 ^ 63 / 10) by (apply Z.div_le_lower_bound; lia).
  destruct (Z.ltb_spec (2 ^ 63 / 10) x); [lia|].
  replace (x * 10 + (d + 48) - 48) with (x * 10 + d) by lia.
  destruct (Z.ltb_spec (2 ^ 63) (x * 10 + d)); [lia|reflexivity].
Qed.

Lemma leadingInt_end (x : Z) (s : bytes) :
  ends_number s -> leadingInt x s = Some (x, s).
Proof.
  destruct s as [|c s]; cbn; [reflexivity|]. now intros ->.
Qed.

Lemma fmtInt_loop_succ (fuel : nat) (buf : bytes) (v : Z) :
  fmtInt_loop (S fuel) buf v
  = if 0 <? v then fmtInt_loop fuel (digit (v mod 10) :: buf) (v / 10) else buf.
Proof. reflexivity. Qed.

Lemma fmtInt_loop_zero (fuel : nat) (buf : bytes) : fmtInt_loop fuel buf 0 = buf.
Proof. now destruct fuel. Qed.

Lemma leadingInt_fmtInt_loop (fuel : nat) (buf : bytes) (v : Z) :
  0 <= v < 10 ^ Z.of_nat fuel -> v <= 2 ^ 63 ->
  leadingInt 0 (fmtInt_loop fuel buf v) = leadingInt v buf.
Proof.
  revert buf v. induction fuel as [|fuel IH]; intros buf v Hv Hb.
  - cbn in Hv. assert (v = 0) as -> by lia. reflexivity.
  - cbn [fmtInt_loop]. destruct (Z.ltb_spec 0 v) as [Hp|Hz].
    + pose proof (mod10_digit v).
      pose proof (Z.div_mod v 10 ltac:(lia)).
      assert (0 <= v / 10) by (apply Z.div_pos; lia).
      rewrite IH.
      * rewrite leadingInt_digit; [f_equal; lia | lia | lia |].
        replace (v / 10 * 10 + v mod 10) with v by lia. exact Hb.
      * rewrite Nat2Z.inj_succ, Z.pow_succ_r in Hv by lia.
        split; [apply Z.div_pos; lia|]. apply Z.div_lt_upper_bound; lia.
      * lia.
    + now assert (v = 0) as -> by lia.
Qed.

Lemma leadingInt_fmtInt (buf : bytes) (v : Z) :
  0 <= v <= 2 ^ 63 -> leadingInt 0 (fmtInt buf v) = leadingInt v buf.
Proof.
  intros H. unfold fmtInt. destruct (Z.eqb_spec v 0) as [->|N].
  - change "0"%byte with (digit 0). now rewrite leadingInt_digit by lia.
  - apply leadingInt_fmtInt_loop; [|lia].
    assert (2 ^ 63 < 10 ^ Z.of_nat 20) by (vm_compute; reflexivity). lia.
Qed.

(** [fmtInt] writes at least one byte, and the first is a digit. *)
Lemma fmtInt_loop_shape (fuel : nat) (buf : bytes) (v : Z) :
  starts_with_digit buf ->
  starts_with_digit (fmtInt_loop fuel buf v)
  /\ (length buf <= length (fmtInt_loop fuel buf v))%nat.
Proof.
  revert buf v. induction fuel as [|fuel IH]; intros buf v H; cbn [fmtInt_loop].
  - split; [exact H|lia].
  - destruct (0 <? v); [|split; [exact H|lia]].
    destruct (IH (digit (v mod 10) :: buf) (v / 10)) as [S L].
    + cbn. apply is_digit_digit, mod10_digit.
    + split; [exact S|]. cbn [length] in L. lia.
Qed.

Lemma fmtInt_shape (buf : bytes) (v : Z) :
  0 <= v ->
  starts_with_digit (fmtInt buf v) /\ (length buf < length (fmtInt buf v))%nat.
Proof.
  intros H. unfold fmtInt. destruct (Z.eqb_spec v 0) as [->|N].
  - split; [reflexivity|cbn; lia].
  - change 20%nat with (S 19). rewrite fmtInt_loop_succ.
    destruct (Z.ltb_spec 0 v); [|lia].
    destruct (fmtInt_loop_shape 19 (digit (v mod 10) :: buf) (v / 10)) as [S L].
    + cbn. apply is_digit_digit, mod10_digit.
    + split; [exact S|]. cbn [length] in L. lia.
Qed.

(** *** The fraction after the point *)

Lemma ten_times_exact (k : nat) :
  (k <= 15)%nat -> F64.exact (ten_times k (F64.of_Z 1)) (10 ^ Z.of_nat k).
Proof.
  induction k as [|k IH]; intros H.
  - apply F64Facts.of_Z_exact. cbn. lia.
  - unfold ten_times. cbn [Nat.iter]. fold (ten_times k (F64.of_Z 1)).
    rewrite Nat2Z.inj_succ, Z.pow_succ_r, Z.mul_comm by lia.
    apply F64Facts.mul_exact.
    + apply IH. lia.
    + apply F64Facts.of_Z_exact. lia.
    + assert (0 < 10 ^ Z.of_nat k) by (apply Z.pow_pos_nonneg; lia).
      assert (10 ^ Z.of_nat k <= 10 ^ 14) by (apply Z.pow_le_mono_r; lia).
      lia.
Qed.

Lemma leadingFraction_digit (x d : Z) (scale : F64.t) (s : bytes) :
  0 <= d < 10 -> 0 <= x -> x * 10 + d <= 10 ^ 18 ->
  leadingFraction x scale false (digit d :: s)
  = leadingFraction (x * 10 + d) (F64.mul scale (F64.of_Z 10)) false s.
Proof.
  intros Hd Hx Hy. cbn [leadingFraction].
  rewrite is_digit_digit, digit_value by exact Hd. cbn [negb].
  assert (Hq : x <= (2 ^ 63 - 1) / 10) by (apply Z.div_le_lower_bound; lia).
  destruct (Z.ltb_spec ((2 ^ 63 - 1) / 10) x); [lia|].
  replace (x * 10 + (d + 48) - 48) with (x * 10 + d) by lia.
  destruct (Z.ltb_spec (2 ^ 63) (x * 10 + d)); [lia|reflexivity].
Qed.

Lemma leadingFraction_end (x : Z) (scale : F64.t) (s : bytes) :
  ends_number s -> leadingFraction x scale false s = (x, scale, s).
Proof.
  destruct s as [|c s]; cbn; [reflexivity|]. now intros ->.
Qed.

Lemma mod_pow10_succ (v : Z) (p : nat) :
  0 <= v ->
  v mod 10 ^ Z.of_nat (S p) = (v / 10) mod 10 ^ Z.of_nat p * 10 + v mod 10.
Proof.
  intros H. rewrite Nat2Z.inj_succ, Z.pow_succ_r by lia.
  assert (0 < 10 ^ Z.of_nat p) by (apply Z.pow_pos_nonneg; lia).
  rewrite Z.rem_mul_r by lia. lia.
Qed.

Lemma div_pow10_succ (v : Z) (p : nat) :
  0 <= v -> v / 10 ^ Z.of_nat (S p) = v / 10 / 10 ^ Z.of_nat p.
Proof.
  intros H. rewrite Nat2Z.inj_succ, Z.pow_succ_r by lia.
  assert (0 < 10 ^ Z.of_nat p) by (apply Z.pow_pos_nonneg; lia).
  now rewrite Z.div_div by lia.
Qed.

(** Once a digit was printed all the digits before it are: the parser
    reads the [prec] digits of [v mod 10^prec]. *)
Lemma fmtFrac_loop_printing (prec : nat) (buf : bytes) (v x : Z) (scale : F64.t) :
  0 <= v -> 0 <= x -> (x + 1) * 10 ^ Z.of_nat prec <= 10 ^ 18 ->
  exists buf',
    fmtFrac_loop prec buf true v = (buf', true, v / 10 ^ Z.of_nat prec)
    /\ (length buf <= length buf')%nat
    /\ leadingFraction x scale false buf'
       = leadingFraction (x * 10 ^ Z.of_nat prec + v mod 10 ^ Z.of_nat prec)
                         (ten_times prec scale) false buf.
Proof.
  revert buf v. induction prec as [|p IH]; intros buf v Hv Hx Hb.
  - exists buf. cbn [fmtFrac_loop Z.of_nat]. rewrite Z.pow_0_r, Z.div_1_r, Z.mod_1_r.
    split; [reflexivity|]. split; [lia|]. f_equal. lia.
  - cbn [fmtFrac_loop orb].
    pose proof (mod10_digit v) as Hd.
    assert (Hv' : 0 <= v / 10) by (apply Z.div_pos; lia).
    assert (Hp : 0 < 10 ^ Z.of_nat p) by (apply Z.pow_pos_nonneg; lia).
    assert (Hb' : (x + 1) * 10 ^ Z.of_nat p * 10 <= 10 ^ 18).
    { rewrite Nat2Z.inj_succ, Z.pow_succ_r in Hb by lia. lia. }
    destruct (IH (digit (v mod 10) :: buf) (v / 10) Hv' Hx ltac:(nia))
      as (buf' & E & L & P).
    exists buf'. rewrite E, div_pow10_succ by exact Hv.
    split; [reflexivity|]. split; [cbn [length] in L; lia|].
    rewrite P.
    pose proof (Z.mod_pos_bound (v / 10) (10 ^ Z.of_nat p) Hp) as Hm.
    rewrite leadingFraction_digit; [|exact Hd|nia|nia].
    rewrite mod_pow10_succ by exact Hv.
    rewrite Nat2Z.inj_succ, Z.pow_succ_r by lia.
    unfold ten_times. cbn [Nat.iter]. f_equal. lia.
Qed.

(** The fraction as [fmtFrac] prints it, trailing zeros left out: nothing
    for a fraction of zero, else [j] digits that the parser reads as [r],
    with [v mod 10^prec = r * 10^(prec - j)]. *)
Lemma fmtFrac_loop_parsed (prec : nat) (buf : bytes) (v x : Z) (scale : F64.t) :
  0 <= v -> 0 <= x -> (x + 1) * 10 ^ Z.of_nat prec <= 10 ^ 18 ->
  exists buf' print,
    fmtFrac_loop prec buf false v = (buf', print, v / 10 ^ Z.of_nat prec)
    /\ ((print = false /\ buf' = buf /\ v mod 10 ^ Z.of_nat prec = 0)
        \/ (print = true
            /\ (length buf < length buf')%nat
            /\ exists (j : nat) (r : Z),
                (j <= prec)%nat /\ 0 < r
                /\ v mod 10 ^ Z.of_nat prec = r * 10 ^ Z.of_nat (prec - j)
                /\ leadingFraction x scale false buf'
                   = leadingFraction (x * 10 ^ Z.of_nat j + r)
                                     (ten_times j scale) false buf)).
Proof.
  revert buf v. induction prec as [|p IH]; intros buf v Hv Hx Hb.
  - exists buf, false. cbn [fmtFrac_loop Z.of_nat].
    rewrite Z.pow_0_r, Z.div_1_r, Z.mod_1_r. split; [reflexivity|]. now left.
  - cbn [fmtFrac_loop orb].
    pose proof (mod10_digit v) as Hd.
    assert (Hv' : 0 <= v / 10) by (apply Z.div_pos; lia).
    assert (Hp : 0 < 10 ^ Z.of_nat p) by (apply Z.pow_pos_nonneg; lia).
    assert (Hb' : (x + 1) * 10 ^ Z.of_nat p * 10 <= 10 ^ 18).
    { rewrite Nat2Z.inj_succ, Z.pow_succ_r in Hb by lia. lia. }
    rewrite div_pow10_succ, mod_pow10_succ by exact Hv.
    destruct (Z.eqb_spec (v mod 10) 0) as [Z0|NZ]; cbn [negb].
    + destruct (IH buf (v / 10) Hv' Hx ltac:(nia)) as (buf' & print & E & C).
      exists buf', print. split; [exact E|].
      destruct C as [(-> & -> & M)|(-> & L & j & r & Hj & Hr & M & P)].
      * left. repeat split. lia.
      * right. split; [reflexivity|]. split; [exact L|].
        exists j, r. split; [lia|]. split; [exact Hr|]. split; [|exact P].
        rewrite M, Z0. replace (S p - j)%nat with (S (p - j)) by lia.
        rewrite Nat2Z.inj_succ, Z.pow_succ_r by lia. lia.
    + destruct (fmtFrac_loop_printing p (digit (v mod 10) :: buf) (v / 10) x scale
                  Hv' Hx ltac:(nia)) as (buf' & E & L & P).
      exists buf', true. split; [exact E|]. right.
      split; [reflexivity|]. split; [cbn [length] in L; lia|].
      pose proof (Z.mod_pos_bound (v / 10) (10 ^ Z.of_nat p) Hp) as Hm.
      exists (S p), ((v / 10) mod 10 ^ Z.of_nat p * 10 + v mod 10).
      split; [lia|]. split; [lia|]. split.
      * rewrite Nat.sub_diag. cbn [Z.of_nat]. rewrite Z.pow_0_r. lia.
      * rewrite P. rewrite leadingFraction_digit; [|exact Hd|nia|nia].
        rewrite Nat2Z.inj_succ, Z.pow_succ_r by lia.
        unfold ten_times. cbn [Nat.iter]. f_equal. lia.
Qed.

(** *** One term: a number, a fraction, a unit *)

Lemma span_unit_end (rest : bytes) : follows_term rest -> span_unit rest = ([], rest).
Proof.
  intros [->|H]; [reflexivity|]. destruct rest as [|c rest]; [easy|].
  cbn in *. rewrite H. now rewrite orb_true_r.
Qed.

Ltac written_unit_tac :=
  split; [reflexivity|];
  eexists; eexists; split; [reflexivity|]; split; [reflexivity|];
  split; [reflexivity|];
  intros rest H; cbn; now rewrite (span_unit_end rest H).

Lemma written_ns : written_unit (B "ns") Nanosecond.
Proof. written_unit_tac. Qed.

Lemma written_us : written_unit (micro_sign ++ B "s") Microsecond.
Proof. written_unit_tac. Qed.

Lemma written_ms : written_unit (B "ms") Millisecond.
Proof. written_unit_tac. Qed.

Lemma written_s : written_unit (B "s") Second.
Proof. written_unit_tac. Qed.

Lemma written_m : written_unit (B "m") Minute.
Proof. written_unit_tac. Qed.

Lemma written_h : written_unit (B "h") Hour.
Proof. written_unit_tac. Qed.

(** The fraction [r * 10^(prec - j)] of a unit of [10^prec] nanoseconds,
    read as the [j] digits [r]: the product in [float64] is exact. *)
Lemma add_term_fraction (n r d0 : Z) (j prec : nat) :
  (j <= prec <= 9)%nat -> 0 < r ->
  r * 10 ^ Z.of_nat (prec - j) < 10 ^ Z.of_nat prec ->
  0 <= n <= 2 ^ 63 / 10 ^ Z.of_nat prec -> 0 <= d0 ->
  d0 + n * 10 ^ Z.of_nat prec + r * 10 ^ Z.of_nat (prec - j) <= 2 ^ 63 ->
  add_term n r (ten_times j (F64.of_Z 1)) (10 ^ Z.of_nat prec) d0
  = Some (d0 + n * 10 ^ Z.of_nat prec + r * 10 ^ Z.of_nat (prec - j)).
Proof.
  intros Hj Hr Hlt Hn Hd Hsum.
  set (U := 10 ^ Z.of_nat prec) in *.
  set (Q := 10 ^ Z.of_nat (prec - j)) in *.
  assert (HU : 0 < U) by (apply Z.pow_pos_nonneg; lia).
  assert (HQ : 0 < Q) by (apply Z.pow_pos_nonneg; lia).
  assert (HU9 : U <= 10 ^ 9) by (apply Z.pow_le_mono_r; lia).
  assert (HUQ : U = Q * 10 ^ Z.of_nat j).
  { subst U Q. rewrite <- Z.pow_add_r by lia. f_equal. lia. }
  assert (Hj' : 0 < 10 ^ Z.of_nat j) by (apply Z.pow_pos_nonneg; lia).
  assert (HQU : Q <= U) by nia.
  assert (E : F64.exact
                (F64.mul (F64.of_Z r) (F64.div (F64.of_Z U) (ten_times j (F64.of_Z 1))))
                (r * Q)).
  { apply F64Facts.mul_exact.
    - apply F64Facts.of_Z_exact. nia.
    - apply (F64Facts.div_exact _ _ U (10 ^ Z.of_nat j) Q).
      + apply F64Facts.of_Z_exact. lia.
      + apply ten_times_exact. lia.
      + exact Hj'.
      + exact HUQ.
      + lia.
    - lia. }
  unfold add_term.
  destruct (Z.ltb_spec (2 ^ 63 / U) n); [lia|].
  destruct (Z.ltb_spec 0 r); [|lia].
  rewrite (F64Facts.to_uint64_exact _ _ E) by lia.
  assert (Hnu : 0 <= n * U) by nia.
  rewrite (Z.mod_small (n * U + r * Q)) by lia.
  destruct (Z.ltb_spec (2 ^ 63) (n * U + r * Q)); [lia|]. cbn [andb].
  replace (d0 + (n * U + r * Q)) with (d0 + n * U + r * Q) by lia.
  rewrite Z.mod_small by lia.
  destruct (Z.ltb_spec (2 ^ 63) (d0 + n * U + r * Q)); [lia|reflexivity].
Qed.

Lemma add_term_whole (n d0 U : Z) (scale : F64.t) :
  0 < U -> 0 <= n <= 2 ^ 63 / U -> 0 <= d0 -> d0 + n * U <= 2 ^ 63 ->
  add_term n 0 scale U d0 = Some (d0 + n * U).
Proof.
  intros HU Hn Hd Hsum. unfold add_term.
  destruct (Z.ltb_spec (2 ^ 63 / U) n); [lia|].
  cbn [Z.ltb Z.compare andb].
  assert (0 <= n * U) by nia.
  rewrite Z.mod_small by lia.
  destruct (Z.ltb_spec (2 ^ 63) (d0 + n * U)); [lia|reflexivity].
Qed.

(** A term as [String] writes it is read back as its value. *)
Lemma parse_term_formatted (ub : bytes) (U : Z) (prec : nat) (rest : bytes)
      (v n d0 : Z) :
  written_unit ub U -> follows_term rest ->
  (prec <= 9)%nat -> (prec = 0%nat \/ U = 10 ^ Z.of_nat prec) -> 0 < U ->
  0 <= v -> 0 <= n <= 2 ^ 63 / U -> 0 <= d0 ->
  d0 + n * U + v mod 10 ^ Z.of_nat prec <= 2 ^ 63 ->
  parse_term (fmtInt (fst (fmtFrac (ub ++ rest) v prec)) n) d0
  = Some (rest, d0 + n * U + v mod 10 ^ Z.of_nat prec).
Proof.
  intros (HM & c1 & tl & Hub & Hc1 & Hd1 & Hspan) Hrest Hprec HU HUpos Hv Hn Hd0 Hsum.
  assert (P18 : (0 + 1) * 10 ^ Z.of_nat prec <= 10 ^ 18).
  { assert (10 ^ Z.of_nat prec <= 10 ^ 9) by (apply Z.pow_le_mono_r; lia). lia. }
  destruct (fmtFrac_loop_parsed prec (ub ++ rest) v 0 (F64.of_Z 1) Hv ltac:(lia) P18)
    as (buf' & print & E & C).
  assert (Hn63 : n <= 2 ^ 63).
  { assert (2 ^ 63 / U <= 2 ^ 63) by (apply Z.div_le_upper_bound; nia). lia. }
  unfold fmtFrac. rewrite E. cbn [fst].
  set (buf1 := if print then "."%byte :: buf' else buf').
  assert (Hend : ends_number buf1).
  { subst buf1. destruct C as [(-> & -> & _)|(-> & _)]; [|reflexivity].
    rewrite Hub. exact Hd1. }
  destruct (fmtInt_shape buf1 n ltac:(lia)) as [Hs Hl].
  pose proof (leadingInt_fmtInt buf1 n ltac:(lia)) as Hi.
  rewrite (leadingInt_end _ _ Hend) in Hi.
  destruct (fmtInt buf1 n) as [|c t] eqn:Ht; [easy|].
  cbn in Hs. unfold parse_term. rewrite Hs, orb_true_r. cbn [negb].
  rewrite Hi.
  assert (Hpre : (len (c :: t) =? len buf1) = false).
  { apply Z.eqb_neq. unfold len. lia. }
  rewrite Hpre. cbn [negb andb].
  destruct C as [(-> & -> & M)|(-> & L & j & r & Hj & Hr & M & P)]; subst buf1.
  - (* no fraction *)
    assert (F : fraction (ub ++ rest) = (0, F64.of_Z 1, ub ++ rest, false)).
    { rewrite Hub. cbn [app fraction]. now rewrite Hc1. }
    rewrite F, (Hspan rest Hrest), Hub, <- Hub, HM.
    rewrite add_term_whole by lia. rewrite M. do 2 f_equal. lia.
  - (* a fraction of [j] digits *)
    assert (F : fraction ("."%byte :: buf')
                = (r, ten_times j (F64.of_Z 1), ub ++ rest,
                   negb (len buf' =? len (ub ++ rest)))).
    { cbn [fraction]. rewrite byte_eqb_refl, P.
      rewrite leadingFraction_end by (rewrite Hub; exact Hd1).
      cbn [Z.mul Z.add]. reflexivity. }
    rewrite F, (Hspan rest Hrest), Hub, <- Hub, HM.
    destruct HU as [-> | ->].
    + exfalso. cbn [Z.of_nat] in M. rewrite Z.pow_0_r, Z.mod_1_r in M.
      assert (0 < 10 ^ Z.of_nat (0 - j)) by (apply Z.pow_pos_nonneg; lia). nia.
    + pose proof (Z.mod_pos_bound v (10 ^ Z.of_nat prec) HUpos) as Hm.
      rewrite (add_term_fraction n r d0 j prec) by lia.
      now rewrite M.
Qed.

(** *** The terms of a duration *)

Lemma parse_terms_nil (fuel : nat) (d : Z) : parse_terms fuel [] d = Some d.
Proof. now destruct fuel. Qed.

Lemma parse_terms_cons (fuel : nat) (s s' : bytes) (d d' : Z) :
  starts_with_digit s -> parse_term s d = Some (s', d') ->
  parse_terms (S fuel) s d = parse_terms fuel s' d'.
Proof.
  intros H E. destruct s as [|c s]; [easy|]. cbn [parse_terms]. now rewrite E.
Qed.

Lemma fmtFrac_parts (buf : bytes) (v : Z) (prec : nat) :
  0 <= v -> (prec <= 9)%nat ->
  snd (fmtFrac buf v prec) = v / 10 ^ Z.of_nat prec
  /\ (length buf <= length (fst (fmtFrac buf v prec)))%nat.
Proof.
  intros Hv Hp.
  assert (P18 : (0 + 1) * 10 ^ Z.of_nat prec <= 10 ^ 18).
  { assert (10 ^ Z.of_nat prec <= 10 ^ 9) by (apply Z.pow_le_mono_r; lia). lia. }
  destruct (fmtFrac_loop_parsed prec buf v 0 (F64.of_Z 1) Hv ltac:(lia) P18)
    as (buf' & print & E & C).
  unfold fmtFrac. rewrite E. cbn [fst snd]. split; [reflexivity|].
  destruct C as [(-> & -> & _)|(-> & L & _)]; cbn [length]; lia.
Qed.

Lemma String_magnitude (d : Z) :
  let u := if d <? 0 then (- d) mod 2 ^ 64 else d mod 2 ^ 64 in
  u <> 0 ->
  String d = if d <? 0 then "-"%byte :: magnitude u else magnitude u.
Proof.
  intros u Hu. unfold String, magnitude. fold u.
  destruct (Z.eqb_spec u 0) as [|_]; [contradiction|].
  destruct (u <? Second).
  - destruct (if u <? Microsecond then _ else _) as [prec unit].
    destruct (fmtFrac unit u prec) as [buf u1]. reflexivity.
  - destruct (fmtFrac (B "s") u 9) as [buf u1].
    destruct (0 <? u1 / 60); [|reflexivity].
    destruct (0 <? u1 / 60 / 60); reflexivity.
Qed.

(** A duration below a second: one term. *)
Lemma small_parsed (u : Z) (prec : nat) (ub : bytes) :
  0 < u <= 2 ^ 63 -> (prec <= 9)%nat -> written_unit ub (10 ^ Z.of_nat prec) ->
  let T := fmtInt (fst (fmtFrac ub u prec)) (snd (fmtFrac ub u prec)) in
  starts_with_digit T /\ (2 <= length T)%nat
  /\ parse_terms (length T) T 0 = Some u.
Proof.
  intros Hu Hp W T.
  assert (HU : 0 < 10 ^ Z.of_nat prec) by (apply Z.pow_pos_nonneg; lia).
  destruct (fmtFrac_parts ub u prec ltac:(lia) Hp) as [Hs Hl].
  assert (Hn : 0 <= u / 10 ^ Z.of_nat prec) by (apply Z.div_pos; lia).
  pose proof (Z.div_mod u (10 ^ Z.of_nat prec) ltac:(lia)) as Hdm.
  pose proof (Z.mod_pos_bound u (10 ^ Z.of_nat prec) HU) as Hm.
  destruct (fmtInt_shape (fst (fmtFrac ub u prec)) (u / 10 ^ Z.of_nat prec) Hn)
    as [Sd Sl].
  assert (Hub : (1 <= length ub)%nat).
  { destruct W as (_ & c & tl & -> & _). cbn. lia. }
  subst T. rewrite Hs.
  split; [exact Sd|]. split; [lia|].
  assert (E : parse_term (fmtInt (fst (fmtFrac ub u prec)) (u / 10 ^ Z.of_nat prec)) 0
              = Some ([], u)).
  { rewrite <- (app_nil_r ub) at 1.
    rewrite (parse_term_formatted ub (10 ^ Z.of_nat prec) prec [] u
               (u / 10 ^ Z.of_nat prec) 0 W).
    - do 2 f_equal. lia.
    - now left.
    - exact Hp.
    - now right.
    - exact HU.
    - lia.
    - split; [exact Hn|]. apply Z.div_le_lower_bound; lia.
    - lia.
    - lia. }
  destruct (length (fmtInt (fst (fmtFrac ub u prec)) (u / 10 ^ Z.of_nat prec)))
    as [|k] eqn:K; [lia|].
  rewrite (parse_terms_cons _ _ _ _ _ Sd E). apply parse_terms_nil.
Qed.

(** A term without a fraction: minutes, hours. *)
Lemma whole_term (ub : bytes) (U : Z) (rest : bytes) (n d0 : Z) :
  written_unit ub U -> follows_term rest -> 0 < U ->
  0 <= n -> n * U <= 2 ^ 63 -> 0 <= d0 -> d0 + n * U <= 2 ^ 63 ->
  let T := fmtInt (ub ++ rest) n in
  starts_with_digit T /\ (length rest + 2 <= length T)%nat
  /\ parse_term T d0 = Some (rest, d0 + n * U).
Proof.
  intros W F HU Hn HnU Hd Hs T.
  destruct (fmtInt_shape (ub ++ rest) n Hn) as [Sd Sl].
  assert (Hub : (1 <= length ub)%nat).
  { destruct W as (_ & c & tl & -> & _). cbn. lia. }
  rewrite length_app in Sl. subst T.
  split; [exact Sd|]. split; [lia|].
  pose proof (parse_term_formatted ub U 0 rest 0 n d0 W F ltac:(lia)
                ltac:(now left) HU ltac:(lia)) as P.
  cbn [fmtFrac fmtFrac_loop fst Z.of_nat] in P.
  rewrite Z.pow_0_r, Z.mod_1_r, Z.add_0_r in P.
  apply P; [|exact Hd|exact Hs].
  split; [exact Hn|]. apply Z.div_le_lower_bound; lia.
Qed.

(** The last term: seconds and their fraction. *)
Lemma seconds_term (u d0 : Z) :
  0 <= u -> 0 <= d0 ->
  d0 + (u / 10 ^ 9) mod 60 * Second + u mod 10 ^ 9 <= 2 ^ 63 ->
  let T := fmtInt (fst (fmtFrac (B "s") u 9)) ((u / 10 ^ 9) mod 60) in
  starts_with_digit T /\ (2 <= length T)%nat
  /\ parse_term T d0 = Some ([], d0 + (u / 10 ^ 9) mod 60 * Second + u mod 10 ^ 9).
Proof.
  intros Hu Hd Hs T.
  pose proof (Z.mod_pos_bound (u / 10 ^ 9) 60 ltac:(lia)) as Hm.
  destruct (fmtFrac_parts (B "s") u 9 Hu ltac:(lia)) as [_ Hl].
  destruct (fmtInt_shape (fst (fmtFrac (B "s") u 9)) ((u / 10 ^ 9) mod 60) ltac:(lia))
    as [Sd Sl].
  change (length (B "s")) with 1%nat in Hl. subst T.
  split; [exact Sd|]. split; [lia|].
  rewrite <- (app_nil_r (B "s")) at 1.
  apply (parse_term_formatted (B "s") Second 9 [] u ((u / 10 ^ 9) mod 60) d0
           written_s).
  - now left.
  - lia.
  - now right.
  - reflexivity.
  - exact Hu.
  - split; [lia|].
    assert (60 <= 2 ^ 63 / Second) by (vm_compute; discriminate). lia.
  - exact Hd.
  - exact Hs.
Qed.

(** A duration of a second or more: up to three terms. *)
Lemma large_parsed (u : Z) :
  Second <= u <= 2 ^ 63 ->
  starts_with_digit (magnitude u) /\ (2 <= length (magnitude u))%nat
  /\ parse_terms (length (magnitude u)) (magnitude u) 0 = Some u.
Proof.
  intros Hu. unfold magnitude.
  assert (S9 : Second = 10 ^ 9) by reflexivity.
  assert (M9 : Minute = 60 * 10 ^ 9) by reflexivity.
  assert (H9 : Hour = 3600 * 10 ^ 9) by reflexivity.
  destruct (Z.ltb_spec u Second) as [|_]; [lia|].
  destruct (fmtFrac_parts (B "s") u 9 ltac:(lia) ltac:(lia)) as [Hsnd _].
  change (Z.of_nat 9) with 9 in Hsnd.
  destruct (fmtFrac (B "s") u 9) as [buf u1] eqn:EF. cbn [snd] in Hsnd. subst u1.
  assert (Hbuf : buf = fst (fmtFrac (B "s") u 9)) by now rewrite EF.
  set (u1 := u / 10 ^ 9) in *.
  assert (Hu1 : 0 <= u1) by (apply Z.div_pos; lia).
  pose proof (Z.div_mod u (10 ^ 9) ltac:(lia)) as D1. fold u1 in D1.
  pose proof (Z.mod_pos_bound u (10 ^ 9) ltac:(lia)) as R1.
  pose proof (Z.div_mod u1 60 ltac:(lia)) as D2.
  pose proof (Z.mod_pos_bound u1 60 ltac:(lia)) as R2.
  assert (Hu2 : 0 <= u1 / 60) by (apply Z.div_pos; lia).
  pose proof (Z.div_mod (u1 / 60) 60 ltac:(lia)) as D3.
  pose proof (Z.mod_pos_bound (u1 / 60) 60 ltac:(lia)) as R3.
  assert (Hu3 : 0 <= u1 / 60 / 60) by (apply Z.div_pos; lia).
  cbv zeta.
  set (T3 := fmtInt buf (u1 mod 60)).
  destruct (Z.ltb_spec 0 (u1 / 60)) as [P2|Z2].
  - set (T2 := fmtInt ("m"%byte :: T3) (u1 / 60 mod 60)).
    destruct (Z.ltb_spec 0 (u1 / 60 / 60)) as [P3|Z3].
    + (* hours, minutes, seconds *)
      set (d1 := u1 / 60 / 60 * Hour).
      set (d2 := d1 + u1 / 60 mod 60 * Minute).
      destruct (seconds_term u d2 ltac:(lia) ltac:(lia)) as (S3 & L3 & E3).
      { subst d2 d1. fold u1. lia. }
      fold u1 in S3, L3, E3. rewrite <- Hbuf in S3, L3, E3. fold T3 in S3, L3, E3.
      destruct (whole_term (B "m") Minute T3 (u1 / 60 mod 60) d1 written_m
                  (or_intror S3) ltac:(lia) ltac:(lia) ltac:(lia) ltac:(lia)
                  ltac:(subst d1; lia)) as (S2 & L2 & E2).
      change (B "m" ++ T3) with ("m"%byte :: T3) in S2, L2, E2.
      fold T2 in S2, L2, E2. fold d2 in E2.
      destruct (whole_term (B "h") Hour T2 (u1 / 60 / 60) 0 written_h
                  (or_intror S2) ltac:(lia) ltac:(lia) ltac:(lia) ltac:(lia)
                  ltac:(lia)) as (S1 & L1 & E1).
      change (B "h" ++ T2) with ("h"%byte :: T2) in S1, L1, E1.
      cbn [Z.add] in E1. fold d1 in E1.
      split; [exact S1|]. split; [lia|].
      destruct (length (fmtInt ("h"%byte :: T2) (u1 / 60 / 60)))
        as [|[|[|k]]] eqn:K; try lia.
      rewrite (parse_terms_cons _ _ _ _ _ S1 E1).
      rewrite (parse_terms_cons _ _ _ _ _ S2 E2).
      rewrite (parse_terms_cons _ _ _ _ _ S3 E3).
      rewrite parse_terms_nil. f_equal. subst d2 d1. lia.
    + (* minutes, seconds *)
      set (d2 := u1 / 60 mod 60 * Minute).
      destruct (seconds_term u d2 ltac:(lia) ltac:(lia)) as (S3 & L3 & E3).
      { subst d2. fold u1. lia. }
      fold u1 in S3, L3, E3. rewrite <- Hbuf in S3, L3, E3. fold T3 in S3, L3, E3.
      destruct (whole_term (B "m") Minute T3 (u1 / 60 mod 60) 0 written_m
                  (or_intror S3) ltac:(lia) ltac:(lia) ltac:(lia) ltac:(lia)
                  ltac:(lia)) as (S2 & L2 & E2).
      change (B "m" ++ T3) with ("m"%byte :: T3) in S2, L2, E2.
      fold T2 in S2, L2, E2. cbn [Z.add] in E2. fold d2 in E2.
      split; [exact S2|]. split; [lia|].
      destruct (length T2) as [|[|k]] eqn:K; try lia.
      rewrite (parse_terms_cons _ _ _ _ _ S2 E2).
      rewrite (parse_terms_cons _ _ _ _ _ S3 E3).
      rewrite parse_terms_nil. f_equal. subst d2. lia.
  - (* seconds *)
    destruct (seconds_term u 0 ltac:(lia) ltac:(lia)) as (S3 & L3 & E3).
    { fold u1. lia. }
    fold u1 in S3, L3, E3. rewrite <- Hbuf in S3, L3, E3. fold T3 in S3, L3, E3.
    split; [exact S3|]. split; [exact L3|].
    destruct (length T3) as [|k] eqn:K; try lia.
    rewrite (parse_terms_cons _ _ _ _ _ S3 E3).
    rewrite parse_terms_nil. f_equal. lia.
Qed.

Lemma magnitude_parsed (u : Z) :
  0 < u <= 2 ^ 63 ->
  starts_with_digit (magnitude u) /\ (2 <= length (magnitude u))%nat
  /\ parse_terms (length (magnitude u)) (magnitude u) 0 = Some u.
Proof.
  intros Hu. destruct (Z.lt_ge_cases u Second) as [Lt|Ge].
  - unfold magnitude. destruct (Z.ltb_spec u Second) as [_|]; [|lia].
    destruct (u <? Microsecond).
    + pose proof (small_parsed u 0 (B "ns") Hu ltac:(lia) written_ns) as P.
      cbv zeta in P. now destruct (fmtFrac (B "ns") u 0) as [buf u1].
    + destruct (u <? Millisecond).
      * pose proof (small_parsed u 3 (micro_sign ++ B "s") Hu ltac:(lia) written_us) as P.
        cbv zeta in P. now destruct (fmtFrac (micro_sign ++ B "s") u 3) as [buf u1].
      * pose proof (small_parsed u 6 (B "ms") Hu ltac:(lia) written_ms) as P.
        cbv zeta in P. now destruct (fmtFrac (B "ms") u 6) as [buf u1].
  - apply large_parsed. lia.
Qed.

Lemma digit_not_sign (c : byte) :
  is_digit c = true -> Byte.eqb c "-"%byte = false /\ Byte.eqb c "+"%byte = false.
Proof.
  intros H. split.
  - destruct (Byte.eqb c "-"%byte) eqn:E; [|reflexivity].
    apply byte_eqb_eq in E. now subst.
  - destruct (Byte.eqb c "+"%byte) eqn:E; [|reflexivity].
    apply byte_eqb_eq in E. now subst.
Qed.

(** The text of a magnitude is read back as the magnitude. *)
Lemma magnitude_read (u : Z) :
  0 < u <= 2 ^ 63 ->
  exists c t,
    magnitude u = c :: t
    /\ Byte.eqb c "-"%byte = false /\ Byte.eqb c "+"%byte = false
    /\ GoBytes.Equal (c :: t) (B "0") = false
    /\ parse_terms (length (c :: t)) (c :: t) 0 = Some u.
Proof.
  intros Hu. destruct (magnitude_parsed u Hu) as (S & L & P).
  destruct (magnitude u) as [|c t]; [easy|]. exists c, t.
  destruct (digit_not_sign c S) as [M Pl].
  split; [reflexivity|]. split; [exact M|]. split; [exact Pl|]. split; [|exact P].
  destruct (GoBytes.Equal (c :: t) (B "0")) eqn:E; [|reflexivity].
  apply GoBytesFacts.Equal_eq in E. rewrite E in L. cbn in L. lia.
Qed.

(** Every [int64] duration, formatted, is parsed as itself. *)
Lemma String_parsed (d : Z) :
  int64_min <= d <= int64_max -> ParseDuration (String d) = Some d.
Proof.
  unfold int64_min, int64_max. intros H.
  destruct (Z.eq_dec d 0) as [->|N]; [reflexivity|].
  pose proof (String_magnitude d) as SM. cbv zeta in SM.
  destruct (Z.ltb_spec d 0) as [Neg|Pos].
  - rewrite (Z.mod_small (- d)) in SM by lia. rewrite SM by lia.
    destruct (magnitude_read (- d) ltac:(lia)) as (c & t & -> & _ & _ & E0 & P).
    unfold ParseDuration.
    change (Byte.eqb "-" "-") with true. cbn [orb]. cbv iota beta.
    rewrite E0, P. f_equal. rewrite Z.opp_involutive.
    apply DurationFacts.wrap64_small. unfold int64_min, int64_max. lia.
  - rewrite (Z.mod_small d) in SM by lia. rewrite SM by lia.
    destruct (magnitude_read d ltac:(lia)) as (c & t & -> & M & Pl & E0 & P).
    unfold ParseDuration. rewrite M, Pl. cbn [orb]. cbv iota beta.
    rewrite E0, P.
    destruct (Z.ltb_spec (2 ^ 63 - 1) d); [lia|reflexivity].
Qed.

(** *** What the parser returns is an [int64] *)

Lemma add_term_nonneg (v f : Z) (scale : F64.t) (unit d d' : Z) :
  add_term v f scale unit d = Some d' -> 0 <= d' <= 2 ^ 63.
Proof.
  unfold add_term. destruct (2 ^ 63 / unit <? v); [discriminate|]. cbv zeta.
  match goal with |- context [(d + ?x) mod 2 ^ 64] => set (v2 := x) end.
  destruct ((0 <? f) && (2 ^ 63 <? v2)); [discriminate|].
  destruct (Z.ltb_spec (2 ^ 63) ((d + v2) mod 2 ^ 64)); [discriminate|].
  intros [= <-]. split; [|assumption]. apply Z.mod_pos_bound. lia.
Qed.

Lemma parse_term_nonneg (s s' : bytes) (d d' : Z) :
  parse_term s d = Some (s', d') -> 0 <= d' <= 2 ^ 63.
Proof.
  unfold parse_term. destruct s as [|c s0]; [discriminate|].
  destruct (negb _); [discriminate|].
  destruct (leadingInt 0 (c :: s0)) as [[v s1]|]; [|discriminate].
  destruct (fraction s1) as [[[f scale] s2] post].
  destruct (negb _ && negb post); [discriminate|].
  destruct (span_unit s2) as [u s3]. destruct u as [|cu u]; [discriminate|].
  destruct (unitMap (cu :: u)) as [unit|]; [|discriminate].
  destruct (add_term v f scale unit d) as [r|] eqn:A; [|discriminate].
  intros [= _ <-]. now apply add_term_nonneg in A.
Qed.

Lemma parse_terms_nonneg (fuel : nat) (s : bytes) (d r : Z) :
  0 <= d <= 2 ^ 63 -> parse_terms fuel s d = Some r -> 0 <= r <= 2 ^ 63.
Proof.
  revert s d. induction fuel as [|fuel IH]; intros s d Hd E.
  - destruct s; [|discriminate]. injection E as <-. exact Hd.
  - destruct s as [|c s]; [injection E as <-; exact Hd|].
    cbn [parse_terms] in E.
    destruct (parse_term (c :: s) d) as [[s' d']|] eqn:T; [|discriminate].
    apply parse_term_nonneg in T. now apply (IH s' d').
Qed.

Lemma ParseDuration_range (s : bytes) (d : Z) :
  ParseDuration s = Some d -> int64_min <= d <= int64_max.
Proof.
  unfold ParseDuration.
  destruct (match s with
            | [] => (false, s)
            | c :: s' => if Byte.eqb c "-"%byte || Byte.eqb c "+"%byte
                         then (Byte.eqb c "-"%byte, s') else (false, s)
            end) as [neg s1].
  destruct (GoBytes.Equal s1 (B "0")).
  - intros [= <-]. unfold int64_min, int64_max. lia.
  - destruct s1 as [|c1 s1]; [discriminate|].
    destruct (parse_terms (length (c1 :: s1)) (c1 :: s1) 0) as [r|] eqn:P; [|discriminate].
    apply parse_terms_nonneg in P; [|lia].
    destruct neg.
    + intros [= <-]. apply DurationFacts.wrap64_range.
    + destruct (Z.ltb_spec (2 ^ 63 - 1) r); [discriminate|].
      intros [= <-]. unfold int64_min, int64_max. lia.
Qed.

(** *** The loops of the model end before their fuel does *)

(** Twenty turns write every digit of a [uint64]: more fuel changes
    nothing. *)
Lemma fmtInt_loop_fuel (fuel k : nat) (buf : bytes) (v : Z) :
  0 <= v < 10 ^ Z.of_nat fuel ->
  fmtInt_loop (fuel + k) buf v = fmtInt_loop fuel buf v.
Proof.
  revert buf v. induction fuel as [|fuel IH]; intros buf v Hv.
  - cbn in Hv. assert (v = 0) as -> by lia. now rewrite !fmtInt_loop_zero.
  - cbn [Nat.add]. rewrite !fmtInt_loop_succ.
    destruct (Z.ltb_spec 0 v); [|reflexivity].
    apply IH. rewrite Nat2Z.inj_succ, Z.pow_succ_r in Hv by lia.
    split; [apply Z.div_pos; lia|]. apply Z.div_lt_upper_bound; lia.
Qed.

Lemma leadingInt_shorter (x : Z) (s : bytes) (v : Z) (r : bytes) :
  leadingInt x s = Some (v, r) -> (length r <= length s)%nat.
Proof.
  revert x. induction s as [|c s IH]; intros x; cbn [leadingInt].
  - intros [= _ <-]. lia.
  - destruct (negb (is_digit c)); [intros [= _ <-]; lia|].
    destruct (2 ^ 63 / 10 <? x); [discriminate|].
    destruct (2 ^ 63 <? x * 10 + Z.of_N (Byte.to_N c) - 48); [discriminate|].
    intros E. apply IH in E. cbn [length]. lia.
Qed.

Lemma leadingFraction_shorter (x : Z) (scale : F64.t) (overflow : bool) (s : bytes)
      (f : Z) (scale' : F64.t) (r : bytes) :
  leadingFraction x scale overflow s = (f, scale', r) -> (length r <= length s)%nat.
Proof.
  revert x scale overflow. induction s as [|c s IH]; intros x scale overflow;
    cbn [leadingFraction].
  - intros [= _ _ <-]. lia.
  - destruct (negb (is_digit c)); [intros [= _ _ <-]; lia|].
    cbn [length].
    destruct overflow; [intros E; apply IH in E; lia|].
    destruct ((2 ^ 63 - 1) / 10 <? x); [intros E; apply IH in E; lia|].
    destruct (2 ^ 63 <? x * 10 + Z.of_N (Byte.to_N c) - 48);
      intros E; apply IH in E; lia.
Qed.

Lemma fraction_shorter (s : bytes) (f : Z) (scale : F64.t) (r : bytes) (post : bool) :
  fraction s = (f, scale, r, post) -> (length r <= length s)%nat.
Proof.
  unfold fraction. destruct s as [|c s]; [intros [= _ _ <- _]; lia|].
  destruct (Byte.eqb c "."%byte); [|intros [= _ _ <- _]; lia].
  destruct (leadingFraction 0 (F64.of_Z 1) false s) as [[f0 sc0] r0] eqn:E.
  intros [= _ _ <- _]. apply leadingFraction_shorter in E. cbn [length]. lia.
Qed.

Lemma span_unit_length (s u r : bytes) :
  span_unit s = (u, r) -> length s = (length u + length r)%nat.
Proof.
  revert u r. induction s as [|c s IH]; intros u r; cbn [span_unit].
  - now intros [= <- <-].
  - destruct (Byte.eqb c "."%byte || is_digit c); [now intros [= <- <-]|].
    destruct (span_unit s) as [u0 r0]. intros [= <- <-].
    cbn [length]. now rewrite (IH u0 r0 eq_refl).
Qed.

(** Every term takes at least the byte of its unit. *)
Lemma parse_term_shorter (s s' : bytes) (d d' : Z) :
  parse_term s d = Some (s', d') -> (length s' < length s)%nat.
Proof.
  unfold parse_term. destruct s as [|c s0]; [discriminate|].
  destruct (negb _); [discriminate|].
  destruct (leadingInt 0 (c :: s0)) as [[v s1]|] eqn:I; [|discriminate].
  destruct (fraction s1) as [[[f scale] s2] post] eqn:F.
  destruct (negb _ && negb post); [discriminate|].
  destruct (span_unit s2) as [u s3] eqn:U. destruct u as [|cu u]; [discriminate|].
  destruct (unitMap (cu :: u)) as [unit|]; [|discriminate].
  destruct (add_term v f scale unit d) as [r|]; [|discriminate].
  intros [= <- _].
  apply leadingInt_shorter in I. apply fraction_shorter in F.
  apply span_unit_length in U. cbn [length] in *. lia.
Qed.

Lemma parse_terms_more_fuel (n fuel1 fuel2 : nat) (s : bytes) (d : Z) :
  (length s <= n)%nat -> (n <= fuel1)%nat -> (n <= fuel2)%nat ->
  parse_terms fuel1 s d = parse_terms fuel2 s d.
Proof.
  revert fuel1 fuel2 s d. induction n as [|n IH]; intros fuel1 fuel2 s d Hs H1 H2.
  - destruct s; [|cbn in Hs; lia]. now rewrite !parse_terms_nil.
  - destruct s as [|c s]; [now rewrite !parse_terms_nil|].
    destruct fuel1 as [|fuel1]; [lia|]. destruct fuel2 as [|fuel2]; [lia|].
    cbn [parse_terms].
    destruct (parse_term (c :: s) d) as [[s' d']|] eqn:T; [|reflexivity].
    apply parse_term_shorter in T. apply IH; lia.
Qed.

(** [length s] turns are enough for [s]: more fuel changes nothing. *)
Lemma parse_terms_fuel (fuel : nat) (s : bytes) (d : Z) :
  (length s <= fuel)%nat -> parse_terms fuel s d = parse_terms (length s) s d.
Proof.
  intros H. apply (parse_terms_more_fuel (length s)); lia.
Qed.

End GoTimeFacts.

(** * The claims *)

(** ** The total duration *)

(** C1, as amended: whenever the loop has processed identifiers without
    stopping, and so in every run that completes, [go] ran once for every
    identifier, every run contributed the duration of its trailer once, and
    the total, which the summary prints, is the sum of these durations in
    [int64] arithmetic: their exact sum reduced modulo 2^64 into the range of
    [int64], hence their exact sum whenever that is in the range.  This holds
    for both programs, whatever [parse.ParseLine] says of the result
    lines. *)
Theorem total_is_wrapped_sum_of_durations {X : Externals}
        (P : program) (oBenchmem : bool) (importPath : bytes) (width : Z)
        (bench : list bytes) (w : World) (p : proc) (t : Z) :
  loop P oBenchmem importPath width 0 bench (start w) = (p, Ok t) ->
  let ds := durations importPath (calls p) in
  length (calls p) = length bench
  /\ map (fun c : call => trailer_duration importPath (fst (snd c))) (calls p)
     = map Some ds
  /\ t = GoTime.wrap64 (sum ds)
  /\ (GoTime.int64_min <= sum ds <= GoTime.int64_max -> t = sum ds)
  /\ (width = Doc.max_width bench ->
      run P oBenchmem importPath bench (start w)
      = (printed p (Main.summary importPath t), Ok tt)).
Proof.
  intros L ds.
  destruct (loop_history P oBenchmem importPath _ _ _ _ _ _ L)
    as (new & Hc & _ & _ & Hn & Hd & Ht).
  cbn [start calls app] in Hc. subst ds. rewrite Hc.
  rewrite DurationFacts.fold_add_0 in Ht.
  split; [exact Hn|]. split; [apply durations_all; lia|]. split; [exact Ht|]. split.
  - intros R. rewrite Ht. now apply DurationFacts.wrap64_small.
  - intros ->. now rewrite run_loop, L.
Qed.

(** The program of README.md on two runs, the second with a result line
    that does not parse: both durations are in the total. *)
Lemma total_is_wrapped_sum_of_durations_witness :
  let bench := [B "Benchmark1"; B "Benchmark2"] in
  let r := loop readme_go false Sample.bench_path 10 0 bench
                (Sample.process Sample.garbled_runs) in
  Sample.parse_line (B "Benchmark2-4 no result") = None
  /\ durations Sample.bench_path (calls (fst r)) = [2250000000; 1021000000]
  /\ length (calls (fst r)) = 2%nat
  /\ map (fun c : call => trailer_duration Sample.bench_path (fst (snd c)))
         (calls (fst r))
     = [Some 2250000000; Some 1021000000]
  /\ 3271000000 = GoTime.wrap64 (2250000000 + (1021000000 + 0))
  /\ (GoTime.int64_min <= 2250000000 + (1021000000 + 0) <= GoTime.int64_max ->
      3271000000 = 2250000000 + (1021000000 + 0))
  /\ (10 = Doc.max_width bench ->
      run readme_go false Sample.bench_path bench (Sample.process Sample.garbled_runs)
      = (printed (fst r) (Main.summary Sample.bench_path 3271000000), Ok tt)).
Proof.
  split; [reflexivity|]. split; [reflexivity|].
  exact (total_is_wrapped_sum_of_durations (X := Sample.externals)
           readme_go false Sample.bench_path 10 [B "Benchmark1"; B "Benchmark2"]
           Sample.garbled_runs
           (fst (loop readme_go false Sample.bench_path 10 0
                      [B "Benchmark1"; B "Benchmark2"]
                      (Sample.process Sample.garbled_runs)))
           3271000000 eq_refl).
Defined.

(** C1 as stated fails on totals past the range of [int64]: two runs that
    report 2000000h each add up to 14400000000000000000 ns exactly, and the
    total the program accumulates and prints is -4046744073709551616 ns. *)
Lemma total_overflow_counterexample :
  let r := run main_go false Sample.bench_path
               [B "Benchmark1"; B "Benchmark2"] (Sample.process Sample.long_runs) in
  snd r = Ok tt
  /\ durations Sample.bench_path (calls (fst r))
     = [7200000000000000000; 7200000000000000000]
  /\ sum (durations Sample.bench_path (calls (fst r))) = 14400000000000000000
  /\ (exists p0,
         loop main_go false Sample.bench_path 10 0 [B "Benchmark1"; B "Benchmark2"]
              (Sample.process Sample.long_runs)
         = (p0, Ok (-4046744073709551616)))
  /\ stdout (fst r)
     = B "Benchmark1-4 1 7200000000000000000 ns/op" ++ [newline]
       ++ B "Benchmark2-4 1 7200000000000000000 ns/op" ++ [newline]
       ++ B "PASS" ++ [newline]
       ++ B "ok  " ++ [tab] ++ Sample.bench_path ++ [tab]
       ++ B "-1124095h34m33.709551616s" ++ [newline]
  /\ -4046744073709551616 <> 14400000000000000000.
Proof.
  cbv zeta. split; [vm_compute; reflexivity|]. split; [vm_compute; reflexivity|].
  split; [vm_compute; reflexivity|]. split; [eexists; vm_compute; reflexivity|].
  split; [vm_compute; reflexivity|]. discriminate.
Qed.

(** ** Failed runs and unparsed lines *)

(** C2: at the identifier [v], reached after the identifiers [pre] were
    processed, the run of [go] either meets one of the six conditions (an
    error from the command, fewer than three lines, a first line that does
    not start with [v], a second line other than [PASS], a third line that
    does not start with the prefix of the trailer, a duration that does not
    parse) or has the expected shape.  In the first case the whole run stops
    through [log.Fatal] right after that run of [go]: nothing is printed for
    [v] or for the identifiers after it, these are not run, and no summary is
    printed.  In the second case a result line that [parse.ParseLine] refuses
    (and every result line in main.go, which does not parse it) is printed
    as it is, and the loop goes on with the next identifier. *)
Theorem failed_run_aborts_unparsed_line_continues {X : Externals}
        (P : program) (oBenchmem : bool) (importPath : bytes)
        (pre : list bytes) (v : bytes) (post : list bytes)
        (w : World) (p : proc) (t : Z)
        (w' : World) (out : bytes) (err : option bytes) :
  let bench := pre ++ v :: post in
  let width := Doc.max_width bench in
  let a := args P oBenchmem importPath v in
  loop P oBenchmem importPath width 0 pre (start w) = (p, Ok t) ->
  CombinedOutput (world p) a = (w', (out, err)) ->
  (rejected importPath v out err \/ exists d, accepted importPath v out err d)
  /\ (forall d, accepted importPath v out err d -> ~ rejected importPath v out err)
  /\ (rejected importPath v out err ->
      exists msg p',
        run P oBenchmem importPath bench (start w) = (p', Stop (Fatal msg))
        /\ stdout p' = stdout p
        /\ calls p' = calls p ++ [(a, (out, err))])
  /\ (forall d,
        accepted importPath v out err d ->
        P = main_go \/ ParseLine (result_line out) = None ->
        loop P oBenchmem importPath width 0 bench (start w)
        = loop P oBenchmem importPath width (GoTime.add t d) post
               (printed (called p a w' (out, err)) (result_line out ++ [newline]))).
Proof.
  intros bench width a. subst bench width a. intros L C.
  set (a := args P oBenchmem importPath v) in *.
  split; [apply rejected_or_accepted|].
  split; [intros d A R; exact (rejected_not_accepted _ _ _ _ _ R A)|]. split.
  - intros R.
    destruct (loop_rejected P oBenchmem importPath
                (Doc.max_width (pre ++ v :: post)) t v post p _ _ _ C R)
      as [msg E].
    exists msg, (called p a w' (out, err)).
    split; [|split; reflexivity].
    now rewrite run_loop, loop_app, L, E.
  - intros d A V. rewrite loop_app, L.
    rewrite (loop_accepted P oBenchmem importPath _ t v post p _ _ _ _ C A).
    do 2 f_equal. destruct V as [->| V]; [reflexivity|].
    destruct P; cbn [line_text]; [reflexivity|]. now rewrite V.
Qed.

(** The program of README.md on three identifiers when the second run of
    [go] fails: one line was printed, the third identifier is never run.
    And on two identifiers when the second result line does not parse: the
    line is printed as it is and the loop goes on. *)
Lemma failed_run_aborts_unparsed_line_continues_witness :
  let p1 := fst (loop readme_go true Sample.bench_path 10 0 [B "Benchmark1"]
                      (Sample.process Sample.one_run)) in
  let p2 := fst (loop readme_go true Sample.bench_path 10 0 [B "Benchmark1"]
                      (Sample.process Sample.garbled_runs)) in
  let a := args readme_go true Sample.bench_path (B "Benchmark2") in
  let out := Sample.go_test_output (B "Benchmark2-4 no result")
                                   Sample.bench_path (B "1.021s") in
  (stdout p1
   = B "Benchmark1-4             2000        1068291 ns/op" ++ [newline]
   /\ exists msg p',
        run readme_go true Sample.bench_path
            [B "Benchmark1"; B "Benchmark2"; B "Benchmark3"]
            (Sample.process Sample.one_run)
        = (p', Stop (Fatal msg))
        /\ stdout p' = stdout p1
        /\ calls p' = calls p1 ++ [(a, ([], Some (B "exit status 1")))])
  /\ loop readme_go true Sample.bench_path 10 0 [B "Benchmark1"; B "Benchmark2"]
          (Sample.process Sample.garbled_runs)
     = loop readme_go true Sample.bench_path 10
            (GoTime.add 2250000000 1021000000) []
            (printed (called p2 a [] (out, None))
                     (B "Benchmark2-4 no result" ++ [newline])).
Proof.
  split; [split; [reflexivity|]|].
  - refine (proj1 (proj2 (proj2 (failed_run_aborts_unparsed_line_continues
             (X := Sample.externals) readme_go true Sample.bench_path
             [B "Benchmark1"] (B "Benchmark2") [B "Benchmark3"]
             Sample.one_run
             (fst (loop readme_go true Sample.bench_path 10 0 [B "Benchmark1"]
                        (Sample.process Sample.one_run)))
             2250000000 [] [] (Some (B "exit status 1")) eq_refl eq_refl))) _).
    left. discriminate.
  - refine (proj2 (proj2 (proj2 (failed_run_aborts_unparsed_line_continues
             (X := Sample.externals) readme_go true Sample.bench_path
             [B "Benchmark1"] (B "Benchmark2") []
             Sample.garbled_runs
             (fst (loop readme_go true Sample.bench_path 10 0 [B "Benchmark1"]
                        (Sample.process Sample.garbled_runs)))
             2250000000 []
             (Sample.go_test_output (B "Benchmark2-4 no result")
                                    Sample.bench_path (B "1.021s"))
             None eq_refl eq_refl))) 1021000000 _ _).
    + repeat split. cbn. lia.
    + right. reflexivity.
Defined.

(** ** The scanner *)

(** C3, as amended: for every set of source files in which each line that
    begins with [func Benchmark] has an opening parenthesis, the scanner
    returns exactly one identifier per such line: the text from the start
    of the name up to, not including, the first parenthesis; files in the
    order given, lines top to bottom, equal names kept as separate
    entries. *)
Theorem scanner_names_of_delimited_sources (sources : list bytes) :
  Scanner.well_delimited sources ->
  Scanner.scan sources = Ok (Scanner.declared_names sources)
  /\ length (Scanner.declared_names sources)
     = list_sum (map (fun src =>
                        length (filter Scanner.declares_benchmark (Scanner.lines src)))
                     sources).
Proof.
  intros W. split.
  - apply ScannerFacts.all_delimited_iff in W.
    unfold Scanner.scan. now rewrite ScannerFacts.scan_files_delimited.
  - clear W. unfold Scanner.declared_names.
    induction sources as [|src sources IH]; [reflexivity|].
    cbn [flat_map map list_sum]. now rewrite length_app, length_map, IH.
Qed.

(** Two files with the same two benchmarks: four identifiers, the repeated
    names kept. *)
Lemma scanner_names_of_delimited_sources_witness :
  Scanner.scan [Sample.two_benchmarks; Sample.two_benchmarks]
  = Ok [B "Benchmark1"; B "Benchmark2"; B "Benchmark1"; B "Benchmark2"]
  /\ length (Scanner.declared_names [Sample.two_benchmarks; Sample.two_benchmarks])
     = 4%nat.
Proof.
  exact (scanner_names_of_delimited_sources
           [Sample.two_benchmarks; Sample.two_benchmarks]
           (proj1 (ScannerFacts.all_delimited_iff
                     [Sample.two_benchmarks; Sample.two_benchmarks]) eq_refl)).
Defined.

(** C3 as stated fails: a line that begins with [func Benchmark] and has no
    parenthesis matches the convention, and the scanner returns no
    identifier for it but panics. *)
Lemma scanner_undelimited_counterexample :
  Scanner.declares_benchmark (B "func BenchmarkX") = true
  /\ Scanner.declared_names [B "func BenchmarkX"] = [B "BenchmarkX"]
  /\ Scanner.scan [B "func BenchmarkX"] = Stop Panic.
Proof. repeat split. Qed.

(** ** The ns/op value *)

(** C4, as amended: the rendering of the ns/op value with two decimals is
    cut by its last three bytes, the point and the decimals, exactly when its
    point is at an index greater than 2, that is when three or more bytes
    stand before the point: three or more integer digits, or a minus sign
    and two or more integer digits.  Otherwise it is printed as it is. *)
Theorem ns_per_op_cut_by_point_index (negative : bool) (integer decimals : bytes) :
  forallb GoTime.is_digit integer = true ->
  length decimals = 2%nat ->
  let sign := if negative then B "-" else [] in
  let s := sign ++ integer ++ "."%byte :: decimals in
  GoBytes.IndexByte s "."%byte = len sign + len integer
  /\ (3 <= len sign + len integer ->
      Doc.ns_per_op_text s = Ok (sign ++ integer)
      /\ sign ++ integer = firstn (length s - 3) s)
  /\ (len sign + len integer <= 2 -> Doc.ns_per_op_text s = Ok s).
Proof.
  intros D F sign s.
  assert (Hn : ~ In "."%byte (sign ++ integer)).
  { intros H. apply in_app_or in H as [H|H].
    - subst sign. destruct negative; cbn in H; intuition discriminate.
    - now apply digits_without_point in H. }
  assert (Hs : s = (sign ++ integer) ++ "."%byte :: decimals)
    by (subst s; now rewrite <- app_assoc).
  assert (I : GoBytes.IndexByte s "."%byte = len sign + len integer).
  { rewrite Hs, GoBytesFacts.IndexByte_first by exact Hn. apply len_app. }
  assert (Hl : (length s - 3 = length (sign ++ integer))%nat).
  { rewrite Hs, !length_app. cbn [length]. rewrite F. lia. }
  assert (Hf : firstn (length s - 3) s = sign ++ integer).
  { rewrite Hl, Hs, firstn_app, firstn_all, Nat.sub_diag. cbn [firstn].
    now rewrite app_nil_r. }
  split; [exact I|]. rewrite ns_per_op_text_shown. unfold ns_per_op_shown. rewrite I.
  split.
  - intros H. destruct (Z.ltb_spec 2 (len sign + len integer)); [|lia].
    now rewrite Hf.
  - intros H. destruct (Z.ltb_spec 2 (len sign + len integer)); [lia|reflexivity].
Qed.

(** The rendering [123456.78] of the specification, and [12.34]. *)
Lemma ns_per_op_cut_by_point_index_witness :
  (GoBytes.IndexByte (B "123456.78") "."%byte = 6
   /\ (3 <= 6 ->
       Doc.ns_per_op_text (B "123456.78") = Ok (B "123456")
       /\ B "123456" = firstn 6 (B "123456.78"))
   /\ (6 <= 2 -> Doc.ns_per_op_text (B "123456.78") = Ok (B "123456.78")))
  /\ (GoBytes.IndexByte (B "12.34") "."%byte = 2
      /\ (3 <= 2 ->
          Doc.ns_per_op_text (B "12.34") = Ok (B "12")
          /\ B "12" = firstn 2 (B "12.34"))
      /\ (2 <= 2 -> Doc.ns_per_op_text (B "12.34") = Ok (B "12.34"))).
Proof.
  split.
  - exact (ns_per_op_cut_by_point_index false (B "123456") (B "78") eq_refl eq_refl).
  - exact (ns_per_op_cut_by_point_index false (B "12") (B "34") eq_refl eq_refl).
Defined.

(** C4 as stated fails on a negative value with two integer digits: the
    integer part of [-12.34] has two digits, its point is at index 3, and
    what is printed is [-12]. *)
Lemma ns_per_op_negative_counterexample :
  length (B "12") = 2%nat
  /\ Sample.format_hundredths (-1234) = B "-" ++ B "12" ++ "."%byte :: B "34"
  /\ GoBytes.IndexByte (B "-12.34") "."%byte = 3
  /\ Doc.ns_per_op_text (B "-12.34") = Ok (B "-12")
  /\ B "-12" <> B "-12.34".
Proof. repeat split. discriminate. Qed.

(** ** The runs of the go tool *)

(** C5, as amended: the loop runs [go] once for every identifier it reaches,
    in order, and for all of them when the run completes; a run that stops
    leaves the identifiers after the failing one without a run.  The
    arguments are [test -run NONE -bench ^<identifier>$], then the import
    path in the program of README.md (main.go passes none), then
    [-benchmem] exactly when the flag is set. *)
Theorem one_invocation_per_identifier_reached {X : Externals}
        (P : program) (oBenchmem : bool) (importPath : bytes)
        (bench : list bytes) (w : World) (p : proc) (r : res unit) :
  run P oBenchmem importPath bench (start w) = (p, r) ->
  (forall v,
      args P oBenchmem importPath v
      = [B "test"; B "-run"; B "NONE"; B "-bench"; B "^" ++ v ++ B "$"]
        ++ match P with main_go => [] | readme_go => [importPath] end
        ++ (if oBenchmem then [B "-benchmem"] else []))
  /\ map fst (calls p)
     = map (args P oBenchmem importPath) (firstn (length (calls p)) bench)
  /\ (length (calls p) <= length bench)%nat
  /\ (r = Ok tt -> map fst (calls p) = map (args P oBenchmem importPath) bench).
Proof.
  intros E. split; [intros v; destruct P; reflexivity|].
  rewrite run_loop in E.
  destruct (loop P oBenchmem importPath (Doc.max_width bench) 0 bench (start w))
    as [p0 r0] eqn:L.
  destruct (loop_history P oBenchmem importPath _ _ _ _ _ _ L)
    as (new & Hc & Ha & Hl & Hr).
  cbn [start calls app] in Hc.
  assert (Hp : calls p = new).
  { destruct r0; injection E as <- <-; exact Hc. }
  rewrite Hp. split; [exact Ha|]. split; [exact Hl|].
  intros ->. destruct r0 as [t|e]; [|discriminate].
  destruct Hr as (Hn & _). rewrite Ha, Hn. now rewrite firstn_all.
Qed.

(** main.go on the two runs of its comment. *)
Lemma one_invocation_per_identifier_reached_witness :
  let r := run main_go true Sample.bench_path [B "Benchmark1"; B "Benchmark2"]
               (Sample.process Sample.two_runs) in
  let args1 := [B "test"; B "-run"; B "NONE"; B "-bench"; B "^Benchmark1$"; B "-benchmem"] in
  let args2 := [B "test"; B "-run"; B "NONE"; B "-bench"; B "^Benchmark2$"; B "-benchmem"] in
  (forall v,
      Main.args true v
      = [B "test"; B "-run"; B "NONE"; B "-bench"; B "^" ++ v ++ B "$"]
        ++ [] ++ [B "-benchmem"])
  /\ map fst (calls (fst r)) = [args1; args2]
  /\ (2 <= 2)%nat
  /\ (snd r = Ok tt -> map fst (calls (fst r)) = [args1; args2]).
Proof.
  exact (one_invocation_per_identifier_reached (X := Sample.externals)
           main_go true Sample.bench_path [B "Benchmark1"; B "Benchmark2"]
           Sample.two_runs
           (fst (run main_go true Sample.bench_path [B "Benchmark1"; B "Benchmark2"]
                     (Sample.process Sample.two_runs)))
           (snd (run main_go true Sample.bench_path [B "Benchmark1"; B "Benchmark2"]
                     (Sample.process Sample.two_runs)))
           eq_refl).
Defined.

(** C5 as stated fails twice.  The program of README.md runs [go] with
    the import path after the pattern, so its argument list is not the one
    stated.  And in main.go as in README.md an identifier after a failed run
    is not run at all: of three identifiers, with a second run that fails,
    the third has no run. *)
Lemma invocation_arguments_counterexample :
  let r := run readme_go false Sample.bench_path [B "Benchmark1"]
               (Sample.process Sample.one_run) in
  let r' := run main_go false Sample.bench_path
                [B "Benchmark1"; B "Benchmark2"; B "Benchmark3"]
                (Sample.process Sample.one_run) in
  (snd r = Ok tt
   /\ map fst (calls (fst r))
      = [ [B "test"; B "-run"; B "NONE"; B "-bench"; B "^Benchmark1$";
           Sample.bench_path] ]
   /\ [B "test"; B "-run"; B "NONE"; B "-bench"; B "^Benchmark1$"; Sample.bench_path]
      <> [B "test"; B "-run"; B "NONE"; B "-bench"; B "^Benchmark1$"])
  /\ (snd r' = Stop (Fatal (B "exit status 1"))
      /\ map fst (calls (fst r'))
         = [ [B "test"; B "-run"; B "NONE"; B "-bench"; B "^Benchmark1$"];
             [B "test"; B "-run"; B "NONE"; B "-bench"; B "^Benchmark2$"] ]).
Proof.
  cbv zeta. split; [split; [|split]|split].
  - vm_compute. reflexivity.
  - vm_compute. reflexivity.
  - discriminate.
  - vm_compute. reflexivity.
  - vm_compute. reflexivity.
Qed.

(** ** The duration of the trailer *)

(** C6: a duration that [time.ParseDuration] returns for the text after
    the prefix of a trailer, formatted as the summary formats the total, is
    a text that [time.ParseDuration] accepts, and with the same value. *)
Theorem formatted_duration_parses_again (importPath s : bytes) (d : Z) :
  let line := trailer_prefix importPath ++ s in
  GoTime.ParseDuration (skipn (length (trailer_prefix importPath)) line) = Some d ->
  GoTime.ParseDuration (GoTime.String d) = Some d.
Proof.
  intros line H. subst line.
  rewrite skipn_app, skipn_all, Nat.sub_diag in H. cbn [app skipn] in H.
  apply GoTimeFacts.String_parsed. now apply GoTimeFacts.ParseDuration_range in H.
Qed.

(** The trailer of the first run of the comment of main.go: [2.250s] is
    parsed as 2250000000 ns, formatted as [2.25s] and parsed again. *)
Lemma formatted_duration_parses_again_witness :
  GoTime.String 2250000000 = B "2.25s"
  /\ GoTime.ParseDuration (GoTime.String 2250000000) = Some 2250000000.
Proof.
  split; [reflexivity|].
  exact (formatted_duration_parses_again Sample.bench_path (B "2.250s") 2250000000
           eq_refl).
Defined.

(** ** A line without measurements *)



(** ** The scanner without a parenthesis *)

(** C9: the scanner returns identifiers exactly when every line that begins
    with [func Benchmark] has an opening parenthesis.  On a line without
    one the index is -1, the slice expression is out of range, and the
    scanner panics: it does not stop through [log.Fatal]. *)
Theorem scanner_panics_without_parenthesis (sources : list bytes) :
  ((exists bench, Scanner.scan sources = Ok bench) <-> Scanner.well_delimited sources)
  /\ (Scanner.scan sources = Stop Panic <->
      exists src line,
        In src sources /\ In line (Scanner.lines src)
        /\ Scanner.declares_benchmark line = true
        /\ ~ In Scanner.lparen line
        /\ GoBytes.IndexByte (skipn 5 line) Scanner.lparen = -1
        /\ GoBytes.slice_to (skipn 5 line) (-1) = None)
  /\ (forall msg, Scanner.scan sources <> Stop (Fatal msg)).
Proof.
  unfold Scanner.scan.
  destruct (Scanner.all_delimited sources) eqn:D.
  - pose proof (ScannerFacts.scan_files_delimited sources [] D) as E.
    rewrite E. split; [|split].
    + split; [intros _; now apply ScannerFacts.all_delimited_iff | eauto].
    + split; [discriminate|].
      intros (src & line & Hs & Hl & Hd & Hp & _).
      assert (N : Scanner.all_delimited sources = false)
        by (apply ScannerFacts.not_all_delimited_iff; now exists src, line).
      congruence.
    + discriminate.
  - pose proof (ScannerFacts.scan_files_undelimited sources [] D) as E.
    rewrite E. split; [|split].
    + split; [intros [bench H]; discriminate|].
      intros W. apply ScannerFacts.all_delimited_iff in W. congruence.
    + split; [intros _|reflexivity].
      apply ScannerFacts.not_all_delimited_iff in D
        as (src & line & Hs & Hl & Hd & Hp).
      exists src, line. repeat (split; [assumption|]).
      split; [now apply (ScannerFacts.scan_line_undelimited [])|reflexivity].
    + discriminate.
Qed.

(** ** No benchmark *)

(** C10: when the scanner finds no benchmark, both programs run [go] not
    once, print [PASS] and the trailer with the import path and [0s], and
    end without an error. *)
Theorem no_benchmarks_prints_zero_summary {X : Externals}
        (P : program) (oBenchmem : bool) (importPath : bytes)
        (testFiles : list (bytes + bytes)) (w : World) :
  Scanner.scan_files [] testFiles = Ok [] ->
  main P oBenchmem importPath testFiles (start w)
  = ({| world := w;
        calls := [];
        stdout := B "PASS" ++ [newline]
                  ++ B "ok  " ++ [tab] ++ importPath ++ [tab] ++ B "0s" ++ [newline] |},
     Ok tt).
Proof.
  intros E. rewrite (main_run P oBenchmem importPath testFiles [] _ E).
  rewrite run_loop, loop_nil. reflexivity.
Qed.

(** A package whose test file declares a test and no benchmark. *)
Lemma no_benchmarks_prints_zero_summary_witness :
  main (X := Sample.externals) main_go false Sample.bench_path
       [inl (B "package bench" ++ [newline] ++ B "func TestScan(t *testing.T) {}")]
       (Sample.process Sample.two_runs)
  = (@Build_proc Sample.externals Sample.two_runs []
        (B "PASS" ++ [newline]
         ++ B "ok  " ++ [tab] ++ Sample.bench_path ++ [tab] ++ B "0s" ++ [newline]),
     Ok tt).
Proof.
  exact (no_benchmarks_prints_zero_summary (X := Sample.externals)
           main_go false Sample.bench_path
           [inl (B "package bench" ++ [newline] ++ B "func TestScan(t *testing.T) {}")]
           Sample.two_runs eq_refl).
Defined.

(** * Further properties *)

(** ** More of the scanner *)

Module ScannerMore.
Import GoBytes GoBytesFacts Scanner ScannerFacts.

(** No piece of [bytes.Split] holds the separator. *)
Lemma Split_pieces (s : bytes) (sep : byte) (piece : bytes) :
  In piece (Split s sep) -> ~ In sep piece.
Proof.
  revert piece. induction s as [|x s IH]; intros piece; cbn [Split].
  - intros [<-|[]]. easy.
  - destruct (Byte.eqb x sep) eqn:E.
    + intros [<-|H]; [easy | now apply IH].
    + apply byte_eqb_neq in E.
      destruct (Split s sep) as [|p ps]; cbn [In].
      * intros [<-|[]]. cbn. intuition.
      * intros [<-|H].
        -- specialize (IH p (or_introl eq_refl)). cbn. intuition.
        -- apply IH. now right.
Qed.

Lemma text_before_incl (c : byte) (s : bytes) (x : byte) :
  In x (text_before c s) -> In x s.
Proof.
  induction s as [|y s IH]; cbn; [easy|].
  destruct (Byte.eqb y c); cbn; [easy|]. intuition.
Qed.

Lemma In_skipn {A : Type} (n : nat) (l : list A) (x : A) :
  In x (skipn n l) -> In x l.
Proof.
  revert l. induction n as [|n IH]; intros [|y l]; cbn; auto.
Qed.

(** The name of a declaring line begins with [Benchmark]. *)
Lemma declared_name_prefix (v : bytes) :
  declares_benchmark v = true -> HasPrefix (declared_name v) (B "Benchmark") = true.
Proof.
  intros D. apply HasPrefix_inv in D. unfold declared_name. rewrite D.
  cbn [B list_byte_of_string app skipn text_before]. cbn. reflexivity.
Qed.

(** What a line adds to the identifiers. *)
Lemma scan_line_result (bench bench' : list bytes) (v : bytes) :
  scan_line bench v = Ok bench' ->
  bench' = bench
  \/ (declares_benchmark v = true /\ In lparen v /\ bench' = bench ++ [declared_name v]).
Proof.
  intros E. destruct (declares_benchmark v) eqn:D.
  - destruct (existsb (Byte.eqb lparen) v) eqn:P.
    + apply existsb_In in P. rewrite (scan_line_declaring bench v D P) in E.
      injection E as <-. right. auto.
    + assert (N : ~ In lparen v) by (rewrite <- existsb_In; congruence).
      destruct (scan_line_undelimited bench v D N) as [_ E']. congruence.
  - rewrite (scan_line_other bench v D) in E. injection E as <-. now left.
Qed.

Lemma scan_lines_names (a : list bytes) (bench bench' : list bytes) :
  (forall v, In v a -> ~ In newline v) ->
  Forall benchmark_name bench ->
  scan_lines bench a = Ok bench' -> Forall benchmark_name bench'.
Proof.
  revert bench. induction a as [|v a IH]; intros bench Ha Hb; cbn [scan_lines].
  - now intros [= <-].
  - destruct (scan_line bench v) as [b1|e] eqn:E; cbn [res_bind]; [|discriminate].
    apply IH; [intros u Hu; apply Ha; now right|].
    apply scan_line_result in E as [->|(D & P & ->)]; [exact Hb|].
    apply Forall_app. split; [exact Hb|]. constructor; [|constructor].
    split; [now apply declared_name_prefix|]. split.
    + apply text_before_notin.
    + intros H. apply text_before_incl, In_skipn in H.
      now apply (Ha v (or_introl eq_refl)).
Qed.

Lemma scan_files_names (testFiles : list (bytes + bytes)) (bench bench' : list bytes) :
  Forall benchmark_name bench ->
  scan_files bench testFiles = Ok bench' -> Forall benchmark_name bench'.
Proof.
  revert bench. induction testFiles as [|r rest IH]; intros bench Hb; cbn [scan_files].
  - now intros [= <-].
  - destruct (scan_file bench r) as [b1|e] eqn:E; cbn [res_bind]; [|discriminate].
    apply IH. destruct r as [b|err]; cbn [scan_file] in E; [|discriminate].
    apply (scan_lines_names _ _ _ (fun v H => Split_pieces b newline v H) Hb E).
Qed.

(** The identifiers found so far do not change what the scanner makes of
    the lines and files to come. *)
Lemma scan_lines_from (a : list bytes) (bench : list bytes) :
  scan_lines bench a = res_bind (scan_lines [] a) (fun b => Ok (bench ++ b)).
Proof.
  revert bench. induction a as [|v a IH]; intros bench; cbn [scan_lines res_bind].
  - now rewrite app_nil_r.
  - destruct (declares_benchmark v) eqn:D.
    + destruct (existsb (Byte.eqb lparen) v) eqn:P.
      * apply existsb_In in P. rewrite !(scan_line_declaring _ v D P).
        cbn [res_bind app]. rewrite (IH (bench ++ _)), (IH [_]).
        destruct (scan_lines [] a); cbn [res_bind]; [|reflexivity].
        now rewrite <- app_assoc.
      * assert (N : ~ In lparen v) by (rewrite <- existsb_In; congruence).
        destruct (scan_line_undelimited bench v D N) as [_ ->].
        destruct (scan_line_undelimited [] v D N) as [_ ->]. reflexivity.
    + rewrite !(scan_line_other _ v D). cbn [res_bind]. apply IH.
Qed.

Lemma scan_files_from (testFiles : list (bytes + bytes)) (bench : list bytes) :
  scan_files bench testFiles
  = res_bind (scan_files [] testFiles) (fun b => Ok (bench ++ b)).
Proof.
  revert bench. induction testFiles as [|r rest IH]; intros bench;
    cbn [scan_files res_bind].
  - now rewrite app_nil_r.
  - destruct r as [b|err]; cbn [scan_file]; [|reflexivity].
    rewrite (scan_lines_from _ bench).
    destruct (scan_lines [] (Split b newline)) as [b1|e]; cbn [res_bind app];
      [|reflexivity].
    rewrite (IH (bench ++ b1)), (IH b1).
    destruct (scan_files [] rest); cbn [res_bind]; [|reflexivity].
    now rewrite <- app_assoc.
Qed.

Lemma scan_files_app (f1 f2 : list (bytes + bytes)) (bench : list bytes) :
  scan_files bench (f1 ++ f2)
  = res_bind (scan_files bench f1) (fun b1 => scan_files b1 f2).
Proof.
  revert bench. induction f1 as [|r f1 IH]; intros bench; cbn [app scan_files res_bind].
  - reflexivity.
  - destruct (scan_file bench r); cbn [res_bind]; [apply IH | reflexivity].
Qed.

End ScannerMore.

(** X1: every identifier the scanner returns begins with [Benchmark] and
    holds neither an opening parenthesis nor a newline. *)
Theorem scanned_identifiers_are_names (testFiles : list (bytes + bytes))
        (bench : list bytes) (v : bytes) :
  Scanner.scan_files [] testFiles = Ok bench -> In v bench ->
  GoBytes.HasPrefix v (B "Benchmark") = true
  /\ ~ In Scanner.lparen v
  /\ ~ In newline v.
Proof.
  intros E H.
  pose proof (ScannerMore.scan_files_names testFiles [] bench (Forall_nil _) E) as F.
  rewrite Forall_forall in F. exact (F v H).
Qed.

Lemma scanned_identifiers_are_names_witness :
  GoBytes.HasPrefix (B "Benchmark2") (B "Benchmark") = true
  /\ ~ In Scanner.lparen (B "Benchmark2")
  /\ ~ In newline (B "Benchmark2").
Proof.
  apply (scanned_identifiers_are_names [inl Sample.two_benchmarks]
           [B "Benchmark1"; B "Benchmark2"] (B "Benchmark2") eq_refl).
  right. left. reflexivity.
Defined.

(** X2: scanning files one after the other is scanning them apart and
    appending the identifiers; a file that stops the scanner (a read error,
    a declaring line without parenthesis) stops it whatever comes after,
    and nothing after it is looked at. *)
Theorem scanner_appends_file_by_file (f1 f2 : list (bytes + bytes)) :
  Scanner.scan_files [] (f1 ++ f2)
  = match Scanner.scan_files [] f1 with
    | Ok b1 =>
      match Scanner.scan_files [] f2 with
      | Ok b2 => Ok (b1 ++ b2)
      | Stop e => Stop e
      end
    | Stop e => Stop e
    end.
Proof.
  rewrite ScannerMore.scan_files_app.
  destruct (Scanner.scan_files [] f1) as [b1|e]; cbn [res_bind]; [|reflexivity].
  rewrite ScannerMore.scan_files_from.
  now destruct (Scanner.scan_files [] f2).
Qed.

(** ** More of the runs *)

Module SplitFacts.
Import GoBytes.

Lemma Split_whole (l : bytes) (sep : byte) : ~ In sep l -> Split l sep = [l].
Proof.
  induction l as [|x l IH]; intros H; cbn [Split]; [reflexivity|].
  destruct (Byte.eqb x sep) eqn:E.
  - apply byte_eqb_eq in E. subst. exfalso. apply H. now left.
  - rewrite IH by (intros ?; apply H; now right). reflexivity.
Qed.

Lemma Split_first (l r : bytes) (sep : byte) :
  ~ In sep l -> Split (l ++ sep :: r) sep = l :: Split r sep.
Proof.
  induction l as [|x l IH]; intros H; cbn [app Split].
  - now rewrite byte_eqb_refl.
  - destruct (Byte.eqb x sep) eqn:E.
    + apply byte_eqb_eq in E. subst. exfalso. apply H. now left.
    + rewrite IH by (intros ?; apply H; now right). reflexivity.
Qed.

End SplitFacts.

Section OutputFacts.
Context {X : Externals}.
Variables (P : program) (oBenchmem : bool) (importPath : bytes) (width : Z).

(** What the loop prints: the line of every run of [go] it accepted, in
    order, and nothing for the run that stopped it. *)
Lemma loop_output (bench : list bytes) (t : Z) (p p' : proc) (r : res Z) :
  loop P oBenchmem importPath width t bench p = (p', r) ->
  exists new,
    calls p' = calls p ++ new
    /\ stdout p'
       = stdout p
         ++ concat (map (fun c : call => line_text P width (result_line (fst (snd c))))
                        (match r with Ok _ => new | Stop _ => removelast new end))
    /\ match r with Ok _ => True | Stop _ => new <> [] end.
Proof.
  revert t p. induction bench as [|v bench IH]; intros t p E.
  - rewrite loop_nil in E. injection E as <- <-. exists [].
    cbn. now rewrite !app_nil_r.
  - destruct (CombinedOutput (world p) (args P oBenchmem importPath v))
      as [w [out err]] eqn:C.
    destruct (rejected_or_accepted importPath v out err) as [R|[d A]].
    + destruct (loop_rejected P oBenchmem importPath width t v bench p _ _ _ C R)
        as [msg E'].
      rewrite E' in E. injection E as <- <-.
      exists [(args P oBenchmem importPath v, (out, err))].
      cbn. rewrite app_nil_r. repeat split. discriminate.
    + rewrite (loop_accepted P oBenchmem importPath width t v bench p _ _ _ _ C A) in E.
      apply IH in E as (new & Hc & Ho & Hn).
      exists ((args P oBenchmem importPath v, (out, err)) :: new).
      cbn [printed called calls stdout] in Hc, Ho. rewrite Hc, Ho, <- !app_assoc.
      split; [reflexivity|]. split.
      * f_equal. destruct r as [t'|e]; [reflexivity|].
        destruct new as [|c new]; [easy|]. reflexivity.
      * destruct r; [exact I | discriminate].
Qed.

End OutputFacts.

(** X3: the standard output of a run from the identifiers on.  It holds one
    line for every run of [go] that was accepted, in order: the result line
    as it is in main.go, and in README.md as it is or formatted; after
    them, when the run completes, [PASS] and the trailer with the wrapped sum
    of the durations.  When a run of [go] is refused, nothing is printed for
    it or after it. *)
Theorem output_is_one_line_per_accepted_run {X : Externals}
        (P : program) (oBenchmem : bool) (importPath : bytes)
        (bench : list bytes) (w : World) :
  let '(p, r) := run P oBenchmem importPath bench (start w) in
  let line (c : call) :=
    line_text P (Doc.max_width bench) (result_line (fst (snd c))) in
  match r with
  | Ok _ =>
    length (calls p) = length bench
    /\ stdout p
       = concat (map line (calls p))
         ++ B "PASS" ++ [newline]
         ++ B "ok  " ++ [tab] ++ importPath ++ [tab]
         ++ GoTime.String (GoTime.wrap64 (sum (durations importPath (calls p))))
         ++ [newline]
  | Stop _ =>
    (0 < length (calls p) <= length bench)%nat
    /\ stdout p = concat (map line (removelast (calls p)))
  end.
Proof.
  rewrite run_loop.
  destruct (loop P oBenchmem importPath (Doc.max_width bench) 0 bench (start w))
    as [p r] eqn:L.
  destruct (loop_history P oBenchmem importPath _ _ _ _ _ _ L)
    as (new & Hc & _ & Hl & Hr).
  destruct (loop_output P oBenchmem importPath _ _ _ _ _ _ L)
    as (new' & Hc' & Ho & Hn).
  cbn [start calls stdout app] in Hc, Hc', Ho. subst new new'.
  destruct r as [t|e].
  - destruct Hr as (H1 & _ & Ht). cbn [printed calls stdout].
    split; [exact H1|]. rewrite Ho, Ht, DurationFacts.fold_add_0.
    unfold Main.summary. rewrite <- ?app_assoc. reflexivity.
  - split; [|exact Ho]. destruct (calls p); [easy | cbn [length] in *; lia].
Qed.

(** X4: after the scanner, neither program panics: the slice of the
    trailer is taken after the check of its prefix, and the ns/op text is cut
    only when its point is past index 2.  A whole run panics exactly when
    the scanner does. *)
Theorem only_the_scanner_panics {X : Externals}
        (P : program) (oBenchmem : bool) (importPath : bytes)
        (testFiles : list (bytes + bytes)) (bench : list bytes) (p : proc) :
  snd (run P oBenchmem importPath bench p) <> Stop Panic
  /\ (snd (main P oBenchmem importPath testFiles p) = Stop Panic
      <-> Scanner.scan_files [] testFiles = Stop Panic).
Proof.
  assert (R : forall bench, snd (run P oBenchmem importPath bench p) <> Stop Panic).
  { intros b. rewrite run_loop.
    destruct (loop P oBenchmem importPath (Doc.max_width b) 0 b p) as [p' r] eqn:L.
    destruct (loop_history P oBenchmem importPath _ _ _ _ _ _ L)
      as (new & _ & _ & _ & Hr).
    destruct r as [t|e]; cbn [snd]; [discriminate|].
    destruct Hr as [msg ->]. discriminate. }
  split; [apply R|].
  destruct (Scanner.scan_files [] testFiles) as [b|e] eqn:E.
  - rewrite (main_run P oBenchmem importPath testFiles b p E).
    split; [intros H; now apply R in H | discriminate].
  - assert (M : main P oBenchmem importPath testFiles p = (p, Stop e)).
    { destruct P; cbn [main]; unfold Main.main, Doc.main;
        rewrite bind_run; unfold lift; now rewrite E. }
    rewrite M. cbn [snd]. split; intros [= ->]; reflexivity.
Qed.



(** X6: when the command fails, the program stops with the text of the
    error alone: the output of the command is not looked at, whatever its
    shape, and is not part of the message. *)
Theorem command_error_discards_output {X : Externals}
        (P : program) (oBenchmem : bool) (importPath : bytes) (width t : Z)
        (v : bytes) (rest : list bytes) (p : proc)
        (w' : World) (out e : bytes) :
  CombinedOutput (world p) (args P oBenchmem importPath v) = (w', (out, Some e)) ->
  loop P oBenchmem importPath width t (v :: rest) p
  = (called p (args P oBenchmem importPath v) w' (out, Some e), Stop (Fatal e)).
Proof.
  intros C. destruct P; cbn [loop args Main.loop Doc.loop] in *;
    rewrite bind_run; unfold Main.body, Doc.body; rewrite bind_run;
    unfold go_test; rewrite bind_run; unfold go; rewrite C; reflexivity.
Qed.

Lemma command_error_discards_output_witness :
  loop (X := Sample.externals) main_go false Sample.bench_path 0 0
       [B "Benchmark1"; B "Benchmark2"] (Sample.process [])
  = (called (Sample.process []) (Main.args false (B "Benchmark1")) []
            ([], Some (B "exit status 1")),
     Stop (Fatal (B "exit status 1"))).
Proof.
  exact (command_error_discards_output (X := Sample.externals) main_go false
           Sample.bench_path 0 0 (B "Benchmark1") [B "Benchmark2"]
           (Sample.process []) [] [] (B "exit status 1") eq_refl).
Defined.

(** X7: the check of the output looks at its first three lines only: what
    follows the newline after the third line changes neither whether the
    output is accepted nor the result line and the duration taken from it. *)
Theorem output_after_third_line_is_ignored (importPath v l0 l1 l2 rest : bytes) :
  ~ In newline l0 -> ~ In newline l1 -> ~ In newline l2 ->
  let out := l0 ++ newline :: l1 ++ newline :: l2 in
  forall r,
    check_output importPath v (out ++ newline :: rest) = Ok r
    <-> check_output importPath v out = Ok r.
Proof.
  intros H0 H1 H2 out r. subst out.
  unfold check_output. cbv zeta.
  repeat (rewrite <- app_assoc; cbn [app]).
  rewrite !(SplitFacts.Split_first l0), !(SplitFacts.Split_first l1) by assumption.
  rewrite (SplitFacts.Split_first l2), (SplitFacts.Split_whole l2) by assumption.
  unfold len_lines, nth_line. cbn [length nth].
  destruct (Z.ltb_spec (Z.of_nat (S (S (S (length (GoBytes.Split rest newline)))))) 3);
    [lia|].
  cbn [Z.of_nat Pos.of_succ_nat Pos.succ Z.ltb Z.compare Pos.compare Pos.compare_cont].
  destruct (negb (GoBytes.HasPrefix l0 v) || negb (GoBytes.Equal l1 (B "PASS"))
            || negb (GoBytes.HasPrefix l2 (trailer_prefix importPath)));
    [split; discriminate|].
  destruct (checked (GoBytes.slice_from l2 (len (trailer_prefix importPath))))
    as [s|e]; cbn [res_bind]; [|reflexivity].
  destruct (GoTime.ParseDuration s); [reflexivity | split; discriminate].
Qed.

Lemma output_after_third_line_is_ignored_witness :
  let out :=
    B "Benchmark1-4 2000 1068291 ns/op" ++ newline :: B "PASS" ++ newline
      :: B "ok  " ++ tab :: Sample.bench_path ++ tab :: B "2.250s" in
  let r := (B "Benchmark1-4 2000 1068291 ns/op", 2250000000) in
  (check_output Sample.bench_path (B "Benchmark1")
                (out ++ newline :: B "Benchmark1-4 1 1 ns/op") = Ok r
   <-> check_output Sample.bench_path (B "Benchmark1") out = Ok r)
  /\ check_output Sample.bench_path (B "Benchmark1") out = Ok r.
Proof.
  split; [|reflexivity].
  apply (output_after_third_line_is_ignored Sample.bench_path (B "Benchmark1")
           (B "Benchmark1-4 2000 1068291 ns/op") (B "PASS")
           (B "ok  " ++ tab :: Sample.bench_path ++ tab :: B "2.250s")
           (B "Benchmark1-4 1 1 ns/op"));
    cbn; intuition discriminate.
Defined.

(** X16: an output of the shape [go test] gives it, the result line,
    [PASS] and the trailer [ok], two blanks, a tab, the import path, a tab
    and the duration, each ended by a newline, is accepted when the result
    line begins with the identifier and the duration is one
    [time.ParseDuration] reads; the line and the duration are those of the
    output, whatever follows the trailer. *)
Theorem documented_output_is_accepted
        (importPath v line duration rest : bytes) (d : Z) :
  GoBytes.HasPrefix line v = true ->
  ~ In newline line -> ~ In newline importPath -> ~ In newline duration ->
  GoTime.ParseDuration duration = Some d ->
  check_output importPath v (Sample.go_test_output line importPath duration ++ rest)
  = Ok (line, d).
Proof.
  intros Hv Hl Hi Hd Hp.
  assert (Ht : ~ In newline (trailer_prefix importPath ++ duration)).
  { unfold trailer_prefix. rewrite !in_app_iff. cbn. intuition discriminate. }
  assert (E : Sample.go_test_output line importPath duration ++ rest
              = line ++ newline :: B "PASS" ++ newline
                  :: (trailer_prefix importPath ++ duration) ++ newline :: rest).
  { unfold Sample.go_test_output, trailer_prefix.
    repeat (rewrite <- app_assoc; cbn [app]). reflexivity. }
  unfold check_output. cbv zeta. rewrite E.
  rewrite (SplitFacts.Split_first line) by exact Hl.
  rewrite (SplitFacts.Split_first (B "PASS")) by (cbn; intuition discriminate).
  rewrite (SplitFacts.Split_first _ _ _ Ht).
  unfold len_lines, nth_line. cbn [length nth].
  destruct (Z.ltb_spec (Z.of_nat (S (S (S (length (GoBytes.Split rest newline)))))) 3);
    [lia|].
  rewrite Hv, GoBytesFacts.Equal_refl, GoBytesFacts.HasPrefix_app. cbn [negb orb].
  rewrite GoBytesFacts.slice_from_prefix. cbn [checked res_bind].
  now rewrite Hp.
Qed.

Lemma documented_output_is_accepted_witness :
  check_output Sample.bench_path (B "Benchmark1")
    (Sample.go_test_output (B "Benchmark1-4 2000 1068291 ns/op") Sample.bench_path
                           (B "2.250s") ++ [])
  = Ok (B "Benchmark1-4 2000 1068291 ns/op", 2250000000).
Proof.
  apply (documented_output_is_accepted Sample.bench_path (B "Benchmark1")
           (B "Benchmark1-4 2000 1068291 ns/op") (B "2.250s") [] 2250000000 eq_refl);
    try reflexivity; cbn; intuition discriminate.
Defined.

(** ** [defaultTags] *)

Module TagsFacts.
Import GoBytes GoBytesFacts GoTime.

Lemma outer_range (v : bytes) : 0 <= outer v <= len v.
Proof.
  induction v as [|c v IH]; cbn [outer].
  - unfold len. cbn. lia.
  - rewrite len_cons. destruct (numeric c); lia.
Qed.

(** [v[:i]] after the loop is the number of the version. *)
Lemma slice_to_outer (v : bytes) : slice_to v (outer v) = Some (number v).
Proof.
  unfold slice_to. pose proof (outer_range v) as R.
  destruct (Z.leb_spec 0 (outer v)); [|lia].
  destruct (Z.leb_spec (outer v) (len v)); [|lia].
  cbn [andb]. f_equal. clear.
  induction v as [|c v IH]; cbn [outer number]; [reflexivity|].
  destruct (numeric c); [|reflexivity].
  pose proof (outer_range v).
  replace (Z.to_nat (1 + outer v)) with (S (Z.to_nat (outer v))) by lia.
  cbn [firstn]. now rewrite IH.
Qed.

Lemma number_app (num rest : bytes) :
  forallb numeric num = true -> number (num ++ rest) = num ++ number rest.
Proof.
  induction num as [|c num IH]; cbn [forallb app number]; [reflexivity|].
  intros H. apply andb_true_iff in H as [-> H]. now rewrite IH.
Qed.

Lemma number_after (rest : bytes) : after_number rest = true -> number rest = [].
Proof.
  destruct rest as [|c rest]; cbn [after_number number]; [reflexivity|].
  now intros ->%negb_true_iff.
Qed.

Lemma digit_numeric (c : byte) : is_digit c = true -> numeric c = true.
Proof. unfold numeric. now intros ->. Qed.

Lemma digits_numeric (a : bytes) :
  forallb is_digit a = true -> forallb numeric a = true.
Proof.
  induction a as [|c a IH]; cbn [forallb]; [reflexivity|].
  intros H. apply andb_true_iff in H as [Hc Ha].
  now rewrite (digit_numeric c Hc), IH.
Qed.

(** [defaultTags] on a version that begins with [go]: the number after
    it decides. *)
Lemma defaultTags_number (fused : bool) (int_of_large : F64.t -> Z) (rest : bytes) :
  defaultTags fused int_of_large (B "go" ++ rest)
  = match number rest with
    | [] => Stop Panic
    | _ :: _ =>
      match GoStrconv.ParseFloat (number rest) with
      | None => Stop Panic
      | Some n => Ok (tags_to (Z.rem (int int_of_large (ten_n_and_half fused n)) 10))
      end
    end.
Proof.
  unfold defaultTags. rewrite HasPrefix_app. cbn [negb].
  rewrite slice_from_prefix. cbn [checked res_bind].
  rewrite slice_to_outer. cbn [checked res_bind].
  destruct (number rest); reflexivity.
Qed.

(** The digits at the front of a text. *)
Lemma digits_front (a r : bytes) (x : Z) :
  forallb is_digit a = true ->
  exists V,
    GoStrconv.digits x (a ++ r)
    = (let '(v, n, rest) := GoStrconv.digits V r in (v, n + len a, rest)).
Proof.
  revert x. induction a as [|c a IH]; intros x H; cbn [forallb app] in *.
  - exists x. destruct (GoStrconv.digits x r) as [[v n] rest].
    unfold len. cbn. now rewrite Z.add_0_r.
  - apply andb_true_iff in H as [Hc Ha]. cbn [GoStrconv.digits]. rewrite Hc.
    destruct (IH (x * 10 + (Z.of_N (Byte.to_N c) - 48)) Ha) as [V E].
    exists V. rewrite E. destruct (GoStrconv.digits V r) as [[v n] rest].
    rewrite len_cons. f_equal. f_equal. lia.
Qed.

Lemma digits_point (x : Z) (r : bytes) :
  GoStrconv.digits x ("."%byte :: r) = (x, 0, "."%byte :: r).
Proof. reflexivity. Qed.

(** A second point is an error of syntax. *)
Lemma ParseFloat_two_points (a b more : bytes) :
  forallb is_digit a = true -> forallb is_digit b = true ->
  GoStrconv.ParseFloat (a ++ "."%byte :: b ++ "."%byte :: more) = None.
Proof.
  intros Ha Hb. unfold GoStrconv.ParseFloat.
  destruct (digits_front a ("."%byte :: b ++ "."%byte :: more) 0 Ha) as [V1 ->].
  rewrite digits_point. cbn [Byte.eqb].
  change (Byte.eqb "." ".") with true. cbv iota.
  destruct (digits_front b ("."%byte :: more) V1 Hb) as [V2 ->].
  rewrite digits_point. reflexivity.
Qed.

Lemma firstn_seq_le (k n start : nat) :
  (k <= n)%nat -> firstn k (seq start n) = seq start k.
Proof.
  revert n start. induction k as [|k IH]; intros [|n] start H; cbn; try easy; try lia.
  f_equal. apply IH. lia.
Qed.

Lemma tags_to_go1 (last : Z) :
  last <= 9 -> tags_to last = firstn (Z.to_nat last) go1_tags.
Proof.
  intros H. change go1_tags with (tags_to 9). unfold tags_to.
  rewrite firstn_map, firstn_seq_le by lia. reflexivity.
Qed.

Lemma digit_value_In (d : Z) : 0 <= d < 10 -> In d digit_values.
Proof. intros H. unfold digit_values. cbn [In]. lia. Qed.

(** The versions with a number of two digits around a point, on both kinds
    of platform: [10*n+.5] is below 2^31 and its integer part ends in the
    second digit. *)
Lemma release_table :
  forallb (fun fused =>
    forallb (fun K =>
      forallb (fun N =>
        match GoStrconv.ParseFloat [digit K; "."%byte; digit N] with
        | Some n =>
          match Float.trunc (ten_n_and_half fused n) with
          | Some z => (z <? 2 ^ 31) && (Z.rem z 10 =? N)
          | None => false
          end
        | None => false
        end) digit_values) digit_values) [true; false] = true.
Proof. vm_compute. reflexivity. Qed.

(** The same with a third digit, which rounds the second. *)
Lemma minor_table :
  forallb (fun fused =>
    forallb (fun K =>
      forallb (fun N =>
        forallb (fun M =>
          match GoStrconv.ParseFloat [digit K; "."%byte; digit N; digit M] with
          | Some n =>
            match Float.trunc (ten_n_and_half fused n) with
            | Some z =>
              (z <? 2 ^ 31)
              && (Z.rem z 10 =? (N + (if 5 <=? M then 1 else 0)) mod 10)
            | None => false
            end
          | None => false
          end) digit_values) digit_values) digit_values) [true; false] = true.
Proof. vm_compute. reflexivity. Qed.

(** The number of a point release is refused. *)
Lemma defaultTags_point_release
      (fused : bool) (int_of_large : F64.t -> Z) (major minor rest : bytes) :
  forallb is_digit major = true ->
  forallb is_digit minor = true ->
  defaultTags fused int_of_large
    (B "go" ++ major ++ "."%byte :: minor ++ "."%byte :: rest)
  = Stop Panic.
Proof.
  intros Ha Hb. rewrite defaultTags_number.
  assert (E : number (major ++ "."%byte :: minor ++ "."%byte :: rest)
              = major ++ "."%byte :: minor ++ "."%byte :: number rest).
  { rewrite number_app by now apply digits_numeric.
    f_equal. cbn [number]. change (numeric ".") with true. cbv iota. f_equal.
    rewrite number_app by now apply digits_numeric.
    reflexivity. }
  rewrite E, (ParseFloat_two_points _ _ _ Ha Hb).
  destruct major; reflexivity.
Qed.

Lemma int_small (int_of_large : F64.t -> Z) (x : F64.t) (z : Z) :
  Float.trunc x = Some z -> (z <? 2 ^ 31) = true -> int int_of_large x = z.
Proof. intros T L. unfold int. now rewrite T, L. Qed.

End TagsFacts.

(** X8: on a version with a second point in its number, as every point
    release has ([go1.7.3]), [defaultTags] panics: [strconv.ParseFloat]
    refuses the number. *)
Theorem defaultTags_panics_on_point_release
        (fused : bool) (int_of_large : F64.t -> Z) (major minor rest : bytes) :
  forallb GoTime.is_digit major = true ->
  forallb GoTime.is_digit minor = true ->
  defaultTags fused int_of_large
    (B "go" ++ major ++ "."%byte :: minor ++ "."%byte :: rest)
  = Stop Panic.
Proof.
  apply TagsFacts.defaultTags_point_release.
Qed.

Lemma defaultTags_panics_on_point_release_witness :
  defaultTags false Amd64.int_of_large (B "go1.7.3") = Stop Panic.
Proof.
  exact (defaultTags_panics_on_point_release false Amd64.int_of_large
           (B "1") (B "7") (B "3") eq_refl eq_refl).
Defined.

(** X9: [defaultTags] panics on a version that does not begin with [go],
    as that of a development build ([devel +...]), and on one with neither a
    digit nor a point right after [go]. *)
Theorem defaultTags_panics_without_number
        (fused : bool) (int_of_large : F64.t -> Z) (v : bytes) :
  GoBytes.HasPrefix v (B "go") = false
  \/ (exists rest, v = B "go" ++ rest /\ after_number rest = true) ->
  defaultTags fused int_of_large v = Stop Panic.
Proof.
  intros [H|(rest & -> & H)].
  - unfold defaultTags. now rewrite H.
  - rewrite TagsFacts.defaultTags_number, (TagsFacts.number_after rest H).
    reflexivity.
Qed.

Lemma defaultTags_panics_without_number_witness :
  defaultTags true Amd64.int_of_large (B "devel +5e7d5bd Tue Mar 1 2016") = Stop Panic
  /\ defaultTags true Amd64.int_of_large (B "gotip") = Stop Panic.
Proof.
  split.
  - apply (defaultTags_panics_without_number true Amd64.int_of_large). now left.
  - apply (defaultTags_panics_without_number true Amd64.int_of_large). right.
    exists (B "tip"). now split.
Defined.

(** X10: whatever the version and the platform, the tags [defaultTags]
    returns are the first of [go1.1] ... [go1.9], in order: it never returns a
    tag of a release after Go 1.9. *)
Theorem defaultTags_stops_at_go1_9
        (fused : bool) (int_of_large : F64.t -> Z) (v : bytes) (tags : list bytes) :
  defaultTags fused int_of_large v = Ok tags ->
  exists k, (k <= 9)%nat /\ tags = firstn k go1_tags.
Proof.
  intros E. unfold defaultTags in E.
  destruct (negb (GoBytes.HasPrefix v (B "go"))); [discriminate|].
  destruct (checked (GoBytes.slice_from v (len (B "go")))) as [v1|]; [|discriminate].
  cbn [res_bind] in E.
  destruct (checked (GoBytes.slice_to v1 (outer v1))) as [v2|]; [|discriminate].
  cbn [res_bind] in E.
  destruct (GoBytes.Equal v2 []); [discriminate|].
  destruct (GoStrconv.ParseFloat v2) as [n|]; [|discriminate].
  injection E as <-.
  set (x := int int_of_large (ten_n_and_half fused n)).
  pose proof (Z.rem_bound_abs x 10 ltac:(lia)) as R.
  exists (Z.to_nat (Z.rem x 10)). split; [lia|].
  apply TagsFacts.tags_to_go1. lia.
Qed.

Lemma defaultTags_stops_at_go1_9_witness :
  exists k, (k <= 9)%nat /\ [B "go1.1"; B "go1.2"] = firstn k go1_tags.
Proof.
  exact (defaultTags_stops_at_go1_9 false Amd64.int_of_large (B "go1.21")
           [B "go1.1"; B "go1.2"] eq_refl).
Defined.

(** X11: on the version of a release, [go], a digit, a point and a digit,
    followed by nothing or by a byte that is neither a digit nor a point
    ([go1.7], [go1.7rc2]), the tags are [go1.1] up to that of the second digit,
    whatever the first digit: none for [go1.0]. *)
Theorem defaultTags_of_release
        (fused : bool) (int_of_large : F64.t -> Z) (K N : Z) (rest : bytes) :
  0 <= K < 10 -> 0 <= N < 10 -> after_number rest = true ->
  defaultTags fused int_of_large
    (B "go" ++ GoTime.digit K :: "."%byte :: GoTime.digit N :: rest)
  = Ok (firstn (Z.to_nat N) go1_tags).
Proof.
  intros HK HN HR. rewrite TagsFacts.defaultTags_number.
  change (GoTime.digit K :: "."%byte :: GoTime.digit N :: rest)
    with ([GoTime.digit K; "."%byte; GoTime.digit N] ++ rest).
  rewrite TagsFacts.number_app, (TagsFacts.number_after rest HR), app_nil_r.
  2:{ cbn [forallb].
      rewrite (TagsFacts.digit_numeric _ (GoTimeFacts.is_digit_digit K HK)),
        (TagsFacts.digit_numeric _ (GoTimeFacts.is_digit_digit N HN)).
      reflexivity. }
  pose proof TagsFacts.release_table as T.
  rewrite forallb_forall in T.
  specialize (T fused ltac:(destruct fused; cbn; tauto)).
  rewrite forallb_forall in T. specialize (T K (TagsFacts.digit_value_In K HK)).
  rewrite forallb_forall in T. specialize (T N (TagsFacts.digit_value_In N HN)).
  cbv beta in T.
  destruct (GoStrconv.ParseFloat _) as [n|]; [|discriminate].
  destruct (Float.trunc (ten_n_and_half fused n)) as [z|] eqn:Tz; [|discriminate].
  apply andb_true_iff in T as [T1 T2]. apply Z.eqb_eq in T2.
  rewrite (TagsFacts.int_small _ _ _ Tz T1), T2.
  cbn [app]. f_equal. apply TagsFacts.tags_to_go1. lia.
Qed.

Lemma defaultTags_of_release_witness :
  defaultTags false Amd64.int_of_large (B "go1.7rc2")
  = Ok [B "go1.1"; B "go1.2"; B "go1.3"; B "go1.4"; B "go1.5"; B "go1.6"; B "go1.7"].
Proof.
  exact (defaultTags_of_release false Amd64.int_of_large 1 7 (B "rc2")
           ltac:(lia) ltac:(lia) eq_refl).
Defined.

(** X12: with two digits after the point the second rounds the first, and
    the count of tags is the last digit of the result: [go1.10] to [go1.14]
    give [go1.1] alone, [go1.15] to [go1.19] give [go1.1] and [go1.2], and
    [go1.95] gives none. *)
Theorem defaultTags_of_two_digit_minor
        (fused : bool) (int_of_large : F64.t -> Z) (K N M : Z) (rest : bytes) :
  0 <= K < 10 -> 0 <= N < 10 -> 0 <= M < 10 -> after_number rest = true ->
  defaultTags fused int_of_large
    (B "go" ++ GoTime.digit K :: "."%byte :: GoTime.digit N :: GoTime.digit M :: rest)
  = Ok (firstn (Z.to_nat ((N + (if 5 <=? M then 1 else 0)) mod 10)) go1_tags).
Proof.
  intros HK HN HM HR. rewrite TagsFacts.defaultTags_number.
  change (GoTime.digit K :: "."%byte :: GoTime.digit N :: GoTime.digit M :: rest)
    with ([GoTime.digit K; "."%byte; GoTime.digit N; GoTime.digit M] ++ rest).
  rewrite TagsFacts.number_app, (TagsFacts.number_after rest HR), app_nil_r.
  2:{ cbn [forallb].
      rewrite (TagsFacts.digit_numeric _ (GoTimeFacts.is_digit_digit K HK)),
        (TagsFacts.digit_numeric _ (GoTimeFacts.is_digit_digit N HN)),
        (TagsFacts.digit_numeric _ (GoTimeFacts.is_digit_digit M HM)).
      reflexivity. }
  pose proof TagsFacts.minor_table as T.
  rewrite forallb_forall in T.
  specialize (T fused ltac:(destruct fused; cbn; tauto)).
  rewrite forallb_forall in T. specialize (T K (TagsFacts.digit_value_In K HK)).
  rewrite forallb_forall in T. specialize (T N (TagsFacts.digit_value_In N HN)).
  rewrite forallb_forall in T. specialize (T M (TagsFacts.digit_value_In M HM)).
  cbv beta in T.
  destruct (GoStrconv.ParseFloat _) as [n|]; [|discriminate].
  destruct (Float.trunc (ten_n_and_half fused n)) as [z|] eqn:Tz; [|discriminate].
  apply andb_true_iff in T as [T1 T2]. apply Z.eqb_eq in T2.
  rewrite (TagsFacts.int_small _ _ _ Tz T1), T2.
  cbn [app]. f_equal. apply TagsFacts.tags_to_go1.
  pose proof (Z.mod_pos_bound (N + (if 5 <=? M then 1 else 0)) 10 ltac:(lia)). lia.
Qed.

Lemma defaultTags_of_two_digit_minor_witness :
  defaultTags true Amd64.int_of_large (B "go1.21 linux/amd64")
  = Ok [B "go1.1"; B "go1.2"].
Proof.
  exact (defaultTags_of_two_digit_minor true Amd64.int_of_large 1 2 1 (B " linux/amd64")
           ltac:(lia) ltac:(lia) ltac:(lia) eq_refl).
Defined.

(** X17: [defaultTags] looks at the number of the version only: what
    follows the digits and points after [go] ([rc2], [beta1], a blank and
    the rest) changes nothing, neither the tags nor a panic. *)
Theorem defaultTags_ignores_text_after_number
        (fused : bool) (int_of_large : F64.t -> Z) (num rest : bytes) :
  forallb numeric num = true -> after_number rest = true ->
  defaultTags fused int_of_large (B "go" ++ num ++ rest)
  = defaultTags fused int_of_large (B "go" ++ num).
Proof.
  intros Hn Hr. rewrite !TagsFacts.defaultTags_number.
  rewrite (TagsFacts.number_app num rest Hn), (TagsFacts.number_after rest Hr).
  assert (E : number num = num).
  { rewrite <- (app_nil_r num) at 1.
    rewrite (TagsFacts.number_app num [] Hn). cbn [number]. apply app_nil_r. }
  now rewrite app_nil_r, E.
Qed.

Lemma defaultTags_ignores_text_after_number_witness :
  defaultTags true Amd64.int_of_large (B "go1.8beta2 linux/amd64")
  = defaultTags true Amd64.int_of_large (B "go1.8").
Proof.
  exact (defaultTags_ignores_text_after_number true Amd64.int_of_large
           (B "1.8") (B "beta2 linux/amd64") eq_refl eq_refl).
Defined.

(** ** The start of [main] *)

Section CommandFacts.
Context {X : Externals}.
Variable host : Host.
Local Open Scope proc_scope.

(** The search for the import path changes nothing in the process. *)
Lemma import_path_state (P : program) (gopaths : list bytes) (p p' : proc)
      (r : res bytes) :
  import_path host P gopaths p = (p', r) -> p' = p.
Proof.
  assert (W : forall p p' r, import_path_of_wd host gopaths p = (p', r) -> p' = p).
  { intros q q' r'. unfold import_path_of_wd, log_Fatal, lift, ret.
    destruct (Getwd host); [|now intros [= <- _]].
    destruct (GoBytes.Equal _ _); now intros [= <- _]. }
  destruct P; cbn [import_path]; unfold Main_import_path, Doc_import_path,
    log_Fatal, lift, ret.
  - destruct (negb _); [now intros [= <- _] | apply W].
  - destruct (_ || _); [apply W|].
    destruct (NArg host =? 1); now intros [= <- _].
Qed.

(** So does the listing of the test files; it panics when [defaultTags]
    does. *)
Lemma test_files_state (gopaths : list bytes) (importPath : bytes) (p p' : proc)
      (r : res (list bytes)) :
  test_files host gopaths importPath p = (p', r) -> p' = p.
Proof.
  unfold test_files. rewrite bind_run. unfold lift, log_Fatal, ret.
  destruct (defaultTags _ _ _); [|now intros [= <- _]].
  destruct (NewContext host gopaths a); [|now intros [= <- _]].
  destruct (FilesFromImportPath host c importPath); now intros [= <- _].
Qed.

Lemma test_files_panic (gopaths : list bytes) (importPath : bytes) (p : proc) :
  defaultTags (fuses host) (int_of_large_value host) (Version host) = Stop Panic ->
  test_files host gopaths importPath p = (p, Stop Panic).
Proof.
  intros E. unfold test_files. rewrite bind_run. unfold lift. now rewrite E.
Qed.

End CommandFacts.

(** X13: a program built by a point release of Go ([runtime.Version()] has a
    second point in its number, as [go1.7.3]) never gets to the scanner: it
    runs [go] not once and prints nothing; and once the [go] tool is found
    and the import path is settled, it panics in [defaultTags]. *)
Theorem point_release_build_never_runs {X : Externals}
        (host : Host) (P : program) (major minor rest : bytes) (p : proc) :
  Version host = B "go" ++ major ++ "."%byte :: minor ++ "."%byte :: rest ->
  forallb GoTime.is_digit major = true ->
  forallb GoTime.is_digit minor = true ->
  (exists e, command host P p = (p, Stop e))
  /\ (forall p' importPath,
        LookPath host = None ->
        import_path host P (GoFilepath.SplitList (GOPATH host)) p = (p', Ok importPath) ->
        command host P p = (p, Stop Panic)).
Proof.
  intros V Ha Hb.
  assert (T : defaultTags (fuses host) (int_of_large_value host) (Version host)
              = Stop Panic)
    by (rewrite V; now apply TagsFacts.defaultTags_point_release).
  assert (C : forall p' importPath,
             LookPath host = None ->
             import_path host P (GoFilepath.SplitList (GOPATH host)) p
             = (p', Ok importPath) ->
             command host P p = (p, Stop Panic)).
  { intros p' importPath L I. unfold command. rewrite L, bind_run, I.
    apply import_path_state in I. subst p'.
    now rewrite bind_run, (test_files_panic host _ _ _ T). }
  split; [|exact C].
  destruct (LookPath host) as [err|] eqn:L.
  - eexists. unfold command. rewrite L. reflexivity.
  - destruct (import_path host P (GoFilepath.SplitList (GOPATH host)) p)
      as [p' [importPath|e]] eqn:I.
    + exists Panic. now apply (C p' importPath).
    + exists e. unfold command. rewrite L, bind_run, I.
      apply import_path_state in I. now subst p'.
Qed.

Lemma point_release_build_never_runs_witness :
  let host := SampleHost.host (B "go1.7.3") (B "/home/u") [] in
  let p := Sample.process Sample.two_runs in
  (exists e, command (X := Sample.externals) host main_go p = (p, Stop e))
  /\ (forall p' importPath,
        LookPath host = None ->
        import_path (X := Sample.externals) host main_go
                    (GoFilepath.SplitList (GOPATH host)) p = (p', Ok importPath) ->
        command (X := Sample.externals) host main_go p = (p, Stop Panic)).
Proof.
  exact (point_release_build_never_runs (X := Sample.externals)
           (SampleHost.host (B "go1.7.3") (B "/home/u") []) main_go
           (B "1") (B "7") (B "3") (Sample.process Sample.two_runs)
           eq_refl eq_refl eq_refl).
Defined.

(** X14: without [GOPATH] in the environment, main.go, and the program of
    README.md when it is given no import path or [.], stop with [Cannot
    determine import path of the current directory.], wherever the working
    directory is; nothing is run or printed. *)
Theorem unset_GOPATH_is_fatal {X : Externals}
        (host : Host) (P : program) (wd : bytes) (p : proc) :
  LookPath host = None ->
  GOPATH host = [] ->
  Getwd host = inl wd ->
  Args host = [] \/ (P = readme_go /\ Args host = [B "."]) ->
  command host P p = (p, Stop (Fatal (B "Cannot determine import path of the current directory."))).
Proof.
  intros L G W A.
  assert (I : import_path_of_wd host [] p = (p, Stop (Fatal cannot_determine))).
  { unfold import_path_of_wd. now rewrite W. }
  unfold command. rewrite L, G, bind_run. cbn [GoFilepath.SplitList].
  destruct A as [A|[-> A]].
  - destruct P; cbn [import_path]; unfold Main_import_path, Doc_import_path, NArg;
      rewrite A; cbn [length Z.of_nat Z.eqb negb orb]; now rewrite I.
  - cbn [import_path]. unfold Doc_import_path, NArg, Arg. rewrite A.
    cbn [length Z.of_nat Pos.of_succ_nat Z.eqb Pos.eqb orb andb nth].
    rewrite GoBytesFacts.Equal_refl. now rewrite I.
Qed.

Lemma unset_GOPATH_is_fatal_witness :
  command (X := Sample.externals) (SampleHost.host (B "go1.7") [] [B "."]) readme_go
          (Sample.process Sample.two_runs)
  = (Sample.process Sample.two_runs,
     Stop (Fatal (B "Cannot determine import path of the current directory."))).
Proof.
  apply (unset_GOPATH_is_fatal (X := Sample.externals)
           (SampleHost.host (B "go1.7") [] [B "."]) readme_go
           (B "/home/u/src/github.com/cznic/bench")
           (Sample.process Sample.two_runs) eq_refl eq_refl eq_refl).
  right. split; reflexivity.
Defined.

(** ** The width of the first column *)

(** X15: [width] in README.md is the length of the longest identifier: no
    identifier is longer, and unless there is none, one has that length. *)
Theorem width_is_longest_identifier (bench : list bytes) :
  (forall v, In v bench -> len v <= Doc.max_width bench)
  /\ (bench = [] /\ Doc.max_width bench = 0
      \/ exists v, In v bench /\ len v = Doc.max_width bench).
Proof.
  unfold Doc.max_width.
  assert (G : forall w0,
             0 <= w0 ->
             let w := fold_left (fun width v => Z.max width (len v)) bench w0 in
             w0 <= w
             /\ (forall v, In v bench -> len v <= w)
             /\ (w = w0 \/ exists v, In v bench /\ len v = w)).
  { induction bench as [|u bench IH]; intros w0 H0; cbn [fold_left In].
    - cbv zeta. split; [lia|]. split; [easy | now left].
    - pose proof (len_nonneg u) as Hu.
      destruct (IH (Z.max w0 (len u)) ltac:(lia)) as (I1 & I2 & I3).
      cbv zeta in *. split; [lia|]. split.
      + intros v [<-|Hv]; [lia | now apply I2].
      + destruct I3 as [E|(v & Hv & E)].
        * destruct (Z.max_spec w0 (len u)) as [[_ M]|[_ M]].
          -- right. exists u. split; [now left | lia].
          -- left. lia.
        * right. exists v. split; [now right | exact E]. }
  destruct (G 0 ltac:(lia)) as (_ & G2 & G3). cbv zeta in *.
  split; [exact G2|].
  destruct G3 as [E|G3]; [|now right].
  destruct bench as [|u bench]; [left; now split|].
  right.
  destruct (G 0 ltac:(lia)) as (_ & G2' & _). cbv zeta in G2'.
  exists u. split; [now left|].
  pose proof (G2' u (or_introl eq_refl)). pose proof (len_nonneg u). lia.
Qed.
